(** * Avalon StarGo mount driver: protocol engine and status polling

    A shallow embedding of [indi-avalon/lx200stargo.cpp]: the query engine
    ([sendQuery], [receive], [transmit]), the telegram parser
    ([ParseMotionState]), the coordinate and tracking-adjustment codecs, the
    status poll ([ReadScopeStatus]) and the guide-pulse entry points; then
    the rest of the command catalogue: handshake, port flags and speeds,
    meridian flip mode, coordinate format, firmware text, home, park,
    abort and site location.

    The driver is a C++ object mutated in place; here every member function
    is a state transformer over the record [Driver].  C [double]s are
    binary64 primitive floats, C [int]s are [Z].  Statements about all
    doubles go through the library's specification of the primitive
    operations ([FloatAxioms]). *)

From Stdlib Require Import ZArith List String Ascii Bool Lia RelationClasses.
From Stdlib Require Import Floats.PrimFloat Floats.SpecFloat Floats.FloatOps.
From Stdlib Require Import Floats.FloatAxioms.
From Stdlib Require DecimalString.
Import ListNotations.

#[local] Open Scope string_scope.
#[local] Open Scope Z_scope.
#[local] Set Warnings "-inexact-float".

(* ===================================================================== *)
(** ** The C library functions the driver calls *)
(* ===================================================================== *)

Module CLib.

(** [<ctype.h>] in the C locale. *)
Definition isdigit (c : ascii) : bool :=
  let n := N_of_ascii c in ((48 <=? n) && (n <=? 57))%N.

Definition isspace (c : ascii) : bool :=
  let n := N_of_ascii c in ((n =? 32) || ((9 <=? n) && (n <=? 13)))%N.

Definition digit_value (c : ascii) : Z := Z.of_N (N_of_ascii c) - 48.

(** Two's-complement views of a 32-bit argument. *)
Definition to_int32 (v : Z) : Z := (v + 2 ^ 31) mod 2 ^ 32 - 2 ^ 31.
Definition to_uint32 (v : Z) : Z := v mod 2 ^ 32.

Definition INT_MIN : Z := - 2 ^ 31.
Definition INT_MAX : Z := 2 ^ 31 - 1.

(** *** Conversions between [int] and [double] *)

(** [(double) z]: round to nearest, ties to even (exact for every [int]). *)
Definition Z2double (z : Z) : float :=
  SF2Prim (binary_normalize prec emax z 0 false).

(** The decimal number [(-1)^neg * m * 10^e10] rounded to the nearest
    binary64 value, as a correctly rounding [strtod] does. *)
Definition decimal_to_double (neg : bool) (m : Z) (e10 : Z) : float :=
  if m <=? 0 then SF2Prim (S754_zero neg)
  else if 0 <=? e10
  then SF2Prim (binary_normalize prec emax
                  ((if neg then -1 else 1) * m * 10 ^ e10) 0 false)
  else SF2Prim (SFdiv prec emax
                  (S754_finite neg (Z.to_pos m) 0)
                  (S754_finite false (Z.to_pos (10 ^ (- e10))) 0)).

(** [static_cast<int>(x)]: truncation toward zero.  The conversion is
    undefined in C when the truncated value does not fit an [int] (NaN and
    infinities included); the model then yields [INT_MIN], the value the
    x86-64 conversion instruction produces. *)
Definition double_to_int (x : float) : Z :=
  match Prim2SF x with
  | S754_zero _ => 0
  | S754_finite s m e =>
      let a := if 0 <=? e then Z.pos m * 2 ^ e else Z.pos m / 2 ^ (- e) in
      let v := if s then - a else a in
      if (INT_MIN <=? v) && (v <=? INT_MAX) then v else INT_MIN
  | S754_infinity _ | S754_nan => INT_MIN
  end.

(** *** [sscanf] *)

(** The conversions the driver's formats use: [%d], [%lf], [%c], [%s]. *)
Inductive conv : Type := CInt | CDbl | CChr | CStr.

Inductive directive : Type :=
| DLit (c : ascii)                       (* an ordinary character *)
| DSpace                                 (* white space in the format *)
| DConv (width : option nat) (k : conv)  (* %[width]conversion *)
| DBad.                                  (* a conversion not modelled *)

(** A value stored through one of [sscanf]'s pointer arguments. *)
Inductive scanval : Type :=
| VInt (z : Z)
| VDbl (x : float)
| VChr (c : ascii)
| VStr (s : string).

(** Outcome of one directive (C11 7.21.6.2): it consumes input and may
    assign, or fails for lack of input, or fails to match. *)
Inductive outcome (A : Type) : Type :=
| Got (v : A) (rest : string)
| MatchFail
| InputFail.
Arguments Got {A} v rest.
Arguments MatchFail {A}.
Arguments InputFail {A}.

Definition EOF : Z := -1.

Fixpoint skip_space (s : string) : string :=
  match s with
  | String c r => if isspace c then skip_space r else s
  | EmptyString => s
  end.

(** At most [w] decimal digits: accumulated value, digits read, rest. *)
Fixpoint take_digits (w : nat) (acc : Z) (n : nat) (s : string)
  : Z * nat * string :=
  match w, s with
  | S w', String c r =>
      if isdigit c then take_digits w' (10 * acc + digit_value c) (S n) r
      else (acc, n, s)
  | _, _ => (acc, n, s)
  end.

Definition is_sign (c : ascii) : bool :=
  (Ascii.eqb c "-" || Ascii.eqb c "+")%char.

(** An optional sign, charged to the field width. *)
Definition take_sign (w : nat) (s : string) : bool * nat * string :=
  match w, s with
  | S w', String c r =>
      if is_sign c then (Ascii.eqb c "-"%char, w', r) else (false, w, s)
  | _, _ => (false, w, s)
  end.

(** [%d] with field width [w]. *)
Definition scan_int (w : nat) (s : string) : outcome Z :=
  match skip_space s with
  | EmptyString => InputFail
  | s0 =>
      let '(neg, w1, s1) := take_sign w s0 in
      let '(v, n, rest) := take_digits w1 0 0 s1 in
      match n with
      | O => MatchFail
      | _ => Got (if neg then - v else v) rest
      end
  end.

(** The exponent part of a decimal floating constant, if one starts here:
    [e] or [E], an optional sign, at least one digit. *)
Definition take_exponent (w : nat) (s : string) : outcome Z :=
  match w, s with
  | S w', String c r =>
      if (Ascii.eqb c "e" || Ascii.eqb c "E")%char then
        let '(neg, w1, s1) := take_sign w' r in
        let '(v, n, rest) := take_digits w1 0 0 s1 in
        match n with
        | O => MatchFail
        | _ => Got (if neg then - v else v) rest
        end
      else Got 0 s
  | _, _ => Got 0 s
  end.

(** [%lf] with field width [w], decimal forms only: sign, digits with an
    optional radix point, optional exponent.  (The hexadecimal, infinity
    and NaN spellings [strtod] also accepts are not modelled.) *)
Definition scan_double (w : nat) (s : string) : outcome float :=
  match skip_space s with
  | EmptyString => InputFail
  | s0 =>
      let '(neg, w1, s1) := take_sign w s0 in
      let '(mi, ni, s2) := take_digits w1 0 0 s1 in
      let w2 := (w1 - ni)%nat in
      let '(m, nf, s3, w3) :=
        match w2, s2 with
        | S w2', String "."%char r =>
            let '(m, nf, s3) := take_digits w2' mi 0 r in
            (m, nf, s3, (w2' - nf)%nat)
        | _, _ => (mi, O, s2, w2)
        end in
      match (ni + nf)%nat with
      | O => MatchFail
      | _ =>
          match take_exponent w3 s3 with
          | Got e rest =>
              Got (decimal_to_double neg m (e - Z.of_nat nf)) rest
          | _ => MatchFail
          end
      end
  end.

(** [%c]: one character, white space included. *)
Definition scan_char (s : string) : outcome ascii :=
  match s with
  | EmptyString => InputFail
  | String c r => Got c r
  end.

Fixpoint take_word (w : nat) (s : string) : string * string :=
  match w, s with
  | S w', String c r =>
      if isspace c then (EmptyString, s)
      else let '(a, rest) := take_word w' r in (String c a, rest)
  | _, _ => (EmptyString, s)
  end.

(** [%s] with field width [w]: a non-empty run of non-space characters. *)
Definition scan_word (w : nat) (s : string) : outcome string :=
  match skip_space s with
  | EmptyString => InputFail
  | s0 => let '(a, rest) := take_word w s0 in Got a rest
  end.

(** A missing field width means "no limit". *)
Definition field_width (width : option nat) (s : string) : nat :=
  match width with
  | Some w => w
  | None => String.length s
  end.

Definition run_directive (d : directive) (s : string)
  : outcome (option scanval) :=
  match d with
  | DLit c =>
      match s with
      | EmptyString => InputFail
      | String c' r => if Ascii.eqb c c' then Got None r else MatchFail
      end
  | DSpace => Got None (skip_space s)
  | DConv width k =>
      let w := field_width width s in
      match k with
      | CInt => match scan_int w s with
                | Got v r => Got (Some (VInt v)) r
                | MatchFail => MatchFail
                | InputFail => InputFail
                end
      | CDbl => match scan_double w s with
                | Got v r => Got (Some (VDbl v)) r
                | MatchFail => MatchFail
                | InputFail => InputFail
                end
      | CChr => match scan_char s with
                | Got v r => Got (Some (VChr v)) r
                | MatchFail => MatchFail
                | InputFail => InputFail
                end
      | CStr => match scan_word w s with
                | Got v r => Got (Some (VStr v)) r
                | MatchFail => MatchFail
                | InputFail => InputFail
                end
      end
  | DBad => MatchFail
  end.

(** The directives are executed in order; the result is the number of
    assignments, or [EOF] when input runs out before the first one. *)
Fixpoint scan (ds : list directive) (s : string) (acc : list scanval)
  : Z * list scanval :=
  match ds with
  | [] => (Z.of_nat (List.length acc), rev acc)
  | d :: ds' =>
      match run_directive d s with
      | Got None rest => scan ds' rest acc
      | Got (Some v) rest => scan ds' rest (v :: acc)
      | MatchFail => (Z.of_nat (List.length acc), rev acc)
      | InputFail =>
          match acc with
          | [] => (EOF, [])
          | _ => (Z.of_nat (List.length acc), rev acc)
          end
      end
  end.

(** Reading a format string.  [fuel] bounds the recursion by the length of
    the format. *)
Fixpoint format_width (acc : option nat) (s : string) : option nat * string :=
  match s with
  | String c r =>
      if isdigit c then
        format_width
          (Some (10 * match acc with Some a => a | None => O end
                 + Z.to_nat (digit_value c))%nat) r
      else (acc, s)
  | EmptyString => (acc, s)
  end.

Definition format_conv (width : option nat) (s : string)
  : directive * string :=
  match s with
  | String "d" r => (DConv width CInt, r)
  | String "l" (String "f" r) => (DConv width CDbl, r)
  | String "c" r => (DConv width CChr, r)
  | String "s" r => (DConv width CStr, r)
  | String "%" r => (DLit "%", r)
  | String _ r => (DBad, r)
  | EmptyString => (DBad, EmptyString)
  end.

Fixpoint scan_format (fuel : nat) (fmt : string) : list directive :=
  match fuel, fmt with
  | S n, String c r =>
      if Ascii.eqb c "%" then
        let '(width, r1) := format_width None r in
        let '(d, r2) := format_conv width r1 in
        d :: scan_format n r2
      else if isspace c then DSpace :: scan_format n r
      else DLit c :: scan_format n r
  | _, _ => []
  end.

Definition sscanf (s : string) (format : string) : Z * list scanval :=
  scan (scan_format (String.length format) format) s [].

(** *** [sprintf] and [snprintf] *)

Inductive parg : Type :=
| AInt (v : Z)
| AStr (s : string).

(** [%d], [%i] and [%u] with the flags [+] and [0] and a minimum width,
    and [%s]. *)
Inductive pdirective : Type :=
| PLit (c : ascii)
| PNum (plus zero : bool) (width : nat) (signed : bool)
| PStr
| PBad.

Fixpoint repeat_char (c : ascii) (n : nat) : string :=
  match n with
  | O => EmptyString
  | S n' => String c (repeat_char c n')
  end.

Definition decimal (n : Z) : string :=
  DecimalString.NilZero.string_of_uint (N.to_uint (Z.to_N n)).

Definition format_num (plus zero : bool) (width : nat) (signed : bool)
  (v : Z) : string :=
  let v := if signed then to_int32 v else to_uint32 v in
  let sign := if v <? 0 then "-" else if signed && plus then "+" else "" in
  let digits := decimal (Z.abs v) in
  let pad := (width - (String.length sign + String.length digits))%nat in
  if zero then sign ++ repeat_char "0" pad ++ digits
  else repeat_char " " pad ++ sign ++ digits.

Fixpoint print_flags (plus zero : bool) (s : string)
  : bool * bool * string :=
  match s with
  | String "+" r => print_flags true zero r
  | String "0" r => print_flags plus true r
  | _ => (plus, zero, s)
  end.

Fixpoint skip_length_modifier (s : string) : string :=
  match s with
  | String "h" r => skip_length_modifier r
  | String "l" r => skip_length_modifier r
  | _ => s
  end.

Definition print_conv (plus zero : bool) (width : nat) (s : string)
  : pdirective * string :=
  match s with
  | String "d" r => (PNum plus zero width true, r)
  | String "i" r => (PNum plus zero width true, r)
  | String "u" r => (PNum plus zero width false, r)
  | String "s" r => (PStr, r)
  | String "%" r => (PLit "%", r)
  | String _ r => (PBad, r)
  | EmptyString => (PBad, EmptyString)
  end.

Fixpoint print_format (fuel : nat) (fmt : string) : list pdirective :=
  match fuel, fmt with
  | S n, String c r =>
      if Ascii.eqb c "%" then
        let '(plus, zero, r1) := print_flags false false r in
        let '(width, r2) := format_width None r1 in
        let w := match width with Some w => w | None => O end in
        let '(d, r3) := print_conv plus zero w (skip_length_modifier r2) in
        d :: print_format n r3
      else PLit c :: print_format n r
  | _, _ => []
  end.

Fixpoint print (ds : list pdirective) (args : list parg) : string :=
  match ds with
  | [] => EmptyString
  | PLit c :: ds' => String c (print ds' args)
  | PNum plus zero width signed :: ds' =>
      match args with
      | AInt v :: args' =>
          format_num plus zero width signed v ++ print ds' args'
      | _ => print ds' (tl args)
      end
  | PStr :: ds' =>
      match args with
      | AStr a :: args' => a ++ print ds' args'
      | _ => print ds' (tl args)
      end
  | PBad :: ds' => print ds' args
  end.

Definition sprintf (format : string) (args : list parg) : string :=
  print (print_format (String.length format) format) args.

(** [snprintf] keeps at most [size - 1] characters. *)
Definition snprintf (size : nat) (format : string) (args : list parg)
  : string :=
  substring 0 (size - 1) (sprintf format args).

End CLib.


(* ===================================================================== *)
(** ** The serial line *)
(* ===================================================================== *)

(** The driver reaches the mount through two primitives of the host
    library, [tty_read_section] and [tty_write_string].  The line is a queue
    of sections still to come, each with the number of seconds a reader must
    be prepared to wait before it is complete (0: already buffered), and a
    script of how the mount reacts to successive writes.  Every call is
    recorded in [trace]. *)

Module Tty.

Inductive TTY_RESULT : Type := TTY_OK | TTY_WRITE_ERROR | TTY_TIME_OUT.

Inductive TxOutcome : Type :=
| TxError                                   (* the write fails *)
| TxOk (reaction : list (Z * string)).      (* sections the mount emits *)

Inductive IOEvent : Type :=
| IORead (stop : ascii) (timeout : Z) (got : option string)
| IOWrite (data : string) (ok : bool)
| IOSleep.

Record Port : Type := mkPort {
  inbox : list (Z * string);
  device : list TxOutcome;
  trace : list IOEvent
}.

(** Read up to and including the stop character, waiting at most [timeout]
    seconds.  A section arriving later than that is a time-out, after which
    it is [timeout] seconds closer. *)
Definition tty_read_section (p : Port) (stop : ascii) (timeout : Z)
  : TTY_RESULT * string * Port :=
  match inbox p with
  | [] =>
      (TTY_TIME_OUT, EmptyString,
       mkPort [] (device p) (trace p ++ [IORead stop timeout None]))
  | (delay, payload) :: rest =>
      if delay <=? timeout then
        let buffer := payload ++ String stop EmptyString in
        (TTY_OK, buffer,
         mkPort rest (device p)
           (trace p ++ [IORead stop timeout (Some buffer)]))
      else
        (TTY_TIME_OUT, EmptyString,
         mkPort ((delay - Z.max 0 timeout, payload) :: rest) (device p)
           (trace p ++ [IORead stop timeout None]))
  end.

(** Write a string; the mount's reaction joins the queue.  Once the script
    is used up the mount stays silent. *)
Definition tty_write_string (p : Port) (data : string)
  : TTY_RESULT * Port :=
  match device p with
  | TxError :: script =>
      (TTY_WRITE_ERROR,
       mkPort (inbox p) script (trace p ++ [IOWrite data false]))
  | TxOk reaction :: script =>
      (TTY_OK,
       mkPort (inbox p ++ reaction) script (trace p ++ [IOWrite data true]))
  | [] =>
      (TTY_OK, mkPort (inbox p) [] (trace p ++ [IOWrite data true]))
  end.

Definition nanosleep (p : Port) : Port :=
  mkPort (inbox p) (device p) (trace p ++ [IOSleep]).

(** The strings written so far, oldest first. *)
Fixpoint written (t : list IOEvent) : list string :=
  match t with
  | [] => []
  | IOWrite data _ :: t' => data :: written t'
  | _ :: t' => written t'
  end.

End Tty.

(* ===================================================================== *)
(** ** Driver state *)
(* ===================================================================== *)

Module StarGo.
Import CLib Tty.

(** Enumerations of the host framework and of the driver's header. *)
Inductive IPState : Type := IPS_IDLE | IPS_OK | IPS_BUSY | IPS_ALERT.
Inductive ISState : Type := ISS_OFF | ISS_ON.
Inductive TelescopeStatus : Type :=
  SCOPE_IDLE | SCOPE_SLEWING | SCOPE_TRACKING | SCOPE_PARKING | SCOPE_PARKED.
Inductive TelescopePierSide : Type := PIER_UNKNOWN | PIER_WEST | PIER_EAST.
Inductive TelescopeTrackMode : Type :=
  TRACK_SIDEREAL | TRACK_SOLAR | TRACK_LUNAR | TRACK_CUSTOM.
Inductive TelescopeSlewRate : Type :=
  SLEW_GUIDE | SLEW_CENTERING | SLEW_FIND | SLEW_MAX.
Inductive TelescopeMotorsState : Type :=
  MOTORS_OFF | MOTORS_DEC_ONLY | MOTORS_RA_ONLY | MOTORS_ON.
Inductive INDI_DIR_NS : Type := DIRECTION_NORTH | DIRECTION_SOUTH.
Inductive INDI_DIR_WE : Type := DIRECTION_WEST | DIRECTION_EAST.
Inductive TelescopeMotionCommand : Type := MOTION_START | MOTION_STOP.
Inductive TDirection : Type :=
  LX200_NORTH | LX200_WEST | LX200_EAST | LX200_SOUTH | LX200_ALL.
Inductive TSlew : Type :=
  LX200_SLEW_MAX | LX200_SLEW_FIND | LX200_SLEW_CENTER | LX200_SLEW_GUIDE.
Inductive TimerCallback : Type := guideTimeoutHelperNS | guideTimeoutHelperWE.

Definition IPState_eqb (a b : IPState) : bool :=
  match a, b with
  | IPS_IDLE, IPS_IDLE | IPS_OK, IPS_OK
  | IPS_BUSY, IPS_BUSY | IPS_ALERT, IPS_ALERT => true
  | _, _ => false
  end.

Definition TelescopeStatus_eqb (a b : TelescopeStatus) : bool :=
  match a, b with
  | SCOPE_IDLE, SCOPE_IDLE | SCOPE_SLEWING, SCOPE_SLEWING
  | SCOPE_TRACKING, SCOPE_TRACKING | SCOPE_PARKING, SCOPE_PARKING
  | SCOPE_PARKED, SCOPE_PARKED => true
  | _, _ => false
  end.

(** A switch vector: its state [s] and its switches; a one-element number
    vector: its state and its value. *)
Record SwitchVector : Type := mkSwitch { sw_s : IPState; sw : list ISState }.
Record NumberVector : Type := mkNumber { nv_s : IPState; nv_value : float }.

(** What the driver sends to its clients ([IDSetSwitch], [IDSetNumber]). *)
Inductive ClientMsg : Type :=
| MsgTrackingAdjustmentNP (v : NumberVector)
| MsgMountGotoHomeSP (s : IPState)
| MsgSlewRateSP (v : SwitchVector) (note : option string)
| MsgParkSP (parked : bool)
| MsgEqNP (ra dec : float)
| MsgPierSideSP (side : TelescopePierSide).

(** The three fields a motion telegram reports. *)
Record MotionState : Type := mkMotion {
  CurrentMotorsState : TelescopeMotorsState;
  CurrentTrackMode : TelescopeTrackMode;
  CurrentSlewRate : TelescopeSlewRate
}.

(** Mount status as the poll cycle maintains it. *)
Record ScopeState : Type := mkScope {
  TrackState : TelescopeStatus;
  IsParked : bool;
  MountGotoHomeSP : IPState;
  TrackingAdjustmentNP : NumberVector;
  currentRA : float;
  currentDEC : float;
  EqN : float * float;
  currentPierSide : TelescopePierSide
}.

(** Manual motion, slew rate and the two guide timers. *)
Record GuideState : Type := mkGuide {
  usePulseCommand : bool;
  MovementNSSP : SwitchVector;
  MovementWESP : SwitchVector;
  SlewRateSP : SwitchVector;
  GuideNSTID : Z;
  GuideWETID : Z;
  guide_direction_ns : TDirection;
  guide_direction_we : TDirection;
  timers : list (Z * Z * TimerCallback);
  next_timer : Z
}.

Record Driver : Type := mkDriver {
  port : Port;
  motion : MotionState;
  scope : ScopeState;
  guide : GuideState;
  connected : bool;
  simulation : bool;
  focuserAux1 : bool;
  client : list ClientMsg
}.

(** Field updates. *)
Definition with_port (p : Port) (st : Driver) : Driver :=
  mkDriver p (motion st) (scope st) (guide st)
    (connected st) (simulation st) (focuserAux1 st) (client st).
Definition with_motion (m : MotionState) (st : Driver) : Driver :=
  mkDriver (port st) m (scope st) (guide st)
    (connected st) (simulation st) (focuserAux1 st) (client st).
Definition with_scope (s : ScopeState) (st : Driver) : Driver :=
  mkDriver (port st) (motion st) s (guide st)
    (connected st) (simulation st) (focuserAux1 st) (client st).
Definition with_guide (g : GuideState) (st : Driver) : Driver :=
  mkDriver (port st) (motion st) (scope st) g
    (connected st) (simulation st) (focuserAux1 st) (client st).
Definition with_client (c : list ClientMsg) (st : Driver) : Driver :=
  mkDriver (port st) (motion st) (scope st) (guide st)
    (connected st) (simulation st) (focuserAux1 st) c.

Definition set_TrackState (v : TelescopeStatus) (s : ScopeState) :=
  mkScope v (IsParked s) (MountGotoHomeSP s) (TrackingAdjustmentNP s)
    (currentRA s) (currentDEC s) (EqN s) (currentPierSide s).
Definition set_IsParked (v : bool) (s : ScopeState) :=
  mkScope (TrackState s) v (MountGotoHomeSP s) (TrackingAdjustmentNP s)
    (currentRA s) (currentDEC s) (EqN s) (currentPierSide s).
Definition set_MountGotoHomeSP (v : IPState) (s : ScopeState) :=
  mkScope (TrackState s) (IsParked s) v (TrackingAdjustmentNP s)
    (currentRA s) (currentDEC s) (EqN s) (currentPierSide s).
Definition set_TrackingAdjustmentNP (v : NumberVector) (s : ScopeState) :=
  mkScope (TrackState s) (IsParked s) (MountGotoHomeSP s) v
    (currentRA s) (currentDEC s) (EqN s) (currentPierSide s).
Definition set_currentRA (v : float) (s : ScopeState) :=
  mkScope (TrackState s) (IsParked s) (MountGotoHomeSP s)
    (TrackingAdjustmentNP s) v (currentDEC s) (EqN s) (currentPierSide s).
Definition set_currentDEC (v : float) (s : ScopeState) :=
  mkScope (TrackState s) (IsParked s) (MountGotoHomeSP s)
    (TrackingAdjustmentNP s) (currentRA s) v (EqN s) (currentPierSide s).
Definition set_EqN (v : float * float) (s : ScopeState) :=
  mkScope (TrackState s) (IsParked s) (MountGotoHomeSP s)
    (TrackingAdjustmentNP s) (currentRA s) (currentDEC s) v
    (currentPierSide s).
Definition set_currentPierSide (v : TelescopePierSide) (s : ScopeState) :=
  mkScope (TrackState s) (IsParked s) (MountGotoHomeSP s)
    (TrackingAdjustmentNP s) (currentRA s) (currentDEC s) (EqN s) v.

Definition set_MovementNSSP (v : SwitchVector) (g : GuideState) :=
  mkGuide (usePulseCommand g) v (MovementWESP g) (SlewRateSP g)
    (GuideNSTID g) (GuideWETID g) (guide_direction_ns g)
    (guide_direction_we g) (timers g) (next_timer g).
Definition set_MovementWESP (v : SwitchVector) (g : GuideState) :=
  mkGuide (usePulseCommand g) (MovementNSSP g) v (SlewRateSP g)
    (GuideNSTID g) (GuideWETID g) (guide_direction_ns g)
    (guide_direction_we g) (timers g) (next_timer g).
Definition set_SlewRateSP (v : SwitchVector) (g : GuideState) :=
  mkGuide (usePulseCommand g) (MovementNSSP g) (MovementWESP g) v
    (GuideNSTID g) (GuideWETID g) (guide_direction_ns g)
    (guide_direction_we g) (timers g) (next_timer g).
Definition set_GuideNSTID (v : Z) (g : GuideState) :=
  mkGuide (usePulseCommand g) (MovementNSSP g) (MovementWESP g)
    (SlewRateSP g) v (GuideWETID g) (guide_direction_ns g)
    (guide_direction_we g) (timers g) (next_timer g).
Definition set_GuideWETID (v : Z) (g : GuideState) :=
  mkGuide (usePulseCommand g) (MovementNSSP g) (MovementWESP g)
    (SlewRateSP g) (GuideNSTID g) v (guide_direction_ns g)
    (guide_direction_we g) (timers g) (next_timer g).
Definition set_guide_direction_ns (v : TDirection) (g : GuideState) :=
  mkGuide (usePulseCommand g) (MovementNSSP g) (MovementWESP g)
    (SlewRateSP g) (GuideNSTID g) (GuideWETID g) v
    (guide_direction_we g) (timers g) (next_timer g).
Definition set_guide_direction_we (v : TDirection) (g : GuideState) :=
  mkGuide (usePulseCommand g) (MovementNSSP g) (MovementWESP g)
    (SlewRateSP g) (GuideNSTID g) (GuideWETID g) (guide_direction_ns g)
    v (timers g) (next_timer g).
Definition set_timers (v : list (Z * Z * TimerCallback)) (n : Z)
  (g : GuideState) :=
  mkGuide (usePulseCommand g) (MovementNSSP g) (MovementWESP g)
    (SlewRateSP g) (GuideNSTID g) (GuideWETID g) (guide_direction_ns g)
    (guide_direction_we g) v n.

(** Member functions are state transformers. *)
Definition M (A : Type) : Type := Driver -> A * Driver.

Definition ret {A : Type} (a : A) : M A := fun st => (a, st).
Definition bind {A B : Type} (c : M A) (k : A -> M B) : M B :=
  fun st => let (a, st') := c st in k a st'.
Definition gets {A : Type} (f : Driver -> A) : M A := fun st => (f st, st).
Definition modify (f : Driver -> Driver) : M unit := fun st => (tt, f st).

Declare Scope driver_scope.
Delimit Scope driver_scope with driver.
Notation "x <- c ;; k" := (bind c (fun x => k))
  (at level 61, c at next level, right associativity) : driver_scope.
Notation "' pat <- c ;; k" := (bind c (fun x => match x with pat => k end))
  (at level 61, pat pattern, c at next level, right associativity)
  : driver_scope.
Notation "c ;; k" := (bind c (fun _ => k))
  (at level 61, right associativity) : driver_scope.
#[local] Open Scope driver_scope.

Definition modify_scope (f : ScopeState -> ScopeState) : M unit :=
  modify (fun st => with_scope (f (scope st)) st).
Definition modify_guide (f : GuideState -> GuideState) : M unit :=
  modify (fun st => with_guide (f (guide st)) st).

(** [IDSetSwitch] / [IDSetNumber]: tell the clients. *)
Definition IDSet (m : ClientMsg) : M unit :=
  modify (fun st => with_client (client st ++ [m]) st).

(** What the driver needs from outside this file: a constant of its header,
    a helper of the host library, the base class's simulator and the focuser
    sub-device; and the content of an uninitialised [char]. *)
Class Host : Type := {
  AVALON_TIMEOUT : Z;
  getSexComponents : float -> Z * Z * Z;
  mountSim : Driver -> Driver;
  ReadFocuserStatus : Driver -> bool * Driver;
  indeterminate_char : ascii
}.

(* ===================================================================== *)
(** ** The base class, as far as the driver relies on it *)
(* ===================================================================== *)

Definition TelescopePierSide_eqb (a b : TelescopePierSide) : bool :=
  match a, b with
  | PIER_UNKNOWN, PIER_UNKNOWN | PIER_WEST, PIER_WEST
  | PIER_EAST, PIER_EAST => true
  | _, _ => false
  end.

(** [INDI::Telescope::SetParked]: records the park status, moves
    [TrackState] to parked or idle and publishes the park switch. *)
Definition Telescope_SetParked (isparked : bool) : M unit :=
  modify_scope (fun s =>
    set_TrackState (if isparked then SCOPE_PARKED else SCOPE_IDLE)
      (set_IsParked isparked s)) ;;
  IDSet (MsgParkSP isparked).

(** [INDI::Telescope::NewRaDec]: publishes the coordinates. *)
Definition NewRaDec (ra dec : float) : M unit :=
  modify_scope (set_EqN (ra, dec)) ;;
  IDSet (MsgEqNP ra dec).

(** [INDI::Telescope::setPierSide]: stores the side and publishes it when
    it changed. *)
Definition setPierSide (side : TelescopePierSide) : M unit :=
  old <- gets (fun st => currentPierSide (scope st)) ;;
  modify_scope (set_currentPierSide side) ;;
  if TelescopePierSide_eqb side old then ret tt
  else IDSet (MsgPierSideSP side).

Definition IUFindOnSwitchIndex (sp : SwitchVector) : Z :=
  (fix find (l : list ISState) (i : Z) : Z :=
     match l with
     | [] => -1
     | ISS_ON :: _ => i
     | ISS_OFF :: l' => find l' (i + 1)
     end) (sw sp) 0.

Definition IUResetSwitch (sp : SwitchVector) : SwitchVector :=
  mkSwitch (sw_s sp) (map (fun _ => ISS_OFF) (sw sp)).

(** [sp[i].s = ISS_ON]. *)
Fixpoint switch_on (i : nat) (l : list ISState) : list ISState :=
  match i, l with
  | O, _ :: l' => ISS_ON :: l'
  | S i', x :: l' => x :: switch_on i' l'
  | _, [] => []
  end.

Definition IEAddTimer (ms : Z) (callback : TimerCallback) : M Z :=
  id <- gets (fun st => next_timer (guide st)) ;;
  modify_guide (fun g =>
    set_timers (timers g ++ [(id, ms, callback)]) (id + 1) g) ;;
  ret id.

Definition IERmTimer (id : Z) : M unit :=
  modify_guide (fun g =>
    set_timers
      (filter (fun t => negb (fst (fst t) =? id)) (timers g))
      (next_timer g) g).

(* ===================================================================== *)
(** ** The driver *)
(* ===================================================================== *)

Section Driver.
Context {host : Host}.

(** *** Telegram parser *)

Definition ParseMotionState (state : string) : M bool := fun st =>
  match sscanf state ":Z1%01d%01d%01d" with
  | (3, [VInt lmotor; VInt lmode; VInt lslew]) =>
      let m := motion st in
      let motors :=
        match lmotor with
        | 0 => MOTORS_OFF
        | 1 => MOTORS_DEC_ONLY
        | 2 => MOTORS_RA_ONLY
        | 3 => MOTORS_ON
        | _ => CurrentMotorsState m
        end in
      let mode :=
        match lmode with
        | 0 => CurrentTrackMode m       (* TRACK_NONE removed, do nothing *)
        | 1 => TRACK_LUNAR
        | 2 => TRACK_SOLAR
        | 3 => TRACK_SIDEREAL
        | _ => CurrentTrackMode m
        end in
      let slew :=
        match lslew with
        | 0 => SLEW_GUIDE
        | 1 => SLEW_CENTERING
        | 2 => SLEW_FIND
        | 3 => SLEW_MAX
        | _ => CurrentSlewRate m
        end in
      (true, with_motion (mkMotion motors mode slew) st)
  | _ => (false, st)
  end.

(** *** Transport helpers *)

(** The stop character is removed when it is [#]. *)
Fixpoint drop_final_hash (buffer : string) : string :=
  match buffer with
  | EmptyString => EmptyString
  | String c EmptyString =>
      if Ascii.eqb c "#" then EmptyString else buffer
  | String c r => String c (drop_final_hash r)
  end.

Definition receive (end_ : ascii) (wait : Z) : M (bool * string) :=
  fun st =>
    let timeout := wait in
    let '(returnCode, buffer, p) :=
      tty_read_section (port st) end_ timeout in
    match returnCode with
    | TTY_OK => ((true, drop_final_hash buffer), with_port p st)
    | _ => ((false, EmptyString), with_port p st)
    end.

(** The body of [flush] is commented out in the source. *)
Definition flush : M unit := ret tt.

Definition transmit (buffer : string) : M bool := fun st =>
  let '(returnCode, p) := tty_write_string (port st) buffer in
  match returnCode with
  | TTY_OK => (true, with_port p st)
  | _ => (false, with_port p st)
  end.

Definition mount_request_delay : M unit :=
  modify (fun st => with_port (nanosleep (port st)) st).

(** *** Query engine *)

(** Every successful [receive] removes one section from the queue, so the
    two loops of [sendQuery] run at most [pending] times. *)
Definition pending (st : Driver) : nat :=
  S (List.length (inbox (port st))).

(** [while (receive(lresponse, &lbytes, '#', 0)) ParseMotionState(lresponse);] *)
Fixpoint drain (fuel : nat) : M unit :=
  match fuel with
  | O => ret tt
  | S n =>
      '(ok, lresponse) <- receive "#" 0 ;;
      if ok then (ParseMotionState lresponse ;; drain n) else ret tt
  end.

(** The second loop, with its locals [lwait], [found] and the caller's
    [response] buffer. *)
Fixpoint read_reply (fuel : nat) (end_ : ascii) (lwait : Z) (found : bool)
  (response : string) : M string :=
  match fuel with
  | O => ret response
  | S n =>
      '(ok, lresponse) <- receive end_ lwait ;;
      if ok then
        (telegram <- ParseMotionState lresponse ;;
         if negb telegram then
           (* Take the first response that is no motion state *)
           read_reply n end_ 0 true (if found then response else lresponse)
         else read_reply n end_ lwait found response)
      else ret response
  end.

(** The result is the [bool] returned and the content of the caller's
    [response] buffer.  In the header [end] defaults to [#] and [wait] to
    [AVALON_TIMEOUT]; calls that pass a third argument pass the wait. *)
Definition sendQuery (cmd : string) (end_ : ascii) (wait : Z)
  : M (bool * string) :=
  n <- gets pending ;;
  drain n ;;
  flush ;;
  sent <- transmit cmd ;;
  if negb sent then (mount_request_delay ;; ret (false, EmptyString))
  else
    (n <- gets pending ;;
     response <- read_reply n end_ wait false EmptyString ;;
     flush ;;
     mount_request_delay ;;
     ret (true, response)).

(** *** Queries of the poll cycle *)

Definition getEqCoordinates : M (option (float * float)) :=
  '(ok, response) <- sendQuery ":X590#" "#" AVALON_TIMEOUT ;;
  if negb ok then ret None
  else
    let '(returnCode, values) := sscanf response "RD%08lf%08lf" in
    if returnCode <? 2 then ret None
    else
      match values with
      | [VDbl r; VDbl d] =>
          ret (Some (PrimFloat.div r 1.0e6, PrimFloat.div d 1.0e5))
      | _ => ret None
      end.

Definition getMotorStatus : M (option (Z * Z)) :=
  '(ok, response) <- sendQuery ":X34#" "#" AVALON_TIMEOUT ;;
  if negb ok then ret None
  else
    let '(returnCode, values) := sscanf response "m%01d%01d" in
    if returnCode <? 2 then ret None
    else
      match values with
      | [VInt x; VInt y] => ret (Some (x, y))
      | _ => ret None
      end.

(** [status] is the caller's buffer; it keeps its content when nothing is
    stored into it. *)
Definition getParkHomeStatus (status : string) : M (bool * string) :=
  '(ok, response) <- sendQuery ":X38#" "#" AVALON_TIMEOUT ;;
  if negb ok then ret (false, status)
  else
    let '(returnCode, values) := sscanf response "p%32s[012AB]" in
    if returnCode =? 0 then ret (false, status)
    else
      match values with
      | VStr w :: _ => ret (true, w)
      | _ => ret (true, status)
      end.

Definition getTrackingAdjustment : M (option float) :=
  '(ok, response) <- sendQuery ":X42#" "#" AVALON_TIMEOUT ;;
  if negb ok then ret None
  else
    let '(returnCode, values) := sscanf response "or%04d#" in
    if returnCode <? 1 then ret None
    else
      match values with
      | VInt raValue :: _ =>
          ret (Some (PrimFloat.div (Z2double raValue) 100))
      | _ => ret None
      end.

Definition setTrackingAdjustment (adjustRA : float) : M bool :=
  (* ensure that -5 <= adjust <= 5 *)
  if PrimFloat.ltb 5.0 adjustRA then ret false
  else if PrimFloat.ltb adjustRA (-5.0) then ret false
  else
    let parameter := double_to_int (PrimFloat.mul adjustRA 100) in
    let cmd := sprintf ":X41%+04i#" [AInt parameter] in
    '(ok, _) <- sendQuery cmd "#" 0 ;;   (* No response *)
    if negb ok then ret false else ret true.

Definition syncSideOfPier : M bool :=
  '(ok, response) <- sendQuery ":X39#" "#" AVALON_TIMEOUT ;;
  if negb ok then ret false
  else
    let '(returnCode, values) := sscanf response "P%c" in
    let answer :=
      match values with
      | VChr c :: _ => c
      | _ => indeterminate_char
      end in
    if returnCode =? 0 then ret false
    else
      (match answer with
       | "X"%char => setPierSide PIER_UNKNOWN
       | "W"%char => setPierSide PIER_EAST
       | "E"%char => setPierSide PIER_WEST
       | _ => ret tt
       end ;;
       ret true).

Definition SetParked (isparked : bool) : M unit :=
  Telescope_SetParked isparked.

(** *** The poll cycle *)

(** The first part of [ReadScopeStatus], up to and including the tracking
    adjustment: motor status (retried once), park/home status, park and
    tracking evaluation.  [None] is an early [return false]; otherwise the
    result is the local [newTrackState]. *)
Definition evaluate_status : M (option TelescopeStatus) :=
  first <- getMotorStatus ;;
  motor <- match first with
           | Some _ => ret first
           | None => getMotorStatus          (* retry once *)
           end ;;
  match motor with
  | None => ret None
  | Some (x, y) =>
  '(ok, parkHomeStatus) <- getParkHomeStatus EmptyString ;;
  if negb ok then ret None
  else
  oldTrackState <- gets (fun st => TrackState (scope st)) ;;
  newTrackState <-
    (* handle parking / unparking *)
    (if String.eqb parkHomeStatus "2" then
       ((if TelescopeStatus_eqb oldTrackState SCOPE_PARKED then ret tt
         else SetParked true) ;;
        ret SCOPE_PARKED)
     else
       ((if TelescopeStatus_eqb oldTrackState SCOPE_PARKED
         then SetParked false else ret tt) ;;
        (* handle tracking state *)
        if (x =? 0) && (y =? 0) then
          (gotoHome <- gets (fun st => MountGotoHomeSP (scope st)) ;;
           (if IPState_eqb gotoHome IPS_BUSY then
              (modify_scope (set_MountGotoHomeSP IPS_OK) ;;
               IDSet (MsgMountGotoHomeSP IPS_OK))
            else ret tt) ;;
           ret SCOPE_IDLE)
        else if (x =? 1) && (y =? 0) then ret SCOPE_TRACKING
        else ret oldTrackState)) ;;
  adjustment <- getTrackingAdjustment ;;
  match adjustment with
  | Some raCorrection =>
      modify_scope (set_TrackingAdjustmentNP (mkNumber IPS_OK raCorrection))
  | None =>
      modify_scope (fun s =>
        set_TrackingAdjustmentNP
          (mkNumber IPS_ALERT (nv_value (TrackingAdjustmentNP s))) s)
  end ;;
  published <- gets (fun st => TrackingAdjustmentNP (scope st)) ;;
  IDSet (MsgTrackingAdjustmentNP published) ;;
  ret (Some newTrackState)
  end.

Definition ReadScopeStatus : M bool :=
  isConnected <- gets connected ;;
  if negb isConnected then ret false
  else
  isSimulation <- gets simulation ;;
  if isSimulation then (modify mountSim ;; ret true)
  else
  status <- evaluate_status ;;
  match status with
  | None => ret false
  | Some newTrackState =>
  coordinates <- getEqCoordinates ;;
  match coordinates with
  | None => ret false     (* Retrieving equatorial coordinates failed. *)
  | Some (r, d) =>
  modify_scope (fun s =>
    set_TrackState newTrackState (set_currentDEC d (set_currentRA r s))) ;;
  NewRaDec r d ;;
  pier <- syncSideOfPier ;;
  if negb pier then ret false
  else
  focuser <- gets focuserAux1 ;;
  state <- gets (fun st => TrackState (scope st)) ;;
  if focuser && negb (TelescopeStatus_eqb state SCOPE_SLEWING)
  then ReadFocuserStatus
  else ret true
  end
  end.

(** *** Site longitude *)

(** The two statements that bring the longitude back into range. *)
Definition normalise_longitude (longitude : float) : float :=
  let longitude :=
    if PrimFloat.ltb 180 longitude then PrimFloat.sub longitude 360
    else longitude in
  let longitude :=
    if PrimFloat.ltb longitude (-180) then PrimFloat.add 360 longitude
    else longitude in
  longitude.

Definition setSiteLongitude (longitude : float) : M bool :=
  let longitude := normalise_longitude longitude in
  let '(d, m, s) := getSexComponents longitude in
  let command :=
    if (d <? 0) || (m <? 0) || (s <? 0) then
      snprintf 32 ":Sg%04d*%02u:%02u#"
        [AInt d; AInt (Z.abs m); AInt (Z.abs s)]
    else
      snprintf 32 ":Sg+%03d*%02d:%02d#" [AInt d; AInt m; AInt s] in
  '(result, _) <- sendQuery command "#" AVALON_TIMEOUT ;;
  ret result.

(** *** Manual motion and guiding *)

Definition MoveNS (dir : INDI_DIR_NS) (command : TelescopeMotionCommand)
  : M bool :=
  let cmd :=
    sprintf ":%s%s#"
      [AStr match command with MOTION_START => "M" | MOTION_STOP => "Q" end;
       AStr match dir with DIRECTION_NORTH => "n" | DIRECTION_SOUTH => "s" end]
  in
  isSimulation <- gets simulation ;;
  if isSimulation then ret true
  else ('(ok, _) <- sendQuery cmd "#" 0 ;; ret ok).

Definition MoveWE (dir : INDI_DIR_WE) (command : TelescopeMotionCommand)
  : M bool :=
  let cmd :=
    sprintf ":%s%s#"
      [AStr match command with MOTION_START => "M" | MOTION_STOP => "Q" end;
       AStr match dir with DIRECTION_WEST => "w" | DIRECTION_EAST => "e" end]
  in
  isSimulation <- gets simulation ;;
  if isSimulation then ret true
  else ('(ok, _) <- sendQuery cmd "#" 0 ;; ret ok).

(** The argument is one of the four enumerators, so the [default] branch
    of the source's [switch] is not reachable. *)
Definition setSlewMode (slewMode : TSlew) : M bool :=
  let cmd :=
    match slewMode with
    | LX200_SLEW_MAX => ":RS#"
    | LX200_SLEW_FIND => ":RM#"
    | LX200_SLEW_CENTER => ":RC#"
    | LX200_SLEW_GUIDE => ":RG#"
    end in
  '(ok, _) <- sendQuery cmd "#" 0 ;;  (* Don't wait for response *)
  ret ok.

Definition SendPulseCmd (direction : TDirection) (duration_msec : Z)
  : M Z :=
  state <- gets (fun st => TrackState (scope st)) ;;
  match state with
  | SCOPE_SLEWING | SCOPE_PARKING => ret 1
  | _ =>
      match
        match direction with
        | LX200_NORTH => Some ":Mgn%04u#"
        | LX200_SOUTH => Some ":Mgs%04u#"
        | LX200_EAST => Some ":Mge%04u#"
        | LX200_WEST => Some ":Mgw%04u#"
        | LX200_ALL => None
        end
      with
      | None => ret 1
      | Some format =>
          let cmd := sprintf format [AInt duration_msec] in
          '(ok, _) <- sendQuery cmd "#" 0 ;;  (* no response expected *)
          ret (if negb ok then 1 else 0)
      end
  end.

Definition MovementBusy : M bool :=
  ns <- gets (fun st => sw_s (MovementNSSP (guide st))) ;;
  we <- gets (fun st => sw_s (MovementWESP (guide st))) ;;
  ret (IPState_eqb ns IPS_BUSY || IPState_eqb we IPS_BUSY).

(** The tail shared by the four guide functions: set slew to guiding. *)
Definition slew_to_guiding : M unit :=
  modify_guide (fun g =>
    set_SlewRateSP
      (mkSwitch (sw_s (SlewRateSP g))
         (switch_on 0 (sw (IUResetSwitch (SlewRateSP g))))) g) ;;
  rate <- gets (fun st => SlewRateSP (guide st)) ;;
  IDSet (MsgSlewRateSP rate None).

Definition slew_mode_alert : M unit :=
  modify_guide (fun g =>
    set_SlewRateSP (mkSwitch IPS_ALERT (sw (SlewRateSP g))) g) ;;
  rate <- gets (fun st => SlewRateSP (guide st)) ;;
  IDSet (MsgSlewRateSP rate (Some "Error setting slew mode.")).

Definition stop_moving_NS : M unit :=
  ns <- gets (fun st => MovementNSSP (guide st)) ;;
  if IPState_eqb (sw_s ns) IPS_BUSY then
    (let dir := IUFindOnSwitchIndex ns in
     MoveNS (if dir =? 0 then DIRECTION_NORTH else DIRECTION_SOUTH)
       MOTION_STOP ;;
     ret tt)
  else ret tt.

Definition stop_moving_WE : M unit :=
  we <- gets (fun st => MovementWESP (guide st)) ;;
  if IPState_eqb (sw_s we) IPS_BUSY then
    (let dir := IUFindOnSwitchIndex we in
     MoveWE (if dir =? 0 then DIRECTION_WEST else DIRECTION_EAST)
       MOTION_STOP ;;
     ret tt)
  else ret tt.

Definition cancel_timer_NS : M unit :=
  id <- gets (fun st => GuideNSTID (guide st)) ;;
  if id =? 0 then ret tt
  else (IERmTimer id ;; modify_guide (set_GuideNSTID 0)).

Definition cancel_timer_WE : M unit :=
  id <- gets (fun st => GuideWETID (guide st)) ;;
  if id =? 0 then ret tt
  else (IERmTimer id ;; modify_guide (set_GuideWETID 0)).

Definition GuideNorth (ms : Z) : M IPState :=
  pulse <- gets (fun st => usePulseCommand (guide st)) ;;
  busy <- MovementBusy ;;
  if pulse && busy then ret IPS_ALERT       (* Cannot guide while moving. *)
  else
  (* If already moving (no pulse command), then stop movement *)
  stop_moving_NS ;;
  cancel_timer_NS ;;
  started <-
    (if pulse then (SendPulseCmd LX200_NORTH ms ;; ret true)
     else
       (ok <- setSlewMode LX200_SLEW_GUIDE ;;
        if negb ok then (slew_mode_alert ;; ret false)
        else
          (modify_guide (fun g =>
             set_MovementNSSP
               (mkSwitch (sw_s (MovementNSSP g))
                  (switch_on 0 (sw (MovementNSSP g)))) g) ;;
           MoveNS DIRECTION_NORTH MOTION_START ;;
           ret true))) ;;
  if negb started then ret IPS_ALERT
  else
  slew_to_guiding ;;
  modify_guide (set_guide_direction_ns LX200_NORTH) ;;
  id <- IEAddTimer (to_int32 ms) guideTimeoutHelperNS ;;
  modify_guide (set_GuideNSTID id) ;;
  ret IPS_BUSY.

Definition GuideSouth (ms : Z) : M IPState :=
  pulse <- gets (fun st => usePulseCommand (guide st)) ;;
  busy <- MovementBusy ;;
  if pulse && busy then ret IPS_ALERT
  else
  stop_moving_NS ;;
  cancel_timer_NS ;;
  started <-
    (if pulse then (SendPulseCmd LX200_SOUTH ms ;; ret true)
     else
       (ok <- setSlewMode LX200_SLEW_GUIDE ;;
        if negb ok then (slew_mode_alert ;; ret false)
        else
          (modify_guide (fun g =>
             set_MovementNSSP
               (mkSwitch (sw_s (MovementNSSP g))
                  (switch_on 1 (sw (MovementNSSP g)))) g) ;;
           MoveNS DIRECTION_SOUTH MOTION_START ;;
           ret true))) ;;
  if negb started then ret IPS_ALERT
  else
  slew_to_guiding ;;
  modify_guide (set_guide_direction_ns LX200_SOUTH) ;;
  id <- IEAddTimer (to_int32 ms) guideTimeoutHelperNS ;;
  modify_guide (set_GuideNSTID id) ;;
  ret IPS_BUSY.

Definition GuideEast (ms : Z) : M IPState :=
  pulse <- gets (fun st => usePulseCommand (guide st)) ;;
  busy <- MovementBusy ;;
  if pulse && busy then ret IPS_ALERT
  else
  stop_moving_WE ;;
  cancel_timer_WE ;;
  started <-
    (if pulse then (SendPulseCmd LX200_EAST ms ;; ret true)
     else
       (ok <- setSlewMode LX200_SLEW_GUIDE ;;
        if negb ok then (slew_mode_alert ;; ret false)
        else
          (modify_guide (fun g =>
             set_MovementWESP
               (mkSwitch (sw_s (MovementWESP g))
                  (switch_on 1 (sw (MovementWESP g)))) g) ;;
           MoveWE DIRECTION_EAST MOTION_START ;;
           ret true))) ;;
  if negb started then ret IPS_ALERT
  else
  slew_to_guiding ;;
  modify_guide (set_guide_direction_we LX200_EAST) ;;
  id <- IEAddTimer (to_int32 ms) guideTimeoutHelperWE ;;
  modify_guide (set_GuideWETID id) ;;
  ret IPS_BUSY.

Definition GuideWest (ms : Z) : M IPState :=
  pulse <- gets (fun st => usePulseCommand (guide st)) ;;
  busy <- MovementBusy ;;
  if pulse && busy then ret IPS_ALERT
  else
  stop_moving_WE ;;
  cancel_timer_WE ;;
  started <-
    (if pulse then (SendPulseCmd LX200_WEST ms ;; ret true)
     else
       (ok <- setSlewMode LX200_SLEW_GUIDE ;;
        if negb ok then (slew_mode_alert ;; ret false)
        else
          (modify_guide (fun g =>
             set_MovementWESP
               (mkSwitch (sw_s (MovementWESP g))
                  (switch_on 0 (sw (MovementWESP g)))) g) ;;
           MoveWE DIRECTION_WEST MOTION_START ;;
           ret true))) ;;
  if negb started then ret IPS_ALERT
  else
  slew_to_guiding ;;
  modify_guide (set_guide_direction_we LX200_WEST) ;;
  id <- IEAddTimer (to_int32 ms) guideTimeoutHelperWE ;;
  modify_guide (set_GuideWETID id) ;;
  ret IPS_BUSY.

End Driver.
End StarGo.

(* ===================================================================== *)
(** ** Vocabulary of the statements, and sample data *)
(* ===================================================================== *)

Import CLib Tty StarGo.

(** A section as [receive] hands it to the caller. *)
Definition frame_of (end_ : ascii) (payload : string) : string :=
  drop_final_hash (payload ++ String end_ EmptyString).

(** The frames [ParseMotionState] accepts. *)
Definition is_telegram (frame : string) : bool :=
  match sscanf frame ":Z1%01d%01d%01d" with
  | (3, [VInt _; VInt _; VInt _]) => true
  | _ => false
  end.

(** Telegrams and replies of a list of payloads read with stop character
    [end_]. *)
Definition all_telegrams (end_ : ascii) (q : list (Z * string)) : Prop :=
  Forall (fun it => is_telegram (frame_of end_ (snd it)) = true) q.

(** [ParseMotionState] applied to each frame in turn. *)
Fixpoint absorb (frames : list string) (st : Driver) : Driver :=
  match frames with
  | [] => st
  | frame :: frames' => absorb frames' (snd (ParseMotionState frame st))
  end.

(** The sections at the head of the queue that a reader waiting [wait]
    seconds obtains, and the queue beyond them. *)
Fixpoint ready (wait : Z) (q : list (Z * string)) : list string :=
  match q with
  | (delay, payload) :: q' =>
      if delay <=? wait then payload :: ready wait q' else []
  | [] => []
  end.

Fixpoint unready (wait : Z) (q : list (Z * string)) : list (Z * string) :=
  match q with
  | (delay, payload) :: q' =>
      if delay <=? wait then unready wait q' else q
  | [] => []
  end.

(** The trace of reading the payloads [l] one after the other. *)
Definition reads (end_ : ascii) (wait : Z) (l : list string)
  : list IOEvent :=
  map (fun payload =>
         IORead end_ wait (Some (payload ++ String end_ EmptyString))) l.

(** What the next write brings about: [None] when it fails, otherwise the
    sections the mount emits in reaction. *)
Definition answer (p : Port) : option (list (Z * string)) :=
  match device p with
  | TxError :: _ => None
  | TxOk reaction :: _ => Some reaction
  | [] => Some []
  end.

(** The next write will succeed. *)
Definition line_up (p : Port) : bool :=
  match answer p with
  | Some _ => true
  | None => false
  end.

(** Every queued section is already buffered. *)
Definition buffered (q : list (Z * string)) : Prop :=
  Forall (fun it => fst it <= 0) q.

(** The motion telegram [:Z1<motor><mode><slew>]. *)
Definition digit (n : Z) : ascii := ascii_of_N (Z.to_N (48 + n)).

Definition telegram (lmotor lmode lslew : Z) : string :=
  ":Z1" ++ String (digit lmotor) (String (digit lmode)
             (String (digit lslew) EmptyString)).

(** What the telegram [:Z1abc] does to the motion state, as
    the three switches of [ParseMotionState] write it: the motor state from
    [a]; the tracking mode from [b], where 0 names no mode and leaves it;
    the slew rate from [c]; a digit above 3 names nothing and leaves its
    field. *)
Definition motion_after (t : Z * Z * Z) (m : MotionState) : MotionState :=
  let '(a, b, c) := t in
  mkMotion
    match a with
    | 0 => MOTORS_OFF
    | 1 => MOTORS_DEC_ONLY
    | 2 => MOTORS_RA_ONLY
    | 3 => MOTORS_ON
    | _ => CurrentMotorsState m
    end
    match b with
    | 1 => TRACK_LUNAR
    | 2 => TRACK_SOLAR
    | 3 => TRACK_SIDEREAL
    | _ => CurrentTrackMode m
    end
    match c with
    | 0 => SLEW_GUIDE
    | 1 => SLEW_CENTERING
    | 2 => SLEW_FIND
    | 3 => SLEW_MAX
    | _ => CurrentSlewRate m
    end.

(** The telegrams of a list applied to the driver one after the other,
    each once. *)
Definition apply_telegrams (ts : list (Z * Z * Z)) (st : Driver) : Driver :=
  fold_left (fun s t => with_motion (motion_after t (motion s)) s) ts st.

Definition telegram_of (t : Z * Z * Z) : string :=
  let '(a, b, c) := t in telegram a b c.

Definition telegram_digits (t : Z * Z * Z) : Prop :=
  let '(a, b, c) := t in 0 <= a <= 9 /\ 0 <= b <= 9 /\ 0 <= c <= 9.

(** Telegrams on the line: each with the delay after which it arrives. *)
Definition telegram_sections (tels : list (Z * (Z * Z * Z)))
  : list (Z * string) :=
  map (fun it => (fst it, telegram_of (snd it))) tels.

Module Sample.

(** [rint]: round to the nearest integer, ties to even. *)
Definition rint (x : float) : Z :=
  match Prim2SF x with
  | S754_finite s m e =>
      let a :=
        if 0 <=? e then Z.pos m * 2 ^ e
        else
          let k := 2 ^ (- e) in
          let q := Z.pos m / k in
          let r := Z.pos m mod k in
          if 2 * r <? k then q
          else if k <? 2 * r then q + 1
          else if Z.even q then q else q + 1 in
      if s then - a else a
  | _ => 0
  end.

(** A sexagesimal splitter in the manner of the host library's
    [getSexComponents]: degrees carry the sign, minutes and seconds are
    taken from the absolute value. *)
Definition sexagesimal (value : float) : Z * Z * Z :=
  let a := PrimFloat.abs value in
  let d := double_to_int a in
  let f := PrimFloat.mul (PrimFloat.sub a (Z2double d)) 60 in
  let m := double_to_int f in
  let s := rint (PrimFloat.mul (PrimFloat.sub f (Z2double m)) 60) in
  let '(m, s) := if s =? 60 then (m + 1, 0) else (m, s) in
  let '(d, m) := if m =? 60 then (d + 1, 0) else (d, m) in
  (if PrimFloat.ltb value 0 then - d else d, m, s).

#[export] Instance host : Host := {|
  AVALON_TIMEOUT := 2;
  getSexComponents := sexagesimal;
  mountSim := fun st => st;
  ReadFocuserStatus := fun st => (true, st);
  indeterminate_char := "000"%char
|}.

(** A connected, unparked, tracking mount on a given line. *)
Definition mount (inbox : list (Z * string)) (device : list TxOutcome)
  : Driver :=
  mkDriver (mkPort inbox device [])
    (mkMotion MOTORS_OFF TRACK_SIDEREAL SLEW_MAX)
    (mkScope SCOPE_TRACKING false IPS_IDLE (mkNumber IPS_IDLE 0) 0 0
       (0%float, 0%float) PIER_UNKNOWN)
    (mkGuide true
       (mkSwitch IPS_IDLE [ISS_OFF; ISS_OFF])
       (mkSwitch IPS_IDLE [ISS_OFF; ISS_OFF])
       (mkSwitch IPS_IDLE [ISS_OFF; ISS_OFF; ISS_OFF; ISS_ON])
       0 0 LX200_NORTH LX200_WEST [] 1)
    true false false [].

(** The same mount while the user slews it north by hand. *)
Definition moving_north : Driver :=
  with_guide
    (set_MovementNSSP (mkSwitch IPS_BUSY [ISS_ON; ISS_OFF])
       (guide (mount [] []))) (mount [] []).

End Sample.

(* ===================================================================== *)
(** ** The rest of the command catalogue *)
(* ===================================================================== *)

#[local] Open Scope driver_scope.

(** The coordinate formats [checkLX200EquatorialFormat] tells apart. *)
Inductive LX200Format : Type :=
  LX200_SHORT_FORMAT | LX200_LONG_FORMAT | LX200_LONGER_FORMAT.

(** How a C++ call ends: by returning, or by the [std::out_of_range] that
    [std::string::append (str, pos, len)] throws when [pos] is beyond the
    end of [str]. *)
Inductive Ending (A : Type) : Type :=
| Returns (a : A)
| Throws_out_of_range.
Arguments Returns {A} a.
Arguments Throws_out_of_range {A}.

(** The two guide number vectors [Abort] resets: state, and the two
    values of each. *)
Record GuideNP : Type := mkGuideNP {
  GuideNSNP_s : IPState;
  GuideNSN : float * float;
  GuideWENP_s : IPState;
  GuideWEN : float * float
}.

(** Sidereal time comes from the astronomy library. *)
Class Almanac : Type := {
  get_local_sidereal_time : float -> float
}.

Definition to_int16 (v : Z) : Z := (v + 2 ^ 15) mod 2 ^ 16 - 2 ^ 15.

(** [s[i]] of a C string: the terminating zero at its end. *)
Definition char_at (i : nat) (s : string) : ascii :=
  match String.get i s with
  | Some c => c
  | None => "000"%char
  end.

Section Catalog.
Context {host : Host} {almanac : Almanac}.

(** *** Handshake *)

Definition getScopeAlignmentStatus : M (option (ascii * bool * Z)) :=
  '(ok, response) <- sendQuery ":GW#" "#" AVALON_TIMEOUT ;;
  if negb ok then ret None
  else
    let '(returnCode, values) := sscanf response "%c%c%01d" in
    if returnCode <? 3 then ret None
    else
      match values with
      | [VChr mt; VChr tracking; VInt nr] =>
          ret (Some (mt, Ascii.eqb tracking "T", nr))
      | _ => ret None
      end.

Definition Handshake : M bool :=
  status <- getScopeAlignmentStatus ;;
  match status with
  | Some _ => ret true
  | None => ret false      (* Error communication with telescope. *)
  end.

(** *** Ports and speeds *)

Definition getST4Status : M (option bool) :=
  '(ok, response) <- sendQuery ":TTGFh#" "#" AVALON_TIMEOUT ;;
  if negb ok then ret None
  else
    let '(returnCode, values) := sscanf response "vh%01d" in
    let answer := match values with VInt a :: _ => a | _ => 0 end in
    if returnCode =? 0 then ret None
    else ret (Some (answer =? 1)).

Definition getKeypadStatus : M (option bool) :=
  '(ok, response) <- sendQuery ":TTGFr#" "#" AVALON_TIMEOUT ;;
  if negb ok then ret None
  else
    let '(returnCode, values) := sscanf response "vr%01d" in
    let answer := match values with VInt a :: _ => a | _ => 0 end in
    if returnCode =? 0 then ret None
    else ret (Some (answer =? 0)).

Definition setST4Enabled (enabled : bool) : M bool :=
  let cmd := if enabled then ":TTSFh#" else ":TTRFh#" in
  '(ok, _) <- sendQuery cmd "#" AVALON_TIMEOUT ;;
  ret ok.

Definition setKeyPadEnabled (enabled : bool) : M bool :=
  let cmd := if enabled then ":TTRFr#" else ":TTSFr#" in
  '(ok, _) <- sendQuery cmd "#" AVALON_TIMEOUT ;;
  ret ok.

Definition getSystemSlewSpeedMode : M (option Z) :=
  '(ok, response) <- sendQuery ":TTGMX#" "#" AVALON_TIMEOUT ;;
  if negb ok then ret None
  else
    let '(returnCode, values) := sscanf response "%02da%02d" in
    let xx := match values with VInt a :: _ => a | _ => 0 end in
    if returnCode =? 0 then ret None
    else
      match xx with
      | 6 => ret (Some 0)
      | 8 => ret (Some 1)
      | 9 => ret (Some 2)
      | 12 => ret (Some 3)
      | _ => ret None
      end.

Definition setSystemSlewSpeedMode (index : Z) : M bool :=
  match
    match index with
    | 0 => Some "0606#"
    | 1 => Some "0808#"
    | 2 => Some "0909#"
    | 3 => Some "1212#"
    | _ => None
    end
  with
  | None => ret false     (* Unexpected system slew speed mode *)
  | Some suffix =>
      '(ok, _) <- sendQuery (":TTMX" ++ suffix) "#" AVALON_TIMEOUT ;;
      ret ok
  end.

(** [raSpeed] and [decSpeed] are the caller's variables; each keeps its
    value when nothing is stored into it. *)
Definition getGuidingSpeeds (raSpeed decSpeed : Z) : M (bool * (Z * Z)) :=
  '(ok, response) <- sendQuery ":X22#" "#" AVALON_TIMEOUT ;;
  if negb ok then ret (false, (raSpeed, decSpeed))
  else
    let '(returnCode, values) := sscanf response "%02db%2d" in
    let ra := match values with VInt a :: _ => a | _ => raSpeed end in
    let dec := match values with _ :: VInt b :: _ => b | _ => decSpeed end in
    if returnCode =? 0 then ret (false, (ra, dec))
    else ret (true, (ra, dec)).

Definition sleep_100ms : M unit :=
  modify (fun st => with_port (nanosleep (port st)) st).

Definition setGuidingSpeeds (raSpeed decSpeed : Z) : M bool :=
  '(ok, _) <- sendQuery (sprintf ":X20%2d#" [AInt raSpeed]) "#" 0 ;;
  if negb ok then ret false
  else
    (sleep_100ms ;;
     '(ok, _) <- sendQuery (sprintf ":X21%2d#" [AInt decSpeed]) "#" 0 ;;
     if negb ok then ret false else ret true).

(** *** Meridian flip mode *)

(** The second component is the state stored into [MeridianFlipModeSP]
    and published, which the function does in simulation only. *)
Definition SetMeridianFlipMode (index : Z) : M (bool * option IPState) :=
  isSimulation <- gets simulation ;;
  if isSimulation then ret (true, Some IPS_OK)
  else if 2 <? index then ret (false, None)
  else
    let enablecmd := if index =? 1 then ":TTSFs#" else ":TTRFs#" in
    let forcecmd := if index =? 2 then ":TTSFd#" else ":TTRFd#" in
    '(ok, _) <- sendQuery enablecmd "#" AVALON_TIMEOUT ;;
    if negb ok then ret (false, None)
    else
      ('(ok, _) <- sendQuery forcecmd "#" AVALON_TIMEOUT ;;
       if negb ok then ret (false, None) else ret (true, None)).

Definition GetMeridianFlipMode : M (option Z) :=
  '(ok, enableresp) <- sendQuery ":TTGFs#" "#" AVALON_TIMEOUT ;;
  if negb ok then ret None
  else
    ('(ok, forceresp) <- sendQuery ":TTGFd#" "#" AVALON_TIMEOUT ;;
     if negb ok then ret None
     else
       let '(returnCode, values) := sscanf enableresp "vs%01d" in
       let enable := match values with VInt a :: _ => a | _ => 0 end in
       if returnCode =? 0 then ret None
       else
         let '(returnCode, values) := sscanf forceresp "vd%01d" in
         let force := match values with VInt a :: _ => a | _ => 0 end in
         if returnCode =? 0 then ret None
         else if enable =? 1 then ret (Some 1)       (* disabled *)
         else if force =? 0 then ret (Some 0)        (* auto *)
         else ret (Some 2)).                         (* forced *)

(** *** Coordinate format *)

Definition low_precision (response : string) : bool :=
  (String.length response <=? 5)%nat || Ascii.eqb (char_at 5 response) ".".

(** The result is the [bool] returned and the value left in
    [controller_format]. *)
Definition checkLX200EquatorialFormat : M (bool * LX200Format) :=
  '(ok, response) <- sendQuery ":GR#" "#" AVALON_TIMEOUT ;;
  if negb ok then ret (false, LX200_LONG_FORMAT)
  else
    again <-
      (* If it's short format, try to toggle to high precision format *)
      (if low_precision response then
         ('(ok, response) <- sendQuery ":U#" "#" 0 ;;
          if negb ok then ret None
          else
            ('(ok, response) <- sendQuery ":GR#" "#" AVALON_TIMEOUT ;;
             if negb ok then ret None else ret (Some response)))
       else ret (Some response)) ;;
    match again with
    | None => ret (false, LX200_LONG_FORMAT)
    | Some response =>
        if low_precision response then ret (false, LX200_SHORT_FORMAT)
        else if (8 <? String.length response)%nat
                && Ascii.eqb (char_at 8 response) "."
        then ret (false, LX200_LONGER_FORMAT)
        else ret (false, LX200_LONG_FORMAT)
    end.

(** *** Firmware text *)

(** [firmwareInfo] is the caller's buffer. *)
Definition getFirmwareInfo (firmwareInfo : string)
  : M (Ending (bool * string)) :=
  '(ok, manufacturer) <- sendQuery ":GVP#" "#" AVALON_TIMEOUT ;;
  if negb ok then ret (Returns (false, firmwareInfo))
  else
    ('(ok, firmwareVersion) <- sendQuery ":GVN#" "#" AVALON_TIMEOUT ;;
     if negb ok then ret (Returns (false, firmwareInfo))
     else
       ('(ok, firmwareDate) <- sendQuery ":GVD#" "#" AVALON_TIMEOUT ;;
        if negb ok then ret (Returns (false, firmwareInfo))
        else
          let dateStr := firmwareDate in
          (* append(dateStr, 1, dateStr.length() - 1) *)
          if (String.length dateStr <? 1)%nat then ret Throws_out_of_range
          else
            let infoStr :=
              manufacturer ++ " - " ++ firmwareVersion ++ " - " ++
              substring 1 (String.length dateStr - 1) dateStr in
            ret (Returns (true, infoStr)))).

(** *** Home position *)

Definition setMountGotoHome : M bool :=
  '(ok, response) <- sendQuery ":X361#" "#" AVALON_TIMEOUT ;;
  if negb ok then ret false
  else if String.eqb response "pA" then ret true
  else ret false.

(** The vector's one switch is set from the request and switched off
    again before publishing; only the vector's state is kept here. *)
Definition slewToHome : M bool :=
  ok <- setMountGotoHome ;;
  (if ok then
     modify_scope (fun s =>
       set_TrackState SCOPE_SLEWING (set_MountGotoHomeSP IPS_BUSY s))
   else modify_scope (set_MountGotoHomeSP IPS_ALERT)) ;;
  published <- gets (fun st => MountGotoHomeSP (scope st)) ;;
  IDSet (MsgMountGotoHomeSP published) ;;
  ret true.

(** *** Park *)

Definition Park : M bool :=
  '(ok, response) <- sendQuery ":X362#" "#" AVALON_TIMEOUT ;;
  if ok && String.eqb response "pB" then
    (modify_scope (set_TrackState SCOPE_PARKING) ;; ret true)
  else ret false.

(** *** Abort *)

(** [np] holds the two guide number vectors; the last component tells
    whether they were published. *)
Definition Abort (np : GuideNP) : M (bool * GuideNP * bool) :=
  isSimulation <- gets simulation ;;
  sent <- (if isSimulation then ret true
           else ('(ok, _) <- sendQuery ":Q#" "#" 0 ;; ret ok)) ;;
  if negb sent then ret (false, np, false)
  else if IPState_eqb (GuideNSNP_s np) IPS_BUSY
          || IPState_eqb (GuideWENP_s np) IPS_BUSY
  then
    (cancel_timer_NS ;;
     id <- gets (fun st => GuideWETID (guide st)) ;;
     (if id =? 0 then ret tt
      else (IERmTimer id ;; modify_guide (set_GuideNSTID 0))) ;;
     ret (true,
          mkGuideNP IPS_IDLE (0%float, 0%float) IPS_IDLE (0%float, 0%float),
          true))
  else ret (true, np, false).

(** *** Site location *)

Definition setSiteLatitude (Lat : float) : M bool :=
  let '(d, m, s) := getSexComponents Lat in
  let command :=
    snprintf 32 ":St%+03d*%02d:%02d#" [AInt d; AInt m; AInt s] in
  '(ok, _) <- sendQuery command "#" AVALON_TIMEOUT ;;
  ret ok.

Definition setLocalSiderealTime (longitude : float) : M bool :=
  let lst := get_local_sidereal_time longitude in
  let '(h, m, s) := getSexComponents lst in
  let cmd :=
    sprintf ":X32%02hd%02hd%02hd#"
      [AInt (to_int16 h); AInt (to_int16 m); AInt (to_int16 s)] in
  '(ok, _) <- sendQuery cmd "#" AVALON_TIMEOUT ;;
  ret ok.

(** [elevation] is not used.  The two [fs_sexa] calls fill local buffers
    that are not read afterwards. *)
Definition updateLocation (latitude longitude elevation : float) : M bool :=
  isSimulation <- gets simulation ;;
  if isSimulation then ret true
  else
    (failed <-
       (isSimulation <- gets simulation ;;
        if negb isSimulation
        then (ok <- setSiteLongitude longitude ;; ret (negb ok))
        else ret false) ;;
     if failed then ret false     (* Error setting site longitude *)
     else
       (failed <-
          (isSimulation <- gets simulation ;;
           if negb isSimulation
           then (ok <- setSiteLatitude latitude ;; ret (negb ok))
           else ret false) ;;
        if failed then ret false  (* Error setting site latitude *)
        else
          (ok <- setLocalSiderealTime longitude ;;
           if negb ok then ret false else ret true))).

End Catalog.

(** *** Vocabulary of the catalogue's statements *)

(** A two-column decimal field as [%2d] prints it: the tens digit [a] is
    a blank when it is zero. *)
Definition blank_padded (a b : Z) : string :=
  String (if a =? 0 then " "%char else digit a)
    (String (digit b) EmptyString).

(** The commands that set ([:TTSF]) and reset ([:TTRF]) a flag of the
    mount, and the mount's report of a flag. *)
Definition flag_command (on : bool) (flag : ascii) : string :=
  ":TT" ++ (if on then "S" else "R") ++ "F" ++ String flag "#".

Definition flag_report (on : bool) (flag : ascii) : string :=
  "v" ++ String flag (if on then "1" else "0").

(** The identifier of a pending timer, and the identifier the driver
    holds for the axis the timer belongs to. *)
Definition timer_id (t : Z * Z * TimerCallback) : Z := fst (fst t).

Definition timer_owner (g : GuideState) (t : Z * Z * TimerCallback) : Z :=
  match snd t with
  | guideTimeoutHelperNS => GuideNSTID g
  | guideTimeoutHelperWE => GuideWETID g
  end.

(** Timer identifiers are positive, fresh and distinct, and every pending
    timer is the one its axis holds: at most one per axis. *)
Definition one_timer_per_axis (g : GuideState) : Prop :=
  0 < next_timer g /\
  NoDup (map timer_id (timers g)) /\
  Forall (fun t => 0 < timer_id t < next_timer g /\
                   timer_id t = timer_owner g t) (timers g).

(** No timer of the given axis is pending. *)
Definition axis_idle (callback : TimerCallback) (g : GuideState) : Prop :=
  Forall (fun t => snd t <> callback) (timers g).

(** The timers and the identifiers the driver holds are as before. *)
Definition keeps_timers (st st' : Driver) : Prop :=
  timers (guide st') = timers (guide st) /\
  next_timer (guide st') = next_timer (guide st) /\
  GuideNSTID (guide st') = GuideNSTID (guide st) /\
  GuideWETID (guide st') = GuideWETID (guide st).

(** A computation started where [P] holds ends where [Q] holds. *)
Definition ensures {A : Type} (P : Driver -> Prop) (c : M A)
  (Q : Driver -> Prop) : Prop :=
  forall st, P st -> Q (snd (c st)).

(** A stand-in for the astronomy library in the examples: the sidereal
    time is taken to be the longitude in hours. *)
Definition sample_almanac : Almanac :=
  {| get_local_sidereal_time := fun longitude => PrimFloat.div longitude 15 |}.

(** *** Doubles as integers, and the longitude command *)

(** The value of a finite double in units of 2^-1074, the spacing of the
    smallest doubles: always an integer. *)
Definition scaled (x : spec_float) : Z :=
  match x with
  | S754_finite s m e =>
      let a := Z.pos m * 2 ^ (e + 1074) in if s then - a else a
  | _ => 0
  end.

Definition spec_finite (x : spec_float) : bool :=
  match x with
  | S754_finite _ _ _ | S754_zero _ => true
  | _ => false
  end.

Definition double_finite (x : float) : bool := spec_finite (Prim2SF x).
Definition double_scaled (x : float) : Z := scaled (Prim2SF x).

(** [n] whole degrees in the same units. *)
Definition degrees (n : Z) : Z := n * 2 ^ 1074.

(** What [setSiteLongitude] adds to the longitude, in those units. *)
Definition longitude_shift (longitude : float) : Z :=
  if PrimFloat.ltb 180 longitude then degrees (-360)
  else if PrimFloat.ltb longitude (-180) then degrees 360
  else 0.

Definition two_digits (n : Z) : string :=
  String (digit (n / 10)) (String (digit (n mod 10)) EmptyString).

Definition three_digits (n : Z) : string :=
  String (digit (n / 100)) (two_digits (n mod 100)).

(** The longitude command as it reads on the line: [:Sg], a sign, three
    digits of degrees, [*], two digits of minutes, [:], two digits of
    seconds, [#]. *)
Definition longitude_command (negative : bool) (d m s : Z) : string :=
  ":Sg" ++ String (if negative then "-" else "+")%char
    (three_digits d ++ "*" ++ two_digits m ++ ":" ++ two_digits s ++ "#").

(** What the driver relies on when it hands a longitude between -180 and
    180 to the host library's [getSexComponents]: minutes and seconds are
    below 60 and not negative, and the degrees carry the sign of a value
    that is at most -1 or at least 0.  (Between -1 and 0 the library's
    degrees are 0, and nothing is asked of them here.) *)
Definition splits_as (value : float) (d m s : Z) : Prop :=
  -180 <= d <= 180 /\ 0 <= m < 60 /\ 0 <= s < 60 /\
  (PrimFloat.leb value (-1) = true -> d < 0) /\
  (PrimFloat.leb 0 value = true -> 0 <= d).

(** *** The steps of a poll cycle *)

(** The park and motor evaluation of [ReadScopeStatus] taken on its own
    (lines 542 to 575): what it returns is the local [newTrackState]. *)
Definition evaluate_parking (x y : Z) (parkHomeStatus : string)
  : M TelescopeStatus :=
  oldTrackState <- gets (fun st => TrackState (scope st)) ;;
  (if String.eqb parkHomeStatus "2" then
     ((if TelescopeStatus_eqb oldTrackState SCOPE_PARKED then ret tt
       else SetParked true) ;;
      ret SCOPE_PARKED)
   else
     ((if TelescopeStatus_eqb oldTrackState SCOPE_PARKED
       then SetParked false else ret tt) ;;
      if (x =? 0) && (y =? 0) then
        (gotoHome <- gets (fun st => MountGotoHomeSP (scope st)) ;;
         (if IPState_eqb gotoHome IPS_BUSY then
            (modify_scope (set_MountGotoHomeSP IPS_OK) ;;
             IDSet (MsgMountGotoHomeSP IPS_OK))
          else ret tt) ;;
         ret SCOPE_IDLE)
      else if (x =? 1) && (y =? 0) then ret SCOPE_TRACKING
      else ret oldTrackState)).

(** The next step of the cycle (lines 577 to 586): the adjustment just
    fetched is stored, or the stored one marked as alert when fetching
    failed, and the vector is sent to the clients. *)
Definition publish_adjustment (adjustment : option float) : M unit :=
  match adjustment with
  | Some raCorrection =>
      modify_scope (set_TrackingAdjustmentNP (mkNumber IPS_OK raCorrection))
  | None =>
      modify_scope (fun s =>
        set_TrackingAdjustmentNP
          (mkNumber IPS_ALERT (nv_value (TrackingAdjustmentNP s))) s)
  end ;;
  published <- gets (fun st => TrackingAdjustmentNP (scope st)) ;;
  IDSet (MsgTrackingAdjustmentNP published).

(** The motor status was read as [(x, y)], at the first attempt or at the
    one retry, leaving the driver in [sa]. *)
Definition motor_status_read {host : Host} (st : Driver) (x y : Z) (sa : Driver) : Prop :=
  getMotorStatus st = (Some (x, y), sa) \/
  exists s0, getMotorStatus st = (None, s0) /\
             getMotorStatus s0 = (Some (x, y), sa).

(** Park code 2: the mount reports itself parked. *)
Definition parks (parkHomeStatus : string) : bool :=
  String.eqb parkHomeStatus "2".

Definition was_parked (st : Driver) : bool :=
  TelescopeStatus_eqb (TrackState (scope st)) SCOPE_PARKED.

(** Both motors stopped on an unparked mount while a goto-home was in
    progress. *)
Definition completes_goto_home (x y : Z) (parkHomeStatus : string)
  (st : Driver) : bool :=
  negb (parks parkHomeStatus) && ((x =? 0) && (y =? 0)) &&
  IPState_eqb (MountGotoHomeSP (scope st)) IPS_BUSY.

(** A computation keeps a relation between the state before and after. *)
Definition preserves {A : Type} (R : Driver -> Driver -> Prop) (c : M A)
  : Prop :=
  forall st, R st (snd (c st)).

(** Only the line and the telegram fields may differ. *)
Definition io_only (st st' : Driver) : Prop :=
  scope st' = scope st /\ guide st' = guide st /\
  connected st' = connected st /\ simulation st' = simulation st /\
  focuserAux1 st' = focuserAux1 st /\ client st' = client st.

(** Nothing was written, and the mount's script is where it was. *)
Definition quiet (st st' : Driver) : Prop :=
  device (port st') = device (port st) /\
  written (trace (port st')) = written (trace (port st)).

(** Coordinates and pier side are as before. *)
Definition keeps_position (st st' : Driver) : Prop :=
  currentRA (scope st') = currentRA (scope st) /\
  currentDEC (scope st') = currentDEC (scope st) /\
  EqN (scope st') = EqN (scope st) /\
  currentPierSide (scope st') = currentPierSide (scope st).

(* ===================================================================== *)
(** ** Properties *)
(* ===================================================================== *)

#[local] Open Scope driver_scope.
#[local] Open Scope list_scope.

Ltac break_match :=
  repeat match goal with
         | |- context [match ?x with _ => _ end] => destruct x
         end.

Ltac preorder_by_rewriting :=
  split;
  [ intros st; repeat split
  | intros a b c Hab Hbc;
    repeat match goal with H : _ /\ _ |- _ => destruct H end;
    repeat split; congruence ].

#[export] Instance io_only_preorder : PreOrder io_only.
Proof. unfold io_only. preorder_by_rewriting. Qed.

#[export] Instance quiet_preorder : PreOrder quiet.
Proof. unfold quiet. preorder_by_rewriting. Qed.

#[export] Instance keeps_position_preorder : PreOrder keeps_position.
Proof. unfold keeps_position. preorder_by_rewriting. Qed.

Lemma io_only_keeps_position (st st' : Driver) :
  io_only st st' -> keeps_position st st'.
Proof.
  intros (Hs & _). unfold keeps_position. rewrite Hs. repeat split.
Qed.

Section Hoare.
Context (R : Driver -> Driver -> Prop) `{!PreOrder R}.

Lemma preserves_ret {A : Type} (a : A) : preserves R (ret a).
Proof. intros st. cbn. reflexivity. Qed.

Lemma preserves_gets {A : Type} (f : Driver -> A) : preserves R (gets f).
Proof. intros st. cbn. reflexivity. Qed.

Lemma preserves_bind {A B : Type} (c : M A) (k : A -> M B) :
  preserves R c -> (forall a, preserves R (k a)) -> preserves R (bind c k).
Proof.
  intros Hc Hk st. unfold bind.
  specialize (Hc st). destruct (c st) as [a st1]. cbn in Hc.
  transitivity st1; [exact Hc | apply Hk].
Qed.

Lemma preserves_modify (f : Driver -> Driver) :
  (forall st, R st (f st)) -> preserves R (modify f).
Proof. intros H st. apply H. Qed.
End Hoare.

Lemma written_app (a b : list IOEvent) :
  written (a ++ b) = written a ++ written b.
Proof.
  induction a as [|[ | |] a IH]; cbn; rewrite ?IH; reflexivity.
Qed.

(** *** The telegram parser *)

Lemma ParseMotionState_accepts (frame : string) (st : Driver) :
  fst (ParseMotionState frame st) = is_telegram frame.
Proof.
  unfold ParseMotionState, is_telegram.
  destruct (sscanf frame _) as [n values]. break_match; reflexivity.
Qed.

Lemma ParseMotionState_rejects (frame : string) (st : Driver) :
  is_telegram frame = false -> ParseMotionState frame st = (false, st).
Proof.
  unfold ParseMotionState, is_telegram.
  destruct (sscanf frame _) as [n values].
  break_match; intros H; try reflexivity; discriminate H.
Qed.

Lemma ParseMotionState_with_port (frame : string) (p : Port) (st : Driver) :
  ParseMotionState frame (with_port p st) =
  (fst (ParseMotionState frame st),
   with_port p (snd (ParseMotionState frame st))).
Proof.
  unfold ParseMotionState.
  destruct (sscanf frame _) as [n values]. break_match; reflexivity.
Qed.

Lemma ParseMotionState_port (frame : string) (st : Driver) :
  port (snd (ParseMotionState frame st)) = port st.
Proof.
  unfold ParseMotionState.
  destruct (sscanf frame _) as [n values]. break_match; reflexivity.
Qed.

Lemma ParseMotionState_io_only (frame : string) :
  preserves io_only (ParseMotionState frame).
Proof.
  intros st. unfold ParseMotionState, io_only.
  destruct (sscanf frame _) as [n values].
  break_match; cbn; repeat split.
Qed.

Lemma ParseMotionState_quiet (frame : string) :
  preserves quiet (ParseMotionState frame).
Proof.
  intros st. unfold quiet. rewrite ParseMotionState_port. split; reflexivity.
Qed.

Lemma absorb_cons (f : string) (frames : list string) (st : Driver) :
  absorb (f :: frames) st = absorb frames (snd (ParseMotionState f st)).
Proof. cbn [absorb]. reflexivity. Qed.

Lemma absorb_with_port (frames : list string) (p : Port) (st : Driver) :
  absorb frames (with_port p st) = with_port p (absorb frames st).
Proof.
  revert st. induction frames as [|f frames IH]; intros st.
  - reflexivity.
  - rewrite !absorb_cons, ParseMotionState_with_port. cbn [snd]. apply IH.
Qed.

Lemma absorb_app (a b : list string) (st : Driver) :
  absorb (a ++ b) st = absorb b (absorb a st).
Proof.
  revert st. induction a as [|f a IH]; intros st.
  - reflexivity.
  - cbn [app]. rewrite !absorb_cons. apply IH.
Qed.

Lemma absorb_port (frames : list string) (st : Driver) :
  port (absorb frames st) = port st.
Proof.
  revert st. induction frames as [|f frames IH]; intros st.
  - reflexivity.
  - rewrite absorb_cons, IH. apply ParseMotionState_port.
Qed.

(** *** The transport helpers *)

Lemma receive_ready (st : Driver) (e : ascii) (w d : Z) (payload : string)
  (q : list (Z * string)) :
  inbox (port st) = (d, payload) :: q -> d <= w ->
  receive e w st =
  ((true, frame_of e payload),
   with_port
     (mkPort q (device (port st))
        (trace (port st) ++
         [IORead e w (Some (payload ++ String e EmptyString)%string)])) st).
Proof.
  intros Hq Hd. unfold receive, tty_read_section. rewrite Hq.
  apply Z.leb_le in Hd. rewrite Hd. reflexivity.
Qed.

Lemma receive_late (st : Driver) (e : ascii) (w d : Z) (payload : string)
  (q : list (Z * string)) :
  inbox (port st) = (d, payload) :: q -> w < d ->
  receive e w st =
  ((false, EmptyString),
   with_port
     (mkPort ((d - Z.max 0 w, payload) :: q) (device (port st))
        (trace (port st) ++ [IORead e w None])) st).
Proof.
  intros Hq Hd. unfold receive, tty_read_section. rewrite Hq.
  apply Z.leb_gt in Hd. rewrite Hd. reflexivity.
Qed.

Lemma receive_empty (st : Driver) (e : ascii) (w : Z) :
  inbox (port st) = [] ->
  receive e w st =
  ((false, EmptyString),
   with_port
     (mkPort [] (device (port st)) (trace (port st) ++ [IORead e w None]))
     st).
Proof.
  intros Hq. unfold receive, tty_read_section. rewrite Hq. reflexivity.
Qed.

Lemma receive_io_only (e : ascii) (w : Z) : preserves io_only (receive e w).
Proof.
  intros st. unfold receive.
  destruct (tty_read_section _ _ _) as [[rc buffer] p].
  destruct rc; cbn; repeat split.
Qed.

Lemma receive_quiet (e : ascii) (w : Z) : preserves quiet (receive e w).
Proof.
  intros st. unfold receive, tty_read_section, quiet.
  destruct (inbox (port st)) as [|[d payload] q];
    [|destruct (d <=? w)]; cbn;
    rewrite written_app; cbn; rewrite app_nil_r; split; reflexivity.
Qed.

Lemma transmit_ok (st : Driver) (cmd : string)
  (reaction : list (Z * string)) :
  answer (port st) = Some reaction ->
  transmit cmd st =
  (true,
   with_port
     (mkPort (inbox (port st) ++ reaction) (tl (device (port st)))
        (trace (port st) ++ [IOWrite cmd true])) st).
Proof.
  unfold answer, transmit, tty_write_string.
  destruct (device (port st)) as [|[|r] script]; intros H;
    inversion H; subst; cbn; rewrite ?app_nil_r; reflexivity.
Qed.

Lemma transmit_error (st : Driver) (cmd : string) :
  answer (port st) = None ->
  transmit cmd st =
  (false,
   with_port
     (mkPort (inbox (port st)) (tl (device (port st)))
        (trace (port st) ++ [IOWrite cmd false])) st).
Proof.
  unfold answer, transmit, tty_write_string.
  destruct (device (port st)) as [|[|r] script]; intros H;
    inversion H; reflexivity.
Qed.

Lemma transmit_io_only (cmd : string) : preserves io_only (transmit cmd).
Proof.
  intros st. unfold transmit.
  destruct (tty_write_string _ _) as [rc p]. destruct rc; cbn; repeat split.
Qed.

Lemma mount_request_delay_io_only : preserves io_only mount_request_delay.
Proof. intros st. cbn. repeat split. Qed.

(** *** The two loops of the query engine *)

Lemma drain_preserves (R : Driver -> Driver -> Prop) `{!PreOrder R} :
  (forall e w, preserves R (receive e w)) ->
  (forall frame, preserves R (ParseMotionState frame)) ->
  forall n, preserves R (drain n).
Proof.
  intros Hr Hp. induction n as [|n IH]; cbn [drain].
  - apply preserves_ret; assumption.
  - apply preserves_bind; [assumption | apply Hr |].
    intros [ok lresponse]. destruct ok.
    + apply preserves_bind; [assumption | apply Hp | intros _; exact IH].
    + apply preserves_ret; assumption.
Qed.

Lemma read_reply_preserves (R : Driver -> Driver -> Prop) `{!PreOrder R} :
  (forall e w, preserves R (receive e w)) ->
  (forall frame, preserves R (ParseMotionState frame)) ->
  forall n e w found response,
    preserves R (read_reply n e w found response).
Proof.
  intros Hr Hp. induction n as [|n IH]; intros e w found response;
    cbn [read_reply].
  - apply preserves_ret; assumption.
  - apply preserves_bind; [assumption | apply Hr |].
    intros [ok lresponse]. destruct ok.
    + apply preserves_bind; [assumption | apply Hp |].
      intros telegram. destruct telegram; cbn [negb]; apply IH.
    + apply preserves_ret; assumption.
Qed.

(** The first loop reads every buffered section, whatever it is, and ends
    on the first read that times out. *)
Lemma drain_spec (q : list (Z * string)) :
  forall (st : Driver) (n : nat),
    inbox (port st) = q -> (List.length q < n)%nat ->
    drain n st =
    (tt,
     with_port
       (mkPort (unready 0 q) (device (port st))
          (trace (port st) ++ reads "#" 0 (ready 0 q) ++
           [IORead "#" 0 None]))
       (absorb (map (frame_of "#") (ready 0 q)) st)).
Proof.
  induction q as [|[d payload] q IH]; intros st n Hq Hn;
    (destruct n as [|n]; [cbn in Hn; lia|]); cbn [drain]; unfold bind.
  - rewrite (receive_empty _ _ _ Hq). reflexivity.
  - cbn [ready unready]. destruct (Z.leb_spec d 0) as [Hd|Hd].
    + rewrite (receive_ready _ _ _ _ _ _ Hq Hd).
      rewrite ParseMotionState_with_port.
      cbn [fst snd]. rewrite IH; [| reflexivity | cbn in Hn; lia].
      rewrite absorb_with_port. unfold with_port.
      cbn [port device trace inbox map reads].
      rewrite <- app_assoc. reflexivity.
    + rewrite (receive_late _ _ _ _ _ _ Hq Hd).
      cbn. rewrite Z.sub_0_r. reflexivity.
Qed.

(** Once a reply has been found the second loop reads with zero wait: it
    takes what is buffered and leaves the rest on the line. *)
Lemma read_reply_tail (e : ascii) (response : string)
  (q : list (Z * string)) :
  forall (st : Driver) (n : nat),
    inbox (port st) = q -> (List.length q < n)%nat ->
    read_reply n e 0 true response st =
    (response,
     with_port
       (mkPort (unready 0 q) (device (port st))
          (trace (port st) ++ reads e 0 (ready 0 q) ++ [IORead e 0 None]))
       (absorb (map (frame_of e) (ready 0 q)) st)).
Proof.
  induction q as [|[d payload] q IH]; intros st n Hq Hn;
    (destruct n as [|n]; [cbn in Hn; lia|]); cbn [read_reply]; unfold bind.
  - rewrite (receive_empty _ _ _ Hq). reflexivity.
  - cbn [ready unready]. destruct (Z.leb_spec d 0) as [Hd|Hd].
    + rewrite (receive_ready _ _ _ _ _ _ Hq Hd).
      rewrite ParseMotionState_with_port.
      assert (Hrec :
        read_reply n e 0 true response
          (with_port
             (mkPort q (device (port st))
                (trace (port st) ++
                 [IORead e 0 (Some (payload ++ String e EmptyString)%string)]))
             (snd (ParseMotionState (frame_of e payload) st))) =
        (response,
         with_port
           (mkPort (unready 0 q) (device (port st))
              (trace (port st) ++
               reads e 0 (payload :: ready 0 q) ++ [IORead e 0 None]))
           (absorb (map (frame_of e) (payload :: ready 0 q)) st))).
      { rewrite IH; [| reflexivity | cbn in Hn; lia].
        rewrite absorb_with_port. unfold with_port.
        cbn [port device trace inbox map reads].
        rewrite <- app_assoc. reflexivity. }
      destruct (fst (ParseMotionState (frame_of e payload) st));
        cbn [negb]; exact Hrec.
    + rewrite (receive_late _ _ _ _ _ _ Hq Hd).
      cbn. rewrite Z.sub_0_r. reflexivity.
Qed.

(** Telegrams that arrive within the wait budget are applied one by one;
    the first section that is not a telegram is the reply. *)
Lemma read_reply_spec (e : ascii) (w dr : Z) (reply : string)
  (rest : list (Z * string)) (tels : list (Z * string)) :
  forall (st : Driver) (n : nat),
    inbox (port st) = tels ++ (dr, reply) :: rest ->
    (List.length (tels ++ (dr, reply) :: rest) < n)%nat ->
    Forall (fun it => fst it <= w) tels ->
    all_telegrams e tels ->
    dr <= w ->
    is_telegram (frame_of e reply) = false ->
    read_reply n e w false EmptyString st =
    (frame_of e reply,
     with_port
       (mkPort (unready 0 rest) (device (port st))
          (trace (port st) ++ reads e w (map snd tels) ++
           [IORead e w (Some (reply ++ String e EmptyString)%string)] ++
           reads e 0 (ready 0 rest) ++ [IORead e 0 None]))
       (absorb
          (map (frame_of e) (map snd tels) ++
           map (frame_of e) (ready 0 rest)) st)).
Proof.
  induction tels as [|[d payload] tels IH];
    intros st n Hq Hn Hw Ht Hdr Hreply;
    (destruct n as [|n]; [cbn in Hn; lia|]); cbn [read_reply]; unfold bind.
  - cbn [app] in Hq. rewrite (receive_ready _ _ _ _ _ _ Hq Hdr).
    rewrite ParseMotionState_with_port.
    rewrite (ParseMotionState_rejects _ _ Hreply). cbn [fst snd negb].
    rewrite read_reply_tail with (q := rest);
      [| reflexivity | cbn in Hn; lia].
    rewrite absorb_with_port. unfold with_port.
    cbn [port device trace inbox map reads app].
    rewrite <- app_assoc. reflexivity.
  - cbn [app] in Hq. inversion Hw as [|? ? Hd Hw']; subst.
    inversion Ht as [|? ? Htel Ht']; subst. cbn [fst snd] in Hd, Htel.
    rewrite (receive_ready _ _ _ _ _ _ Hq Hd).
    rewrite ParseMotionState_with_port.
    rewrite ParseMotionState_accepts, Htel. cbn [fst snd negb].
    rewrite IH; [| reflexivity | cbn in Hn |- *; lia | assumption ..].
    rewrite absorb_with_port. unfold with_port.
    cbn [port device trace inbox map reads app].
    rewrite <- app_assoc. reflexivity.
Qed.

(** When only telegrams are on the line the caller's buffer stays empty. *)
Lemma read_reply_only_telegrams (e : ascii) (w : Z) :
  forall (n : nat) (st : Driver),
    all_telegrams e (inbox (port st)) ->
    fst (read_reply n e w false EmptyString st) = EmptyString.
Proof.
  induction n as [|n IH]; intros st Ht; cbn [read_reply]; unfold bind.
  - reflexivity.
  - destruct (inbox (port st)) as [|[d payload] q] eqn:Hq.
    + rewrite (receive_empty _ _ _ Hq). reflexivity.
    + destruct (Z.le_gt_cases d w) as [Hd|Hd].
      * rewrite (receive_ready _ _ _ _ _ _ Hq Hd).
        inversion Ht as [|? ? Htel Ht']; subst. cbn [snd] in Htel.
        rewrite ParseMotionState_with_port.
        rewrite ParseMotionState_accepts, Htel. cbn [fst snd negb].
        apply IH. exact Ht'.
      * rewrite (receive_late _ _ _ _ _ _ Hq Hd). reflexivity.
Qed.

(** Both loops end by themselves: a read either fails, which leaves the
    loop, or takes a section off the queue.  Any fuel above the length of
    the queue gives the same run, so the bound [pending] is never what
    stops them. *)
Lemma drain_fuel :
  forall (n m : nat) (st : Driver),
    (List.length (inbox (port st)) < n)%nat ->
    (List.length (inbox (port st)) < m)%nat ->
    drain n st = drain m st.
Proof.
  intros n m st Hn Hm.
  rewrite (drain_spec (inbox (port st)) st n eq_refl Hn).
  rewrite (drain_spec (inbox (port st)) st m eq_refl Hm).
  reflexivity.
Qed.

Lemma read_reply_fuel (e : ascii) :
  forall (n m : nat) (w : Z) (found : bool) (response : string)
         (st : Driver),
    (List.length (inbox (port st)) < n)%nat ->
    (List.length (inbox (port st)) < m)%nat ->
    read_reply n e w found response st = read_reply m e w found response st.
Proof.
  induction n as [|n IH]; intros m w found response st Hn Hm; [lia|].
  destruct m as [|m]; [lia|]. cbn [read_reply]. unfold bind.
  destruct (inbox (port st)) as [|[d payload] q] eqn:Hq.
  - rewrite (receive_empty _ _ _ Hq). reflexivity.
  - destruct (Z.le_gt_cases d w) as [Hd|Hd].
    + rewrite (receive_ready _ _ _ _ _ _ Hq Hd).
      rewrite ParseMotionState_with_port. cbn [fst snd].
      cbn [List.length] in Hn, Hm.
      destruct (fst (ParseMotionState (frame_of e payload) st));
        cbn [negb]; apply IH; cbn [port with_port inbox]; lia.
    + rewrite (receive_late _ _ _ _ _ _ Hq Hd). reflexivity.
Qed.

(** *** [sendQuery] as a whole *)

Lemma sendQuery_unfold (cmd : string) (e : ascii) (w : Z) (st : Driver) :
  sendQuery cmd e w st =
  let st1 := snd (drain (pending st) st) in
  let st2 := snd (transmit cmd st1) in
  if fst (transmit cmd st1) then
    let r := read_reply (pending st2) e w false EmptyString st2 in
    ((true, fst r), snd (mount_request_delay (snd r)))
  else ((false, EmptyString), snd (mount_request_delay st2)).
Proof.
  unfold sendQuery, bind, gets, flush, ret.
  destruct (drain (pending st) st) as [[] st1]. cbn [snd].
  destruct (transmit cmd st1) as [[] st2]; cbn [negb fst snd].
  - destruct (read_reply _ _ _ _ _ _) as [response st3]. reflexivity.
  - reflexivity.
Qed.

Lemma sendQuery_io_only (cmd : string) (e : ascii) (w : Z) :
  preserves io_only (sendQuery cmd e w).
Proof.
  unfold sendQuery.
  repeat first
    [ apply preserves_bind; [typeclasses eauto | | intros ?]
    | apply preserves_gets; typeclasses eauto
    | apply preserves_ret; typeclasses eauto
    | apply drain_preserves;
        [typeclasses eauto | apply receive_io_only
        | apply ParseMotionState_io_only]
    | apply read_reply_preserves;
        [typeclasses eauto | apply receive_io_only
        | apply ParseMotionState_io_only]
    | apply transmit_io_only
    | apply mount_request_delay_io_only
    | match goal with |- preserves _ (if negb ?b then _ else _) =>
        destruct b; cbn [negb] end ].
Qed.

Lemma drain_quiet (n : nat) : preserves quiet (drain n).
Proof.
  apply drain_preserves;
    [typeclasses eauto | apply receive_quiet | apply ParseMotionState_quiet].
Qed.

Lemma read_reply_quiet (n : nat) (e : ascii) (w : Z) (found : bool)
  (response : string) :
  preserves quiet (read_reply n e w found response).
Proof.
  apply read_reply_preserves;
    [typeclasses eauto | apply receive_quiet | apply ParseMotionState_quiet].
Qed.

Lemma drain_answer (n : nat) (st : Driver) :
  answer (port (snd (drain n st))) = answer (port st).
Proof. unfold answer. destruct (drain_quiet n st) as [-> _]. reflexivity. Qed.

(** [sendQuery] reports failure exactly when the write fails. *)
Lemma sendQuery_result (cmd : string) (e : ascii) (w : Z) (st : Driver) :
  fst (fst (sendQuery cmd e w st)) = line_up (port st).
Proof.
  rewrite sendQuery_unfold. cbv zeta. unfold line_up.
  rewrite <- (drain_answer (pending st) st).
  destruct (answer (port (snd (drain (pending st) st)))) as [r|] eqn:Ha.
  - rewrite (transmit_ok _ _ _ Ha). reflexivity.
  - rewrite (transmit_error _ _ Ha). reflexivity.
Qed.

(** Each call writes its command once, whatever else happens. *)
Lemma sendQuery_written (cmd : string) (e : ascii) (w : Z) (st : Driver) :
  written (trace (port (snd (sendQuery cmd e w st)))) =
  written (trace (port st)) ++ [cmd].
Proof.
  rewrite sendQuery_unfold. cbv zeta.
  destruct (drain_quiet (pending st) st) as [_ Hw].
  set (st1 := snd (drain (pending st) st)) in *.
  assert (Ht : written (trace (port (snd (transmit cmd st1)))) =
               written (trace (port st)) ++ [cmd]).
  { rewrite <- Hw. destruct (answer (port st1)) as [r|] eqn:Ha.
    - rewrite (transmit_ok _ _ _ Ha). cbn. rewrite written_app. reflexivity.
    - rewrite (transmit_error _ _ Ha). cbn. rewrite written_app.
      reflexivity. }
  set (st2 := snd (transmit cmd st1)) in *.
  destruct (fst (transmit cmd st1));
    unfold mount_request_delay, modify, nanosleep;
    cbn [fst snd port with_port trace]; rewrite written_app.
  - destruct (read_reply_quiet (pending st2) e w false EmptyString st2)
      as [_ Hr].
    rewrite Hr, Ht. cbn. apply app_nil_r.
  - rewrite Ht. cbn. apply app_nil_r.
Qed.

Lemma buffered_ready (q : list (Z * string)) :
  buffered q -> ready 0 q = map snd q /\ unready 0 q = [].
Proof.
  induction 1 as [|[d payload] q Hd _ [IHr IHu]]; cbn.
  - split; reflexivity.
  - cbn in Hd. apply Z.leb_le in Hd. rewrite Hd, IHr, IHu.
    split; reflexivity.
Qed.

Lemma drain_buffered (st : Driver) :
  buffered (inbox (port st)) ->
  drain (pending st) st =
  (tt,
   with_port
     (mkPort [] (device (port st))
        (trace (port st) ++ reads "#" 0 (map snd (inbox (port st))) ++
         [IORead "#" 0 None]))
     (absorb (map (frame_of "#") (map snd (inbox (port st)))) st)).
Proof.
  intros Hb. destruct (buffered_ready _ Hb) as [Hr Hu].
  rewrite (drain_spec (inbox (port st)));
    [| reflexivity | unfold pending; lia].
  rewrite Hr, Hu. reflexivity.
Qed.

(** C3, as amended.  The loop that opens [sendQuery] reads
    [#]-terminated sections with zero wait and hands each one to
    [ParseMotionState], which applies it when it is a telegram and leaves
    the state alone when it is not.  Every buffered section is taken off
    the line in this way, telegram or not; the loop ends only with the
    first read that finds nothing buffered. *)
Theorem drain_takes_every_buffered_section (st : Driver) :
  drain (pending st) st =
  (tt,
   with_port
     (mkPort (unready 0 (inbox (port st))) (device (port st))
        (trace (port st) ++ reads "#" 0 (ready 0 (inbox (port st))) ++
         [IORead "#" 0 None]))
     (absorb (map (frame_of "#") (ready 0 (inbox (port st)))) st))
  /\ (forall frame st',
        is_telegram frame = false -> snd (ParseMotionState frame st') = st').
Proof.
  split.
  - apply drain_spec; [reflexivity | unfold pending; lia].
  - intros frame st' H. rewrite (ParseMotionState_rejects _ _ H).
    reflexivity.
Qed.

Lemma drain_takes_every_buffered_section_witness :
  let st := Sample.mount [(0, "pA"); (0, ":Z1112"); (2, "p0")]%string [] in
  is_telegram "pA" = false /\
  snd (ParseMotionState "pA" st) = st /\
  drain (pending st) st =
  (tt,
   with_port
     (mkPort [(2, "p0"%string)] []
        [IORead "#" 0 (Some "pA#"%string);
         IORead "#" 0 (Some ":Z1112#"%string); IORead "#" 0 None])
     (absorb ["pA"; ":Z1112"]%string st)).
Proof.
  cbv zeta.
  destruct (drain_takes_every_buffered_section
              (Sample.mount [(0, "pA"); (0, ":Z1112"); (2, "p0")]%string []))
    as [Hdrain Hskip].
  exact (conj eq_refl (conj (Hskip "pA"%string _ eq_refl) Hdrain)).
Defined.

(** C3 as stated fails: with the reply [p0] buffered in front of the
    telegram [:Z1303], draining does not stop at [p0]; it goes on to read
    the telegram and applies it. *)
Lemma drain_goes_past_a_reply :
  let st := Sample.mount [(0, "p0"); (0, ":Z1303")]%string [] in
  let st' := snd (drain (pending st) st) in
  is_telegram (frame_of "#" "p0") = false /\
  inbox (port st') = [] /\
  CurrentMotorsState (motion st) = MOTORS_OFF /\
  CurrentMotorsState (motion st') = MOTORS_ON /\
  trace (port st') =
    [IORead "#" 0 (Some "p0#"%string); IORead "#" 0 (Some ":Z1303#"%string);
     IORead "#" 0 None].
Proof. vm_compute. repeat split. Qed.

(** C1, as amended.  [sendQuery] has no time-out failure: it returns
    failure exactly when the write fails.  When the command is written
    and only telegrams (or nothing) follow, it returns success with an
    empty response. *)
Theorem sendQuery_succeeds_without_reply (cmd : string) (e : ascii)
  (wait : Z) :
  (forall st, fst (fst (sendQuery cmd e wait st)) = line_up (port st)) /\
  (forall st reaction,
     buffered (inbox (port st)) ->
     answer (port st) = Some reaction ->
     all_telegrams e reaction ->
     fst (sendQuery cmd e wait st) = (true, EmptyString)).
Proof.
  split; [apply sendQuery_result|].
  intros st reaction Hb Ha Ht.
  rewrite sendQuery_unfold. cbv zeta.
  rewrite (drain_buffered _ Hb). cbn [snd].
  match goal with |- context [transmit cmd ?s] => set (st1 := s) end.
  assert (Ha1 : answer (port st1) = Some reaction) by exact Ha.
  rewrite (transmit_ok _ _ _ Ha1). cbn [fst snd].
  rewrite read_reply_only_telegrams; [reflexivity | exact Ht].
Qed.

Lemma sendQuery_succeeds_without_reply_witness :
  let st := Sample.mount [(0, "pA")]%string
              [TxOk [(1, ":Z1112"); (3, ":Z1003")]%string] in
  buffered (inbox (port st)) /\
  all_telegrams "#" [(1, ":Z1112"); (3, ":Z1003")]%string /\
  fst (sendQuery ":X34#" "#" 2 st) = (true, EmptyString).
Proof.
  assert (Hb : buffered [(0, "pA"%string)])
    by (repeat constructor; cbn; lia).
  assert (Ht : all_telegrams "#" [(1, ":Z1112"); (3, ":Z1003")]%string)
    by (repeat constructor).
  refine (conj Hb (conj Ht _)).
  exact (proj2 (sendQuery_succeeds_without_reply ":X34#" "#" 2)
           (Sample.mount [(0, "pA")]%string
              [TxOk [(1, ":Z1112"); (3, ":Z1003")]%string])
           _ Hb eq_refl Ht).
Defined.

(** C1 as stated fails: the command is written, one telegram arrives and
    then nothing within the two seconds allowed, and the call returns
    success. *)
Lemma sendQuery_does_not_time_out :
  let st := Sample.mount [] [TxOk [(1, ":Z1112"%string)]] in
  fst (sendQuery ":X34#" "#" 2 st) = (true, EmptyString) /\
  trace (port (snd (sendQuery ":X34#" "#" 2 st))) =
    [IORead "#" 0 None; IOWrite ":X34#" true;
     IORead "#" 2 (Some ":Z1112#"%string); IORead "#" 2 None; IOSleep].
Proof. vm_compute. split; reflexivity. Qed.

(** When the mount answers the command with sections that
    [ParseMotionState] accepts, followed by one it does not, each arriving
    within the wait budget, [sendQuery] returns that section; the accepted
    ones have been handed to [ParseMotionState] in order; after the reply
    all reads use zero wait. *)
Lemma sendQuery_reply_among_sections (cmd : string) (e : ascii) (wait : Z)
  (st : Driver) (tels : list (Z * string)) (dr : Z) (reply : string)
  (rest : list (Z * string)) :
  buffered (inbox (port st)) ->
  answer (port st) = Some (tels ++ (dr, reply) :: rest) ->
  Forall (fun it => fst it <= wait) tels ->
  all_telegrams e tels ->
  dr <= wait ->
  is_telegram (frame_of e reply) = false ->
  sendQuery cmd e wait st =
  ((true, frame_of e reply),
   with_port
     (mkPort (unready 0 rest) (tl (device (port st)))
        (trace (port st) ++
         reads "#" 0 (map snd (inbox (port st))) ++
         [IORead "#" 0 None; IOWrite cmd true] ++
         reads e wait (map snd tels) ++
         [IORead e wait (Some (reply ++ String e EmptyString)%string)] ++
         reads e 0 (ready 0 rest) ++ [IORead e 0 None; IOSleep]))
     (absorb
        (map (frame_of "#") (map snd (inbox (port st))) ++
         map (frame_of e) (map snd tels) ++
         map (frame_of e) (ready 0 rest)) st)).
Proof.
  intros Hb Ha Hw Ht Hdr Hreply.
  rewrite sendQuery_unfold. cbv zeta.
  rewrite (drain_buffered _ Hb). cbn [snd].
  match goal with |- context [transmit cmd ?s] => set (st1 := s) end.
  assert (Ha1 : answer (port st1) = Some (tels ++ (dr, reply) :: rest))
    by exact Ha.
  rewrite (transmit_ok _ _ _ Ha1). cbn [fst snd].
  match goal with |- context [read_reply _ e wait false _ ?s] =>
    set (st2 := s) end.
  assert (Hq : inbox (port st2) = tels ++ (dr, reply) :: rest)
    by reflexivity.
  rewrite (read_reply_spec e wait dr reply rest tels st2 (pending st2) Hq);
    [| unfold pending; rewrite Hq; lia | assumption ..].
  cbn [fst snd]. subst st2 st1.
  unfold mount_request_delay, modify, nanosleep.
  rewrite !absorb_with_port, !absorb_app. unfold with_port.
  cbn [fst snd port device trace inbox motion scope guide connected
       simulation focuserAux1 client].
  rewrite <- !app_assoc. reflexivity.
Qed.

(** *** Motion telegrams *)

Ltac digit_cases a H :=
  let E := fresh "E" in
  assert (E : a = 0 \/ a = 1 \/ a = 2 \/ a = 3 \/ a = 4 \/
              a = 5 \/ a = 6 \/ a = 7 \/ a = 8 \/ a = 9) by lia;
  clear H;
  repeat (destruct E as [E|E]; [subst a|]); [.. | subst a].

Lemma sscanf_telegram (a b c : Z) (tail : string) :
  0 <= a <= 9 -> 0 <= b <= 9 -> 0 <= c <= 9 ->
  sscanf (telegram a b c ++ tail)%string ":Z1%01d%01d%01d" =
  (3, [VInt a; VInt b; VInt c]).
Proof.
  intros Ha Hb Hc.
  digit_cases a Ha; digit_cases b Hb; digit_cases c Hc;
    vm_compute; reflexivity.
Qed.

(** A telegram read from the line keeps its head, whatever the stop
    character. *)
Lemma frame_of_telegram (e : ascii) (a b c : Z) :
  exists tail, frame_of e (telegram a b c) = (telegram a b c ++ tail)%string.
Proof.
  unfold frame_of, telegram. cbn [String.append drop_final_hash].
  destruct (Ascii.eqb e "#").
  - exists EmptyString. reflexivity.
  - exists (String e EmptyString). reflexivity.
Qed.

(** [ParseMotionState] on the telegram with digits [t] does what
    [motion_after] says. *)
Lemma ParseMotionState_telegram (e : ascii) (t : Z * Z * Z) (st : Driver) :
  telegram_digits t ->
  ParseMotionState (frame_of e (telegram_of t)) st =
  (true, with_motion (motion_after t (motion st)) st).
Proof.
  destruct t as [[a b] c]. intros (Ha & Hb & Hc).
  unfold telegram_of.
  destruct (frame_of_telegram e a b c) as [tail ->].
  unfold ParseMotionState.
  rewrite (sscanf_telegram a b c tail Ha Hb Hc). reflexivity.
Qed.

Lemma is_telegram_frame (e : ascii) (t : Z * Z * Z) :
  telegram_digits t -> is_telegram (frame_of e (telegram_of t)) = true.
Proof.
  intros H.
  rewrite <- (ParseMotionState_accepts _ (Sample.mount [] [])).
  rewrite (ParseMotionState_telegram e t _ H). reflexivity.
Qed.

(** So a run of telegrams is applied one by one. *)
Lemma absorb_telegrams (e : ascii) (ts : list (Z * Z * Z)) :
  Forall telegram_digits ts ->
  forall st,
    absorb (map (frame_of e) (map telegram_of ts)) st = apply_telegrams ts st.
Proof.
  induction 1 as [|t ts Ht _ IH]; intros st; [reflexivity|].
  cbn [map]. rewrite absorb_cons, (ParseMotionState_telegram e t st Ht).
  cbn [snd]. rewrite IH. reflexivity.
Qed.

(** C5.  When the mount answers the command with [N] motion telegrams
    followed by a section that is not a telegram, each arriving within the
    wait budget, [sendQuery] returns that section.  Every one of the [N]
    telegrams has been applied to the motion state once, in the order of
    arrival, on top of what the drain before the command found; after the
    reply all reads use zero wait, and what they find is not returned
    (telegrams among it still reach the motion state; sections that are
    not yet buffered stay on the line). *)
Theorem sendQuery_returns_first_reply (cmd : string) (e : ascii) (wait : Z)
  (st : Driver) (tels : list (Z * (Z * Z * Z))) (dr : Z) (reply : string)
  (rest : list (Z * string)) :
  buffered (inbox (port st)) ->
  answer (port st) = Some (telegram_sections tels ++ (dr, reply) :: rest) ->
  Forall (fun it => fst it <= wait /\ telegram_digits (snd it)) tels ->
  dr <= wait ->
  is_telegram (frame_of e reply) = false ->
  sendQuery cmd e wait st =
  ((true, frame_of e reply),
   with_port
     (mkPort (unready 0 rest) (tl (device (port st)))
        (trace (port st) ++
         reads "#" 0 (map snd (inbox (port st))) ++
         [IORead "#" 0 None; IOWrite cmd true] ++
         reads e wait (map telegram_of (map snd tels)) ++
         [IORead e wait (Some (reply ++ String e EmptyString)%string)] ++
         reads e 0 (ready 0 rest) ++ [IORead e 0 None; IOSleep]))
     (absorb (map (frame_of e) (ready 0 rest))
        (apply_telegrams (map snd tels)
           (absorb (map (frame_of "#") (map snd (inbox (port st)))) st)))).
Proof.
  intros Hb Ha Hw Hdr Hreply.
  assert (Hs : map snd (telegram_sections tels) =
               map telegram_of (map snd tels)).
  { unfold telegram_sections. rewrite !map_map. reflexivity. }
  assert (Hd : Forall telegram_digits (map snd tels)).
  { rewrite Forall_map. revert Hw. apply Forall_impl. intros it H; apply H. }
  rewrite (sendQuery_reply_among_sections cmd e wait st
             (telegram_sections tels) dr reply rest Hb Ha); try assumption.
  - rewrite Hs, !absorb_app, (absorb_telegrams e _ Hd). reflexivity.
  - unfold telegram_sections. rewrite Forall_map. revert Hw.
    apply Forall_impl. intros it H; apply H.
  - unfold all_telegrams, telegram_sections. rewrite Forall_map. revert Hw.
    apply Forall_impl. intros it [_ H]. cbn [snd].
    apply is_telegram_frame, H.
Qed.

Lemma sendQuery_returns_first_reply_witness :
  let st := Sample.mount [(0, ":Z1303")]%string
              [TxOk [(1, ":Z1112"); (2, ":Z1221"); (1, "m10");
                     (0, ":Z1003"); (0, "p0"); (5, "late")]%string] in
  motion st = mkMotion MOTORS_OFF TRACK_SIDEREAL SLEW_MAX /\
  apply_telegrams [(1, 1, 2); (2, 2, 1)]
    (absorb [":Z1303"%string] st) =
    with_motion (mkMotion MOTORS_RA_ONLY TRACK_SOLAR SLEW_CENTERING) st /\
  sendQuery ":X34#" "#" 2 st =
  ((true, "m10"%string),
   with_port
     (mkPort [(5, "late"%string)] []
        [IORead "#" 0 (Some ":Z1303#"%string); IORead "#" 0 None;
         IOWrite ":X34#" true;
         IORead "#" 2 (Some ":Z1112#"%string);
         IORead "#" 2 (Some ":Z1221#"%string);
         IORead "#" 2 (Some "m10#"%string);
         IORead "#" 0 (Some ":Z1003#"%string);
         IORead "#" 0 (Some "p0#"%string);
         IORead "#" 0 None; IOSleep])
     (with_motion (mkMotion MOTORS_OFF TRACK_SOLAR SLEW_MAX) st)).
Proof.
  cbv zeta. split; [reflexivity|]. split; [vm_compute; reflexivity|].
  refine (eq_trans
    (sendQuery_returns_first_reply ":X34#" "#" 2
            (Sample.mount [(0, ":Z1303")]%string
               [TxOk [(1, ":Z1112"); (2, ":Z1221"); (1, "m10");
                      (0, ":Z1003"); (0, "p0"); (5, "late")]%string])
            [(1, (1, 1, 2)); (2, (2, 2, 1))] 1 "m10"
            [(0, ":Z1003"); (0, "p0"); (5, "late")]%string
            _ eq_refl _ _ eq_refl) _).
  - repeat constructor; cbn; lia.
  - repeat constructor; cbn; lia.
  - lia.
  - vm_compute. reflexivity.
Defined.

(** C8.  A frame [:Z1abc] is accepted, and each of the three fields is
    set from its own digit alone: the motor state from [a], the tracking
    mode from [b], the slew rate from [c].  Mode digit 0 keeps the stored
    tracking mode while [a] and [c] are still applied; 1, 2 and 3 set
    lunar, solar and sidereal.  Nothing else in the driver changes. *)
Theorem ParseMotionState_sets_three_fields (a b c : Z) (tail : string)
  (st : Driver) :
  0 <= a <= 9 -> 0 <= b <= 9 -> 0 <= c <= 9 ->
  let r := ParseMotionState (telegram a b c ++ tail)%string st in
  fst r = true /\
  CurrentMotorsState (motion (snd r)) =
    match a with
    | 0 => MOTORS_OFF
    | 1 => MOTORS_DEC_ONLY
    | 2 => MOTORS_RA_ONLY
    | 3 => MOTORS_ON
    | _ => CurrentMotorsState (motion st)
    end /\
  CurrentTrackMode (motion (snd r)) =
    match b with
    | 0 => CurrentTrackMode (motion st)
    | 1 => TRACK_LUNAR
    | 2 => TRACK_SOLAR
    | 3 => TRACK_SIDEREAL
    | _ => CurrentTrackMode (motion st)
    end /\
  CurrentSlewRate (motion (snd r)) =
    match c with
    | 0 => SLEW_GUIDE
    | 1 => SLEW_CENTERING
    | 2 => SLEW_FIND
    | 3 => SLEW_MAX
    | _ => CurrentSlewRate (motion st)
    end /\
  snd r = with_motion (motion (snd r)) st.
Proof.
  intros Ha Hb Hc. cbv zeta. unfold ParseMotionState.
  rewrite (sscanf_telegram a b c tail Ha Hb Hc).
  cbn [fst snd motion with_motion CurrentMotorsState CurrentTrackMode
       CurrentSlewRate].
  repeat split.
Qed.

Lemma ParseMotionState_sets_three_fields_witness :
  let st := Sample.mount [] [] in
  let r := ParseMotionState ":Z1203" st in
  fst r = true /\
  motion (snd r) = mkMotion MOTORS_RA_ONLY TRACK_SIDEREAL SLEW_MAX /\
  CurrentTrackMode (motion st) = TRACK_SIDEREAL /\
  motion (snd (ParseMotionState ":Z1113" st)) =
    mkMotion MOTORS_DEC_ONLY TRACK_LUNAR SLEW_MAX.
Proof.
  cbv zeta.
  pose proof (ParseMotionState_sets_three_fields 2 0 3 EmptyString
                (Sample.mount [] [])
                ltac:(lia) ltac:(lia) ltac:(lia)) as H.
  cbv zeta in H. destruct H as (H1 & _).
  split; [exact H1 | vm_compute; repeat split].
Defined.

(** *** Guiding *)

(** C9.  With pulse guiding active and a manual motion busy on either
    axis, each of the four guide functions returns [IPS_ALERT] at once
    and leaves the driver, the serial line included, untouched: nothing
    is written to the mount. *)
Theorem guide_rejected_while_moving (ms : Z) (st : Driver) :
  usePulseCommand (guide st) = true ->
  sw_s (MovementNSSP (guide st)) = IPS_BUSY \/
  sw_s (MovementWESP (guide st)) = IPS_BUSY ->
  GuideNorth ms st = (IPS_ALERT, st) /\
  GuideSouth ms st = (IPS_ALERT, st) /\
  GuideEast ms st = (IPS_ALERT, st) /\
  GuideWest ms st = (IPS_ALERT, st).
Proof.
  intros Hp Hbusy.
  assert (Hb : IPState_eqb (sw_s (MovementNSSP (guide st))) IPS_BUSY
               || IPState_eqb (sw_s (MovementWESP (guide st))) IPS_BUSY
               = true).
  { destruct Hbusy as [-> | ->]; cbn; [reflexivity | apply orb_true_r]. }
  unfold GuideNorth, GuideSouth, GuideEast, GuideWest, MovementBusy,
    bind, gets, ret.
  rewrite Hp, Hb. cbn [andb]. repeat split.
Qed.

Lemma guide_rejected_while_moving_witness :
  usePulseCommand (guide Sample.moving_north) = true /\
  sw_s (MovementNSSP (guide Sample.moving_north)) = IPS_BUSY /\
  GuideEast 250 Sample.moving_north = (IPS_ALERT, Sample.moving_north) /\
  written (trace (port (snd (GuideNorth 250 Sample.moving_north)))) = [].
Proof.
  destruct (guide_rejected_while_moving 250 Sample.moving_north
              eq_refl (or_introl eq_refl)) as (Hn & _ & He & _).
  refine (conj eq_refl (conj eq_refl (conj He _))).
  rewrite Hn. reflexivity.
Defined.

(* ===================================================================== *)
(** ** Doubles: comparison and exact sums *)
(* ===================================================================== *)

(** [digits2_pos] counts the binary digits. *)
Lemma digits2_pos_bounds (m : positive) :
  2 ^ (Z.pos (digits2_pos m) - 1) <= Z.pos m < 2 ^ Z.pos (digits2_pos m).
Proof.
  induction m as [p IH | p IH |]; cbn [digits2_pos].
  - rewrite Pos2Z.inj_succ, Z.pow_succ_r by lia.
    replace (Z.succ (Z.pos (digits2_pos p)) - 1)
      with (Z.succ (Z.pos (digits2_pos p) - 1)) by lia.
    rewrite Z.pow_succ_r by lia. lia.
  - rewrite Pos2Z.inj_succ, Z.pow_succ_r by lia.
    replace (Z.succ (Z.pos (digits2_pos p)) - 1)
      with (Z.succ (Z.pos (digits2_pos p) - 1)) by lia.
    rewrite Z.pow_succ_r by lia. lia.
  - cbn. lia.
Qed.

(** What validity says of a finite double: the exponent range, a
    mantissa below 2^53, and a full mantissa above the smallest exponent. *)
Lemma bounded_facts (m : positive) (e : Z) :
  bounded prec emax m e = true ->
  -1074 <= e <= 971 /\ Z.pos m < 2 ^ 53 /\
  (-1074 < e -> 2 ^ 52 <= Z.pos m) /\
  Z.pos (digits2_pos m) <= 53 /\
  fexp prec emax (Z.pos (digits2_pos m) + e) = e.
Proof.
  unfold bounded, canonical_mantissa. intros H.
  apply andb_true_iff in H. destruct H as [Hc He].
  apply Z.eqb_eq in Hc. apply Z.leb_le in He.
  pose proof (digits2_pos_bounds m) as [Hlo Hhi].
  assert (Hf : fexp prec emax (Z.pos (digits2_pos m) + e) =
               Z.max (Z.pos (digits2_pos m) + e - 53) (-1074)) by reflexivity.
  rewrite Hf in Hc.
  change (Z.sub emax prec) with 971 in He.
  assert (Hd : Z.pos (digits2_pos m) <= 53) by lia.
  repeat split; try lia.
  - apply Z.lt_le_trans with (1 := Hhi). apply Z.pow_le_mono_r; lia.
  - intros Hn. assert (Z.pos (digits2_pos m) = 53) by lia.
    replace 52 with (Z.pos (digits2_pos m) - 1) by lia. exact Hlo.
Qed.

(** Of two valid doubles of the same sign, the one with the smaller
    exponent is the smaller in magnitude. *)
Lemma smaller_exponent_smaller_magnitude (m1 m2 : positive) (e1 e2 : Z) :
  bounded prec emax m1 e1 = true -> bounded prec emax m2 e2 = true ->
  e1 < e2 ->
  Z.pos m1 * 2 ^ (e1 + 1074) < Z.pos m2 * 2 ^ (e2 + 1074).
Proof.
  intros H1 H2 Hlt.
  destruct (bounded_facts _ _ H1) as (He1 & Hm1 & _).
  destruct (bounded_facts _ _ H2) as (He2 & _ & Hm2 & _).
  assert (Hn : -1074 < e2) by lia. apply Hm2 in Hn. clear Hm2.
  replace (e2 + 1074) with ((e2 - e1 - 1) + 1 + (e1 + 1074)) by lia.
  rewrite (Z.pow_add_r 2 (e2 - e1 - 1 + 1) (e1 + 1074)),
    (Z.pow_add_r 2 (e2 - e1 - 1) 1) by lia.
  assert (Hp : 0 < 2 ^ (e1 + 1074)) by (apply Z.pow_pos_nonneg; lia).
  assert (Hq : 1 <= 2 ^ (e2 - e1 - 1)).
  { change 1 with (2 ^ 0). apply Z.pow_le_mono_r; lia. }
  change (2 ^ 1) with 2. change (2 ^ 53) with (2 * 2 ^ 52) in Hm1.
  set (P := 2 ^ (e1 + 1074)) in *. set (Q := 2 ^ (e2 - e1 - 1)) in *.
  set (T := 2 ^ 52) in *. clearbody P Q T.
  apply Z.lt_le_trans with (2 * T * P).
  - apply Z.mul_lt_mono_pos_r; assumption.
  - replace (Z.pos m2 * (Q * 2 * P)) with (Z.pos m2 * Q * (2 * P)) by ring.
    replace (2 * T * P) with (T * (2 * P)) by ring.
    apply Z.mul_le_mono_nonneg_r; [lia|].
    apply Z.le_trans with (Z.pos m2 * 1); [lia|].
    apply Z.mul_le_mono_nonneg_l; lia.
Qed.

(** Valid finite doubles compare as their values do. *)
Lemma SFcompare_scaled (x y : spec_float) :
  valid_binary x = true -> valid_binary y = true ->
  spec_finite x = true -> spec_finite y = true ->
  SFcompare x y = Some (scaled x ?= scaled y).
Proof.
  destruct x as [sx | sx | | sx mx ex], y as [sy | sy | | sy my ey];
    cbn [valid_binary spec_finite]; try discriminate; intros Vx Vy _ _;
    cbn [SFcompare scaled].
  - reflexivity.
  - assert (0 < Z.pos my * 2 ^ (ey + 1074)).
    { destruct (bounded_facts _ _ Vy) as (He & _).
      apply Z.mul_pos_pos; [lia | apply Z.pow_pos_nonneg; lia]. }
    destruct sy; f_equal; symmetry;
      [apply Z.compare_gt_iff | apply Z.compare_lt_iff]; lia.
  - assert (0 < Z.pos mx * 2 ^ (ex + 1074)).
    { destruct (bounded_facts _ _ Vx) as (He & _).
      apply Z.mul_pos_pos; [lia | apply Z.pow_pos_nonneg; lia]. }
    destruct sx; f_equal; symmetry;
      [apply Z.compare_lt_iff | apply Z.compare_gt_iff]; lia.
  - assert (Hx : 0 < Z.pos mx * 2 ^ (ex + 1074)).
    { destruct (bounded_facts _ _ Vx) as (He & _).
      apply Z.mul_pos_pos; [lia | apply Z.pow_pos_nonneg; lia]. }
    assert (Hy : 0 < Z.pos my * 2 ^ (ey + 1074)).
    { destruct (bounded_facts _ _ Vy) as (He & _).
      apply Z.mul_pos_pos; [lia | apply Z.pow_pos_nonneg; lia]. }
    assert (Hlt : ex < ey ->
              Z.pos mx * 2 ^ (ex + 1074) < Z.pos my * 2 ^ (ey + 1074))
      by (apply smaller_exponent_smaller_magnitude; assumption).
    assert (Hgt : ey < ex ->
              Z.pos my * 2 ^ (ey + 1074) < Z.pos mx * 2 ^ (ex + 1074))
      by (apply smaller_exponent_smaller_magnitude; assumption).
    assert (Heq : ex = ey ->
              (Z.pos mx * 2 ^ (ex + 1074) ?= Z.pos my * 2 ^ (ey + 1074)) =
              Pos.compare_cont Eq mx my).
    { intros ->.
      assert (Hp : 0 < 2 ^ (ey + 1074)).
      { destruct (bounded_facts _ _ Vy) as (He & _).
        apply Z.pow_pos_nonneg; lia. }
      change (Pos.compare_cont Eq mx my) with (mx ?= my)%positive.
      destruct (Pos.compare_spec mx my) as [E | L | G].
      - subst my. apply Z.compare_refl.
      - apply Z.compare_lt_iff, Z.mul_lt_mono_pos_r; [exact Hp | lia].
      - apply Z.compare_gt_iff, Z.mul_lt_mono_pos_r; [exact Hp | lia]. }
    f_equal.
    destruct sx, sy.
    + rewrite Z.compare_opp.
      destruct (Z.compare_spec ex ey) as [E | L | G].
      * rewrite (Z.compare_antisym (Z.pos mx * _)), (Heq E). reflexivity.
      * symmetry. apply Z.compare_gt_iff. auto.
      * symmetry. apply Z.compare_lt_iff. auto.
    + symmetry. apply Z.compare_lt_iff. lia.
    + symmetry. apply Z.compare_gt_iff. lia.
    + destruct (Z.compare_spec ex ey) as [E | L | G].
      * rewrite (Heq E). reflexivity.
      * symmetry. apply Z.compare_lt_iff. auto.
      * symmetry. apply Z.compare_gt_iff. auto.
Qed.

(** Shifting a mantissa left. *)
Lemma iter_xO_value (m d : positive) :
  Z.pos (Pos.iter xO m d) = Z.pos m * 2 ^ Z.pos d.
Proof.
  induction d as [|d IH] using Pos.peano_ind.
  - cbn. lia.
  - rewrite Pos.iter_succ, Pos2Z.inj_xO, IH, Pos2Z.inj_succ,
      Z.pow_succ_r by lia. ring.
Qed.

Lemma iter_xO_digits (m d : positive) :
  Z.pos (digits2_pos (Pos.iter xO m d)) = Z.pos (digits2_pos m) + Z.pos d.
Proof.
  induction d as [|d IH] using Pos.peano_ind.
  - cbn [Pos.iter digits2_pos]. lia.
  - rewrite Pos.iter_succ. cbn [digits2_pos]. lia.
Qed.

Lemma shl_align_value (m : positive) (e ez : Z) :
  ez <= e ->
  Z.pos (fst (shl_align m e ez)) = Z.pos m * 2 ^ (e - ez).
Proof.
  intros H. unfold shl_align.
  destruct (Z.sub ez e) as [|k|k] eqn:E.
  - replace (e - ez) with 0 by lia. cbn. lia.
  - lia.
  - cbn [fst]. rewrite iter_xO_value. f_equal. f_equal. lia.
Qed.

(** A mantissa that is already in canonical position is not rounded. *)
Lemma binary_round_aux_canonical (s : bool) (m : positive) (e : Z) :
  bounded prec emax m e = true ->
  binary_round_aux prec emax s (Z.pos m) e loc_Exact = S754_finite s m e.
Proof.
  intros Hb.
  destruct (bounded_facts _ _ Hb) as (He & _ & _ & _ & Hf).
  unfold binary_round_aux, shr_fexp. cbn [Zdigits2 shr_record_of_loc].
  rewrite Hf, Z.sub_diag.
  cbn [shr shr_m loc_of_shr_record round_nearest_even Zdigits2].
  rewrite Hf, Z.sub_diag. cbn [shr shr_m].
  replace (Z.leb e (Z.sub emax prec)) with true; [reflexivity|].
  symmetry. apply Z.leb_le. change (Z.sub emax prec) with 971. lia.
Qed.

Lemma digits2_pos_small (m : positive) :
  Z.pos m < 2 ^ 53 -> Z.pos (digits2_pos m) <= 53.
Proof.
  intros H. pose proof (digits2_pos_bounds m) as [Hlo _].
  destruct (Z_le_gt_dec (Z.pos (digits2_pos m)) 53) as [Hd | Hd]; [exact Hd|].
  exfalso.
  assert (2 ^ 53 <= 2 ^ (Z.pos (digits2_pos m) - 1))
    by (apply Z.pow_le_mono_r; lia).
  lia.
Qed.

(** A number of fewer than 54 bits at an exponent a double can have is a
    double: rounding it changes nothing. *)
Lemma binary_round_exact (s : bool) (m : positive) (e : Z) :
  Z.pos m < 2 ^ 53 -> -1074 <= e <= 971 ->
  exists m' e',
    binary_round prec emax s m e = S754_finite s m' e' /\
    bounded prec emax m' e' = true /\
    Z.pos m' * 2 ^ (e' + 1074) = Z.pos m * 2 ^ (e + 1074).
Proof.
  intros Hm He.
  pose proof (digits2_pos_small m Hm) as Hd.
  unfold binary_round.
  assert (Hf : forall x, fexp prec emax x = Z.max (x - 53) (-1074))
    by reflexivity.
  set (e' := fexp prec emax (Z.pos (digits2_pos m) + e)).
  assert (He' : e' = Z.max (Z.pos (digits2_pos m) + e - 53) (-1074))
    by apply Hf.
  unfold shl_align.
  destruct (Z.sub e' e) as [|k|k] eqn:E; [| lia |].
  - assert (Hb : bounded prec emax m e = true).
    { unfold bounded, canonical_mantissa.
      apply andb_true_iff. split.
      - apply Z.eqb_eq. fold e'. lia.
      - apply Z.leb_le. change (Z.sub emax prec) with 971. lia. }
    exists m, e. split; [apply binary_round_aux_canonical, Hb|].
    split; [exact Hb | reflexivity].
  - assert (Hb : bounded prec emax (Pos.iter xO m k) e' = true).
    { unfold bounded, canonical_mantissa.
      apply andb_true_iff. split.
      - apply Z.eqb_eq. rewrite iter_xO_digits, Hf. lia.
      - apply Z.leb_le. change (Z.sub emax prec) with 971. lia. }
    exists (Pos.iter xO m k), e'.
    split; [apply binary_round_aux_canonical, Hb|].
    split; [exact Hb|].
    rewrite iter_xO_value.
    replace (e + 1074) with (Z.pos k + (e' + 1074)) by lia.
    rewrite (Z.pow_add_r 2 (Z.pos k) (e' + 1074)) by lia. ring.
Qed.

(** The same for a signed integer, as sums and differences produce it. *)
Lemma binary_normalize_exact (z e : Z) :
  Z.abs z < 2 ^ 53 -> -1074 <= e <= 971 ->
  let r := binary_normalize prec emax z e false in
  spec_finite r = true /\ scaled r = z * 2 ^ (e + 1074).
Proof.
  intros Hz He. destruct z as [|p|p]; cbn [binary_normalize].
  - split; reflexivity.
  - destruct (binary_round_exact false p e Hz He) as (m' & e' & -> & _ & H).
    split; [reflexivity | exact H].
  - destruct (binary_round_exact true p e Hz He) as (m' & e' & -> & _ & H).
    split; [reflexivity|]. cbn [scaled]. rewrite H. lia.
Qed.

(** Aligning a mantissa to a smaller exponent keeps the value. *)
Lemma aligned_value (s : bool) (m : positive) (e ez : Z) :
  -1074 <= ez <= e ->
  cond_Zopp s (Z.pos (fst (shl_align m e ez))) * 2 ^ (ez + 1074) =
  scaled (S754_finite s m e).
Proof.
  intros H. rewrite shl_align_value by lia.
  cbn [scaled].
  replace (e + 1074) with ((e - ez) + (ez + 1074)) by lia.
  rewrite (Z.pow_add_r 2 (e - ez) (ez + 1074)) by lia.
  destruct s; cbn [cond_Zopp]; ring.
Qed.

Lemma exact_in_range (z ez : Z) :
  -1074 <= ez ->
  Z.abs (z * 2 ^ (ez + 1074)) < 2 ^ 53 * 2 ^ (ez + 1074) ->
  Z.abs z < 2 ^ 53.
Proof.
  intros He H.
  assert (Hp : 0 < 2 ^ (ez + 1074)) by (apply Z.pow_pos_nonneg; lia).
  rewrite Z.abs_mul, (Z.abs_eq (2 ^ _)) in H by lia.
  apply Z.mul_lt_mono_pos_r in H; assumption.
Qed.

(** A difference that fits 53 bits at the smaller of the two exponents is
    computed without rounding. *)
Lemma SF64sub_exact (sx sy : bool) (mx my : positive) (ex ey : Z) :
  let x := S754_finite sx mx ex in
  let y := S754_finite sy my ey in
  bounded prec emax mx ex = true -> bounded prec emax my ey = true ->
  Z.abs (scaled x - scaled y) < 2 ^ 53 * 2 ^ (Z.min ex ey + 1074) ->
  spec_finite (SF64sub x y) = true /\
  scaled (SF64sub x y) = scaled x - scaled y.
Proof.
  intros x y Vx Vy Hz.
  destruct (bounded_facts _ _ Vx) as (Hex & _).
  destruct (bounded_facts _ _ Vy) as (Hey & _).
  subst x y. unfold SF64sub, SFsub.
  set (ez := Z.min ex ey) in *.
  set (z := Z.sub (cond_Zopp sx _) (cond_Zopp sy _)).
  assert (Hv : z * 2 ^ (ez + 1074) =
               scaled (S754_finite sx mx ex) - scaled (S754_finite sy my ey)).
  { unfold z. rewrite Z.mul_sub_distr_r, !aligned_value by lia.
    reflexivity. }
  rewrite <- Hv in Hz |- *.
  apply binary_normalize_exact; [| lia].
  apply (exact_in_range z ez); [lia | exact Hz].
Qed.

(** And so is such a sum. *)
Lemma SF64add_exact (sx sy : bool) (mx my : positive) (ex ey : Z) :
  let x := S754_finite sx mx ex in
  let y := S754_finite sy my ey in
  bounded prec emax mx ex = true -> bounded prec emax my ey = true ->
  Z.abs (scaled x + scaled y) < 2 ^ 53 * 2 ^ (Z.min ex ey + 1074) ->
  spec_finite (SF64add x y) = true /\
  scaled (SF64add x y) = scaled x + scaled y.
Proof.
  intros x y Vx Vy Hz.
  destruct (bounded_facts _ _ Vx) as (Hex & _).
  destruct (bounded_facts _ _ Vy) as (Hey & _).
  subst x y. unfold SF64add, SFadd.
  set (ez := Z.min ex ey) in *.
  set (z := Z.add (cond_Zopp sx _) (cond_Zopp sy _)).
  assert (Hv : z * 2 ^ (ez + 1074) =
               scaled (S754_finite sx mx ex) + scaled (S754_finite sy my ey)).
  { unfold z. rewrite Z.mul_add_distr_r, !aligned_value by lia.
    reflexivity. }
  rewrite <- Hv in Hz |- *.
  apply binary_normalize_exact; [| lia].
  apply (exact_in_range z ez); [lia | exact Hz].
Qed.

(** *** Primitive doubles *)

(** [<=] and [<] on finite primitive doubles are those of the values. *)
Lemma leb_scaled (x y : float) :
  double_finite x = true -> double_finite y = true ->
  PrimFloat.leb x y = (double_scaled x <=? double_scaled y).
Proof.
  intros Hx Hy. rewrite leb_spec. unfold SFleb.
  rewrite (SFcompare_scaled _ _ (Prim2SF_valid x) (Prim2SF_valid y) Hx Hy).
  unfold double_scaled, Z.leb.
  destruct (scaled (Prim2SF x) ?= scaled (Prim2SF y)); reflexivity.
Qed.

Lemma ltb_scaled (x y : float) :
  double_finite x = true -> double_finite y = true ->
  PrimFloat.ltb x y = (double_scaled x <? double_scaled y).
Proof.
  intros Hx Hy. rewrite ltb_spec. unfold SFltb.
  rewrite (SFcompare_scaled _ _ (Prim2SF_valid x) (Prim2SF_valid y) Hx Hy).
  unfold double_scaled, Z.ltb.
  destruct (scaled (Prim2SF x) ?= scaled (Prim2SF y)); reflexivity.
Qed.

(** What lies between two finite doubles is finite: neither an infinity
    nor a NaN. *)
Lemma finite_between (a x b : float) :
  double_finite a = true -> double_finite b = true ->
  PrimFloat.leb a x = true -> PrimFloat.leb x b = true ->
  double_finite x = true.
Proof.
  unfold double_finite. rewrite !leb_spec. unfold SFleb.
  destruct (Prim2SF a) as [| | |[] ? ?], (Prim2SF b) as [| | |[] ? ?],
    (Prim2SF x) as [|[]| |]; cbn; congruence.
Qed.

(** A finite double beyond 180 either way has an exponent of at least
    -45: its mantissa is below 2^53. *)
Lemma within_540_shape (l : float) :
  double_finite l = true ->
  degrees 180 < Z.abs (double_scaled l) ->
  exists s m e,
    Prim2SF l = S754_finite s m e /\ bounded prec emax m e = true /\
    -45 <= e.
Proof.
  unfold double_finite, double_scaled. intros Hf Hs.
  pose proof (Prim2SF_valid l) as Hv.
  destruct (Prim2SF l) as [s | s | | s m e]; try discriminate Hf.
  { exfalso. assert (0 < degrees 180) by reflexivity.
    change (scaled (S754_zero s)) with 0 in Hs. lia. }
  exists s, m, e. cbn [valid_binary] in Hv.
  split; [reflexivity|]. split; [exact Hv|].
  destruct (bounded_facts _ _ Hv) as (He & Hm & _).
  destruct (Z_le_gt_dec (-45) e) as [H | H]; [exact H | exfalso].
  assert (Hq : 0 < 2 ^ (e + 1074)) by (apply Z.pow_pos_nonneg; lia).
  assert (Ha : Z.abs (scaled (S754_finite s m e)) =
               Z.pos m * 2 ^ (e + 1074)).
  { cbn [scaled]. destruct s; lia. }
  rewrite Ha in Hs.
  assert (Hp : 2 ^ (e + 1074) <= 2 ^ 1028) by (apply Z.pow_le_mono_r; lia).
  unfold degrees in Hs.
  change (2 ^ 1074) with (2 ^ 46 * 2 ^ 1028) in Hs.
  assert (Hb : Z.pos m * 2 ^ (e + 1074) <= 2 ^ 53 * 2 ^ 1028).
  { apply Z.mul_le_mono_nonneg; lia. }
  change (2 ^ 53) with (2 ^ 7 * 2 ^ 46) in Hb.
  set (U := 2 ^ 1028) in *.
  assert (HU : 0 < U) by (subst U; reflexivity).
  clearbody U. change (2 ^ 46) with 70368744177664 in *.
  change (2 ^ 7) with 128 in *. nia.
Qed.

(** The constants of the longitude shift. *)
Lemma double_scaled_whole :
  double_scaled 180 = degrees 180 /\ double_scaled (-180) = degrees (-180) /\
  double_scaled 360 = degrees 360 /\ double_scaled 540 = degrees 540 /\
  double_scaled (-540) = degrees (-540).
Proof. vm_compute. repeat split. Qed.

(** A value within 180 degrees fits 53 bits at exponent -45 and above. *)
Lemma exact_bound (x e : Z) :
  -45 <= e -> Z.abs x <= degrees 180 ->
  Z.abs x < 2 ^ 53 * 2 ^ (Z.min e (-44) + 1074).
Proof.
  intros He Hx.
  assert (Hp : 2 ^ 1029 <= 2 ^ (Z.min e (-44) + 1074))
    by (apply Z.pow_le_mono_r; lia).
  unfold degrees in Hx. change (2 ^ 1074) with (2 ^ 45 * 2 ^ 1029) in Hx.
  set (U := 2 ^ 1029) in *. assert (HU : 0 < U) by (subst U; reflexivity).
  set (V := 2 ^ (Z.min e (-44) + 1074)) in *. clearbody U V.
  change (2 ^ 45) with 35184372088832 in Hx.
  change (2 ^ 53) with 9007199254740992. nia.
Qed.

(** The two statements of [setSiteLongitude] shift a longitude within
    540 degrees by a whole turn, without rounding, into [-180, 180]. *)
Lemma normalise_longitude_exact (longitude : float) :
  PrimFloat.leb (-540) longitude = true ->
  PrimFloat.leb longitude 540 = true ->
  double_finite (normalise_longitude longitude) = true /\
  double_scaled (normalise_longitude longitude) =
    double_scaled longitude + longitude_shift longitude /\
  degrees (-180) <= double_scaled (normalise_longitude longitude)
    <= degrees 180.
Proof.
  intros Hlo Hhi.
  destruct double_scaled_whole as (S180 & Sm180 & S360 & S540 & Sm540).
  assert (Hf : double_finite longitude = true)
    by (apply (finite_between (-540) longitude 540); auto).
  rewrite leb_scaled in Hlo, Hhi by auto.
  rewrite Sm540 in Hlo. rewrite S540 in Hhi.
  apply Z.leb_le in Hlo, Hhi.
  unfold normalise_longitude, longitude_shift.
  rewrite (ltb_scaled 180 longitude) by auto. rewrite S180.
  destruct (Z.ltb_spec (degrees 180) (double_scaled longitude)) as [Ha | Ha].
  - (* above 180: 360 is subtracted *)
    assert (Hab : degrees 180 < Z.abs (double_scaled longitude)) by lia.
    destruct (within_540_shape longitude Hf Hab)
      as (s & m & e & E & Vb & He).
    assert (X : spec_finite (Prim2SF (longitude - 360)) = true /\
                scaled (Prim2SF (longitude - 360)) =
                double_scaled longitude - degrees 360).
    { rewrite sub_spec, <- S360. unfold double_scaled. rewrite E.
      change (Prim2SF 360) with (S754_finite false 6333186975989760 (-44)).
      apply SF64sub_exact; [exact Vb | reflexivity |].
      change (scaled (S754_finite false 6333186975989760 (-44)))
        with (double_scaled 360).
      rewrite S360. apply exact_bound; [exact He|].
      unfold double_scaled in Ha, Hhi. rewrite E in Ha, Hhi.
      unfold degrees in *. lia. }
    destruct X as [Xf Xs]. fold (double_finite (longitude - 360)) in Xf.
    fold (double_scaled (longitude - 360)) in Xs.
    rewrite (ltb_scaled (longitude - 360) (-180)) by auto.
    rewrite Sm180, Xs.
    destruct (Z.ltb_spec (double_scaled longitude - degrees 360)
                (degrees (-180))) as [Hb | Hb];
      [unfold degrees in *; lia|].
    rewrite Xs. split; [exact Xf|]. unfold degrees in *. lia.
  - rewrite (ltb_scaled longitude (-180)) by auto. rewrite Sm180.
    destruct (Z.ltb_spec (double_scaled longitude) (degrees (-180)))
      as [Hb | Hb].
    + (* below -180: 360 is added *)
      assert (Hab : degrees 180 < Z.abs (double_scaled longitude))
        by (unfold degrees in *; lia).
      destruct (within_540_shape longitude Hf Hab)
        as (s & m & e & E & Vb & He).
      assert (X : spec_finite (Prim2SF (360 + longitude)) = true /\
                  scaled (Prim2SF (360 + longitude)) =
                  degrees 360 + double_scaled longitude).
      { rewrite add_spec, <- S360. unfold double_scaled. rewrite E.
        change (Prim2SF 360) with (S754_finite false 6333186975989760 (-44)).
        apply SF64add_exact; [reflexivity | exact Vb |].
        change (scaled (S754_finite false 6333186975989760 (-44)))
          with (double_scaled 360).
        rewrite S360, Z.min_comm. apply exact_bound; [exact He|].
        unfold double_scaled in Hb, Hlo. rewrite E in Hb, Hlo.
        unfold degrees in *. lia. }
      destruct X as [Xf Xs]. fold (double_finite (360 + longitude)) in Xf.
      fold (double_scaled (360 + longitude)) in Xs.
      rewrite Xs. split; [exact Xf|]. unfold degrees in *. lia.
    + split; [exact Hf|]. lia.
Qed.

Lemma normalise_longitude_range (longitude : float) :
  PrimFloat.leb (-540) longitude = true ->
  PrimFloat.leb longitude 540 = true ->
  PrimFloat.leb (-180) (normalise_longitude longitude) = true /\
  PrimFloat.leb (normalise_longitude longitude) 180 = true.
Proof.
  intros Hlo Hhi.
  destruct (normalise_longitude_exact longitude Hlo Hhi) as (Hf & _ & Hr).
  destruct double_scaled_whole as (S180 & Sm180 & _).
  rewrite !leb_scaled by auto. rewrite Sm180, S180.
  split; apply Z.leb_le; lia.
Qed.

(** *** The host library's splitter, as the sample host has it *)

(** The cast to [int] takes the whole part of a double from 0 to 180. *)
Lemma double_to_int_whole_part (x : float) :
  double_finite x = true ->
  0 <= double_scaled x <= degrees 180 ->
  match Prim2SF x with S754_finite true _ _ => False | _ => True end ->
  double_to_int x = double_scaled x / 2 ^ 1074.
Proof.
  unfold double_finite, double_scaled, double_to_int.
  pose proof (Prim2SF_valid x) as Hv.
  destruct (Prim2SF x) as [s | s | | s m e]; try discriminate; intros _ Hr Hs.
  - reflexivity.
  - destruct s; [contradiction|]. cbn [scaled] in *. cbn [valid_binary] in Hv.
    destruct (bounded_facts _ _ Hv) as (He & _).
    assert (Ha : (if 0 <=? e then Z.pos m * 2 ^ e else Z.pos m / 2 ^ (- e)) =
                 Z.pos m * 2 ^ (e + 1074) / 2 ^ 1074).
    { destruct (Z.leb_spec 0 e) as [H | H].
      - rewrite (Z.pow_add_r 2 e 1074) by lia.
        rewrite Z.mul_assoc, Z.div_mul; [reflexivity|].
        apply Z.pow_nonzero; lia.
      - replace 1074 with ((- e) + (e + 1074)) at 2 by lia.
        rewrite (Z.pow_add_r 2 (- e) (e + 1074)) by lia.
        rewrite Z.div_mul_cancel_r; [reflexivity | |];
          apply Z.pow_nonzero; lia. }
    cbv zeta. rewrite Ha.
    set (q := Z.pos m * 2 ^ (e + 1074) / 2 ^ 1074).
    assert (Hq : 0 <= q <= 180).
    { subst q. unfold degrees in Hr. split.
      - apply Z.div_pos; [lia | reflexivity].
      - apply Z.div_le_upper_bound; [reflexivity | lia]. }
    replace ((INT_MIN <=? q) && (q <=? INT_MAX)) with true; [reflexivity|].
    symmetry. apply andb_true_iff. unfold INT_MIN, INT_MAX.
    split; apply Z.leb_le; lia.
Qed.

(** [fabs] *)
Lemma double_scaled_abs (x : float) :
  double_finite (PrimFloat.abs x) = double_finite x /\
  double_scaled (PrimFloat.abs x) = Z.abs (double_scaled x) /\
  match Prim2SF (PrimFloat.abs x) with
  | S754_finite true _ _ => False
  | _ => True
  end.
Proof.
  unfold double_finite, double_scaled. rewrite abs_spec.
  pose proof (Prim2SF_valid x) as Hv.
  destruct (Prim2SF x) as [s | s | | s m e];
    cbn [SFabs scaled spec_finite]; auto.
  cbn [valid_binary] in Hv. destruct (bounded_facts _ _ Hv) as (He & _).
  assert (0 < Z.pos m * 2 ^ (e + 1074))
    by (apply Z.mul_pos_pos; [lia | apply Z.pow_pos_nonneg; lia]).
  repeat split. destruct s; lia.
Qed.

(** The splitter of the sample host gives the degrees the sign of the
    value, except between -1 and 0 where the degrees are 0. *)
Lemma sexagesimal_degrees_sign (value : float) :
  PrimFloat.leb (-180) value = true ->
  PrimFloat.leb value 180 = true ->
  let d := fst (fst (Sample.sexagesimal value)) in
  (PrimFloat.leb value (-1) = true -> d < 0) /\
  (PrimFloat.leb 0 value = true -> 0 <= d) /\
  (PrimFloat.ltb (-1) value = true -> PrimFloat.ltb value 0 = true ->
   d = 0 \/ d = -1).
Proof.
  intros Hlo Hhi.
  destruct double_scaled_whole as (S180 & Sm180 & _).
  assert (Hf : double_finite value = true)
    by (apply (finite_between (-180) value 180); auto).
  rewrite leb_scaled in Hlo, Hhi by auto.
  rewrite Sm180 in Hlo. rewrite S180 in Hhi. apply Z.leb_le in Hlo, Hhi.
  destruct (double_scaled_abs value) as (Af & As & Ap).
  rewrite Hf in Af.
  assert (Ar : 0 <= double_scaled (PrimFloat.abs value) <= degrees 180)
    by (unfold degrees in *; lia).
  pose proof (double_to_int_whole_part _ Af Ar Ap) as Hd.
  unfold Sample.sexagesimal.
  set (a := PrimFloat.abs value) in *.
  set (d0 := double_to_int a) in *.
  set (f := PrimFloat.mul (PrimFloat.sub a (Z2double d0)) 60).
  set (m0 := double_to_int f).
  set (s0 := Sample.rint _).
  assert (S1 : double_scaled (-1) = degrees (-1)) by (vm_compute; reflexivity).
  assert (S0 : double_scaled 0 = 0) by reflexivity.
  rewrite (ltb_scaled value 0), (leb_scaled value (-1)),
    (leb_scaled 0 value), (ltb_scaled (-1) value) by auto.
  rewrite S1, S0.
  assert (K : 0 < 2 ^ 1074) by reflexivity.
  assert (D0 : 0 <= d0) by (rewrite Hd; apply Z.div_pos; lia).
  assert (D1 : degrees 1 <= Z.abs (double_scaled value) -> 1 <= d0).
  { intros H. rewrite Hd, As. unfold degrees in H.
    apply Z.div_le_lower_bound; lia. }
  assert (D2 : Z.abs (double_scaled value) < degrees 1 -> d0 = 0).
  { intros H. rewrite Hd, As. unfold degrees in H.
    apply Z.div_small. lia. }
  destruct (s0 =? 60); destruct (_ =? 60); cbn [fst];
    (split; [|split]);
    try (intros H1 H2; apply Z.ltb_lt in H1, H2;
         destruct (Z.ltb_spec (double_scaled value) 0); [|lia];
         rewrite D2 by (unfold degrees in *; lia); lia);
    intros H; apply Z.leb_le in H;
    destruct (Z.ltb_spec (double_scaled value) 0);
    try specialize (D1 ltac:(unfold degrees in *; lia));
    unfold degrees in *; lia.
Qed.

(** *** Rounded products *)

(** [iter_pos] is iteration. *)
Lemma iter_pos_nat {A : Type} (f : A -> A) (p : positive) (x : A) :
  iter_pos f p x = Nat.iter (Pos.to_nat p) f x.
Proof.
  revert x. induction p as [p IH | p IH |]; intros x; cbn [iter_pos].
  - rewrite !IH, Pos2Nat.inj_xI.
    replace (S (2 * Pos.to_nat p))%nat
      with (Pos.to_nat p + (Pos.to_nat p + 1))%nat by lia.
    rewrite !Nat.iter_add. reflexivity.
  - rewrite !IH, Pos2Nat.inj_xO.
    replace (2 * Pos.to_nat p)%nat with (Pos.to_nat p + Pos.to_nat p)%nat
      by lia.
    rewrite Nat.iter_add. reflexivity.
  - reflexivity.
Qed.

(** One step of the shift register halves a mantissa that is not
    negative. *)
Lemma shr_1_halves (r : shr_record) :
  0 <= shr_m r -> shr_m (shr_1 r) = shr_m r / 2.
Proof.
  destruct r as [m r s]. cbn [shr_m]. intros H.
  destruct m as [|[p|p|]|p]; cbn [shr_1 shr_m]; try reflexivity; try lia.
  - apply (Z.div_unique (Z.pos p~1) 2 (Z.pos p) 1); lia.
  - apply (Z.div_unique (Z.pos p~0) 2 (Z.pos p) 0); lia.
Qed.

Lemma shr_halves (n : nat) (r : shr_record) :
  0 <= shr_m r ->
  shr_m (Nat.iter n shr_1 r) = shr_m r / 2 ^ Z.of_nat n.
Proof.
  intros H. induction n as [|n IH].
  - cbn. symmetry. apply Z.div_1_r.
  - change (Nat.iter (S n) shr_1 r) with (shr_1 (Nat.iter n shr_1 r)).
    rewrite shr_1_halves, IH.
    + rewrite Nat2Z.inj_succ, Z.pow_succ_r, Z.div_div by lia.
      f_equal. ring.
    + rewrite IH. apply Z.div_pos; [exact H | apply Z.pow_pos_nonneg; lia].
Qed.

(** What [shr_fexp] does to a mantissa that is not negative: the exponent
    moves up to the one the format asks for, and the mantissa loses the
    digits below it. *)
Lemma shr_fexp_floor (m e : Z) (l : location) :
  0 <= m ->
  let '(r, e') := shr_fexp prec emax m e l in
  let k := fexp prec emax (Zdigits2 m + e) - e in
  (k <= 0 -> shr_m r = m /\ e' = e) /\
  (0 < k -> shr_m r = m / 2 ^ k /\ e' = e + k).
Proof.
  intros Hm. unfold shr_fexp.
  set (k := Z.sub (fexp prec emax (Z.add (Zdigits2 m) e)) e).
  assert (Hr : shr_m (shr_record_of_loc m l) = m)
    by (destruct l as [|[]]; reflexivity).
  destruct k as [|p|p] eqn:E; cbn [shr].
  - split; [intros _ | lia]. split; [exact Hr | reflexivity].
  - split; [lia | intros _].
    rewrite iter_pos_nat, shr_halves by lia.
    rewrite Hr, positive_nat_Z. split; [reflexivity | lia].
  - split; [intros _ | lia]. split; [exact Hr | reflexivity].
Qed.

(** Rounding moves a mantissa up by one at most. *)
Lemma round_nearest_even_near (m : Z) (l : location) :
  m <= round_nearest_even m l <= m + 1.
Proof.
  destruct l as [|[]]; cbn [round_nearest_even]; try lia.
  destruct (Z.even m); lia.
Qed.

Lemma Zdigits2_bound (m b : Z) :
  0 <= m -> 0 <= b -> m <= 2 ^ b -> Zdigits2 m <= b + 1.
Proof.
  intros Hm Hb H. destruct m as [|p|p]; cbn [Zdigits2]; try lia.
  pose proof (digits2_pos_bounds p) as [Hlo _].
  destruct (Z_le_gt_dec (Z.pos (digits2_pos p)) (b + 1)) as [Hd | Hd];
    [exact Hd | exfalso].
  assert (2 ^ (b + 1) <= 2 ^ (Z.pos (digits2_pos p) - 1))
    by (apply Z.pow_le_mono_r; lia).
  rewrite Z.pow_add_r in H0 by lia. change (2 ^ 1) with 2 in H0.
  assert (0 < 2 ^ b) by (apply Z.pow_pos_nonneg; lia). lia.
Qed.

(** Rounding a product that stays below [c] gives at most [c]: going up
    to the next double cannot pass a number that is a double itself at
    every exponent in question. *)
Lemma binary_round_aux_below (W : positive) (e c : Z) :
  e <= 0 -> 0 < c <= 2 ^ 10 -> Z.pos W < c * 2 ^ (- e) ->
  let r := binary_round_aux prec emax false (Z.pos W) e loc_Exact in
  spec_finite r = true /\ 0 <= scaled r <= c * 2 ^ 1074.
Proof.
  intros He Hc HW.
  assert (Hf : forall x, fexp prec emax x = Z.max (x - 53) (-1074))
    by reflexivity.
  (* the first shift *)
  assert (HWb : Z.pos W <= 2 ^ (10 - e)).
  { replace (10 - e) with (10 + (- e)) by lia.
    rewrite Z.pow_add_r by lia.
    assert (0 < 2 ^ (- e)) by (apply Z.pow_pos_nonneg; lia). nia. }
  pose proof (Zdigits2_bound (Z.pos W) (10 - e) ltac:(lia) ltac:(lia) HWb)
    as HdW.
  unfold binary_round_aux.
  pose proof (shr_fexp_floor (Z.pos W) e loc_Exact ltac:(lia)) as S1.
  destruct (shr_fexp prec emax (Z.pos W) e loc_Exact) as [r1 e1].
  cbv zeta in S1. rewrite Hf in S1.
  set (m2 := round_nearest_even (shr_m r1) (loc_of_shr_record r1)).
  assert (H1 : -1074 <= e1 <= 0 /\ 0 <= shr_m r1 < c * 2 ^ (- e1)).
  { destruct S1 as [Sa Sb].
    destruct (Z_le_gt_dec (Z.max (Zdigits2 (Z.pos W) + e - 53) (-1074) - e) 0)
      as [Hk | Hk].
    - destruct (Sa Hk) as [-> ->]. lia.
    - destruct (Sb ltac:(lia)) as [-> ->].
      set (k := Z.max (Zdigits2 (Z.pos W) + e - 53) (-1074) - e) in *.
      assert (Hp : 0 < 2 ^ k) by (apply Z.pow_pos_nonneg; lia).
      split; [lia|]. split; [apply Z.div_pos; lia|].
      apply Z.div_lt_upper_bound; [exact Hp|].
      replace (- e) with (k + (- (e + k))) in HW by lia.
      rewrite Z.pow_add_r in HW by lia. lia. }
  destruct H1 as [He1 Hm1].
  assert (H2 : 0 <= m2 <= c * 2 ^ (- e1)).
  { pose proof (round_nearest_even_near (shr_m r1) (loc_of_shr_record r1)).
    subst m2. lia. }
  (* the second shift *)
  assert (Hm2b : m2 <= 2 ^ (10 - e1)).
  { replace (10 - e1) with (10 + (- e1)) by lia.
    rewrite Z.pow_add_r by lia.
    assert (0 < 2 ^ (- e1)) by (apply Z.pow_pos_nonneg; lia). nia. }
  pose proof (Zdigits2_bound m2 (10 - e1) ltac:(lia) ltac:(lia) Hm2b) as Hd2.
  pose proof (shr_fexp_floor m2 e1 loc_Exact ltac:(lia)) as S2.
  destruct (shr_fexp prec emax m2 e1 loc_Exact) as [r2 e2].
  cbv zeta in S2. rewrite Hf in S2.
  assert (H3 : -1074 <= e2 <= 0 /\ 0 <= shr_m r2 /\
               shr_m r2 * 2 ^ (e2 + 1074) <= m2 * 2 ^ (e1 + 1074)).
  { destruct S2 as [Sa Sb].
    destruct (Z_le_gt_dec (Z.max (Zdigits2 m2 + e1 - 53) (-1074) - e1) 0)
      as [Hk | Hk].
    - destruct (Sa Hk) as [-> ->]. lia.
    - destruct (Sb ltac:(lia)) as [-> ->].
      set (k := Z.max (Zdigits2 m2 + e1 - 53) (-1074) - e1) in *.
      assert (Hp : 0 < 2 ^ k) by (apply Z.pow_pos_nonneg; lia).
      split; [lia|]. split; [apply Z.div_pos; lia|].
      replace (e1 + k + 1074) with (k + (e1 + 1074)) by lia.
      rewrite Z.pow_add_r by lia.
      assert (Hq : 0 <= 2 ^ (e1 + 1074)) by (apply Z.pow_nonneg; lia).
      pose proof (Z.mul_div_le m2 (2 ^ k) Hp).
      rewrite Z.mul_assoc. apply Z.mul_le_mono_nonneg_r; [exact Hq | lia]. }
  destruct H3 as (He2 & Hm3 & Hv).
  assert (Htop : m2 * 2 ^ (e1 + 1074) <= c * 2 ^ 1074).
  { assert (E : 2 ^ 1074 = 2 ^ (- e1) * 2 ^ (e1 + 1074))
      by (rewrite <- Z.pow_add_r by lia; f_equal; lia).
    rewrite E, Z.mul_assoc.
    apply Z.mul_le_mono_nonneg_r; [apply Z.pow_nonneg; lia | lia]. }
  destruct (shr_m r2) as [|p|p] eqn:E3; [| | lia].
  - cbn [spec_finite scaled].
    assert (0 < 2 ^ 1074) by reflexivity. split; [reflexivity | lia].
  - replace (Z.leb e2 (Z.sub emax prec)) with true
      by (symmetry; apply Z.leb_le; change (Z.sub emax prec) with 971; lia).
    cbn [spec_finite scaled]. split; [reflexivity|].
    assert (0 < 2 ^ (e2 + 1074)) by (apply Z.pow_pos_nonneg; lia). lia.
Qed.

(** A fraction below 1 times 60 is at most 60, and 0 times 60 is 0. *)
Lemma times_sixty (x : float) :
  double_finite x = true ->
  0 <= double_scaled x < degrees 1 ->
  double_finite (PrimFloat.mul x 60) = true /\
  0 <= double_scaled (PrimFloat.mul x 60) <= degrees 60 /\
  (double_scaled x = 0 -> double_scaled (PrimFloat.mul x 60) = 0).
Proof.
  unfold double_finite, double_scaled. rewrite mul_spec.
  pose proof (Prim2SF_valid x) as Hv.
  change (Prim2SF 60) with (S754_finite false 8444249301319680 (-47)).
  destruct (Prim2SF x) as [s | s | | s m e]; try discriminate;
    intros _ Hr; unfold SF64mul, SFmul.
  - cbn [spec_finite scaled]. unfold degrees. 
    assert (0 < 2 ^ 1074) by reflexivity. repeat split; lia.
  - cbn [valid_binary] in Hv. destruct (bounded_facts _ _ Hv) as (He & _).
    assert (Hp : 0 < 2 ^ (e + 1074)) by (apply Z.pow_pos_nonneg; lia).
    cbn [scaled] in Hr.
    destruct s; [lia|]. cbn [xorb].
    unfold degrees in Hr. rewrite Z.mul_1_l in Hr.
    assert (He0 : e < 0).
    { destruct (Z_lt_ge_dec e 0) as [H | H]; [exact H | exfalso].
      assert (2 ^ 1074 <= 2 ^ (e + 1074)) by (apply Z.pow_le_mono_r; lia).
      nia. }
    assert (Hm : Z.pos m < 2 ^ (- e)).
    { assert (E : 2 ^ 1074 = 2 ^ (- e) * 2 ^ (e + 1074))
        by (rewrite <- Z.pow_add_r by lia; f_equal; lia).
      rewrite E in Hr. destruct Hr as [_ Hr].
      apply Z.mul_lt_mono_pos_r in Hr; [exact Hr | exact Hp]. }
    destruct (binary_round_aux_below (m * 8444249301319680) (e + -47) 60)
      as [Hfin Hb].
    + lia.
    + split; [lia | apply Z.leb_le; reflexivity].
    + rewrite Pos2Z.inj_mul.
      replace (- (e + -47)) with (47 + (- e)) by lia.
      rewrite Z.pow_add_r by lia. change (2 ^ 47) with 140737488355328.
      lia.
    + split; [exact Hfin|]. split; [exact Hb|].
      intros H0. exfalso. cbn [scaled] in H0.
      assert (0 < Z.pos m * 2 ^ (e + 1074)) by (apply Z.mul_pos_pos; lia).
      lia.
Qed.

(** Whole numbers are doubles. *)
Lemma Z2double_scaled (n : Z) :
  0 <= n < 2 ^ 53 ->
  double_finite (Z2double n) = true /\ double_scaled (Z2double n) = degrees n.
Proof.
  intros Hn. unfold double_finite, double_scaled, Z2double.
  assert (Hv : valid_binary (binary_normalize prec emax n 0 false) = true).
  { destruct n as [|p|p]; [reflexivity | | lia].
    cbn [binary_normalize].
    destruct (binary_round_exact false p 0 ltac:(lia) ltac:(lia))
      as (m' & e' & -> & Hb & _). exact Hb. }
  rewrite (Prim2SF_SF2Prim _ Hv).
  apply (binary_normalize_exact n 0); lia.
Qed.

(** A double of at least 1 has an exponent of at least -52. *)
Lemma exponent_of_one_and_above (m : positive) (e : Z) :
  bounded prec emax m e = true ->
  2 ^ 1074 <= Z.pos m * 2 ^ (e + 1074) -> -52 <= e.
Proof.
  intros Hb H. destruct (bounded_facts _ _ Hb) as (He & Hm & _).
  destruct (Z_le_gt_dec (-52) e) as [Hd | Hd]; [exact Hd | exfalso].
  assert (Hp : 2 ^ (e + 1074) <= 2 ^ 1021) by (apply Z.pow_le_mono_r; lia).
  assert (Hq : 0 < 2 ^ (e + 1074)) by (apply Z.pow_pos_nonneg; lia).
  change (2 ^ 1074) with (2 ^ 53 * 2 ^ 1021) in H.
  assert (Z.pos m * 2 ^ (e + 1074) < 2 ^ 53 * 2 ^ 1021).
  { apply Z.lt_le_trans with (2 ^ 53 * 2 ^ (e + 1074)).
    - apply Z.mul_lt_mono_pos_r; assumption.
    - apply Z.mul_le_mono_nonneg_l; [lia | exact Hp]. }
  lia.
Qed.

(** *** The splitter on the whole range *)

(** The whole part of a double from 0 to 180 and what is left of it: the
    subtraction is exact. *)
Lemma whole_and_fraction (x : float) :
  double_finite x = true ->
  0 <= double_scaled x <= degrees 180 ->
  let q := double_to_int x in
  let y := PrimFloat.sub x (Z2double q) in
  q = double_scaled x / 2 ^ 1074 /\
  double_finite y = true /\
  double_scaled y = double_scaled x - degrees q.
Proof.
  intros Hf Hr q y.
  assert (K : 0 < 2 ^ 1074) by reflexivity.
  assert (Hq : q = double_scaled x / 2 ^ 1074).
  { apply double_to_int_whole_part; [exact Hf | exact Hr |].
    unfold double_scaled in Hr. pose proof (Prim2SF_valid x) as Hv.
    destruct (Prim2SF x) as [| | |[] m e]; try exact I.
    cbn [valid_binary] in Hv. destruct (bounded_facts _ _ Hv) as (He & _).
    cbn [scaled] in Hr.
    assert (0 < Z.pos m * 2 ^ (e + 1074))
      by (apply Z.mul_pos_pos; [lia | apply Z.pow_pos_nonneg; lia]).
    lia. }
  split; [exact Hq|].
  assert (Hq0 : 0 <= q <= 180).
  { rewrite Hq. unfold degrees in Hr. split.
    - apply Z.div_pos; lia.
    - apply Z.div_le_upper_bound; lia. }
  assert (Hlo : q * 2 ^ 1074 <= double_scaled x).
  { rewrite Hq, Z.mul_comm. apply Z.mul_div_le. exact K. }
  assert (Hhi : double_scaled x < (q + 1) * 2 ^ 1074).
  { rewrite Hq, Z.mul_comm.
    replace (double_scaled x / 2 ^ 1074 + 1)
      with (Z.succ (double_scaled x / 2 ^ 1074)) by lia.
    apply Z.mul_succ_div_gt. exact K. }
  destruct (Z2double_scaled q) as [Zf Zs].
  { split; [lia|]. apply Z.le_lt_trans with 180; [lia | reflexivity]. }
  subst y. unfold double_finite, double_scaled in *. rewrite sub_spec.
  pose proof (Prim2SF_valid x) as Vx.
  pose proof (Prim2SF_valid (Z2double q)) as Vq.
  unfold degrees in *.
  destruct (Prim2SF x) as [sx | sx | | sx mx ex]; try discriminate;
    destruct (Prim2SF (Z2double q)) as [sy | sy | | sy my ey];
    try discriminate; cbn [valid_binary] in Vx, Vq.
  - cbn [scaled] in *. unfold SF64sub, SFsub.
    split; [destruct sx, sy; reflexivity|].
    destruct sx, sy; cbn [scaled]; lia.
  - exfalso. cbn [scaled] in Zs, Hlo, Hhi.
    destruct (bounded_facts _ _ Vq) as (He & _).
    assert (0 < Z.pos my * 2 ^ (ey + 1074))
      by (apply Z.mul_pos_pos; [lia | apply Z.pow_pos_nonneg; lia]).
    destruct sy; lia.
  - unfold SF64sub, SFsub. cbn [scaled] in Zs. split; [reflexivity | lia].
  - assert (Px : 0 < Z.pos mx * 2 ^ (ex + 1074)).
    { destruct (bounded_facts _ _ Vx) as (He & _).
      apply Z.mul_pos_pos; [lia | apply Z.pow_pos_nonneg; lia]. }
    assert (Py : 0 < Z.pos my * 2 ^ (ey + 1074)).
    { destruct (bounded_facts _ _ Vq) as (He & _).
      apply Z.mul_pos_pos; [lia | apply Z.pow_pos_nonneg; lia]. }
    rewrite <- Zs.
    apply SF64sub_exact; [exact Vx | exact Vq |].
    cbn [scaled] in *.
    destruct sx; [lia|]. destruct sy; [lia|].
    assert (Ex : -52 <= ex)
      by (apply (exponent_of_one_and_above mx); [exact Vx | nia]).
    assert (Ey : -52 <= ey)
      by (apply (exponent_of_one_and_above my); [exact Vq | nia]).
    assert (Hp : 2 ^ 1022 <= 2 ^ (Z.min ex ey + 1074))
      by (apply Z.pow_le_mono_r; lia).
    change (2 ^ 1074) with (4503599627370496 * 2 ^ 1022) in *.
    change (2 ^ 53) with 9007199254740992.
    set (U := 2 ^ 1022) in *. assert (HU : 0 < U) by (subst U; reflexivity).
    set (V := 2 ^ (Z.min ex ey + 1074)) in *.
    set (A := Z.pos mx * 2 ^ (ex + 1074)) in *.
    set (B := Z.pos my * 2 ^ (ey + 1074)) in *.
    clearbody U V A B. nia.
Qed.

(** [rint] of a double from 0 to 60. *)
Lemma rint_bounds (x : float) :
  double_finite x = true ->
  0 <= double_scaled x <= degrees 60 ->
  0 <= Sample.rint x <= 60 /\
  (double_scaled x = 0 -> Sample.rint x = 0).
Proof.
  unfold double_finite, double_scaled, Sample.rint.
  pose proof (Prim2SF_valid x) as Hv.
  destruct (Prim2SF x) as [s | s | | s m e]; try discriminate;
    intros _ Hr; [split; [lia | reflexivity]|].
  cbn [valid_binary] in Hv. destruct (bounded_facts _ _ Hv) as (He & _).
  assert (Hp : 0 < 2 ^ (e + 1074)) by (apply Z.pow_pos_nonneg; lia).
  assert (Px : 0 < Z.pos m * 2 ^ (e + 1074))
    by (apply Z.mul_pos_pos; [lia | exact Hp]).
  cbn [scaled] in *. destruct s; [lia|].
  split; [| intros H0; lia].
  unfold degrees in Hr. cbv zeta.
  destruct (Z.leb_spec 0 e) as [H0 | H0].
  - assert (E : 2 ^ (e + 1074) = 2 ^ e * 2 ^ 1074)
      by (apply Z.pow_add_r; lia).
    rewrite E, Z.mul_assoc in Hr.
    assert (K : 0 < 2 ^ 1074) by reflexivity.
    assert (0 < 2 ^ e) by (apply Z.pow_pos_nonneg; lia).
    split; [lia|].
    destruct Hr as [_ Hr]. apply Z.mul_le_mono_pos_r in Hr; assumption.
  - set (k := 2 ^ (- e)).
    assert (Hk : 0 < k) by (apply Z.pow_pos_nonneg; lia).
    assert (E : 2 ^ 1074 = k * 2 ^ (e + 1074)).
    { subst k. rewrite <- Z.pow_add_r by lia. f_equal. lia. }
    rewrite E, Z.mul_assoc in Hr. destruct Hr as [_ Hr].
    apply Z.mul_le_mono_pos_r in Hr; [| exact Hp].
    pose proof (Z.div_mod (Z.pos m) k ltac:(lia)) as Hdm.
    pose proof (Z.mod_pos_bound (Z.pos m) k Hk) as Hmod.
    set (q := Z.pos m / k) in *. set (r := Z.pos m mod k) in *.
    assert (Hq : 0 <= q) by (apply Z.div_pos; lia).
    assert (Hq60 : q <= 60 /\ (q = 60 -> r = 0)) by (clearbody q r; nia).
    destruct (Z.ltb_spec (2 * r) k); [lia|].
    destruct (Z.ltb_spec k (2 * r)); [lia|].
    destruct (Z.even q); lia.
Qed.

(** The sample host's splitter keeps to the contract on every longitude
    [setSiteLongitude] can hand it. *)
Lemma sexagesimal_splits (value : float) :
  PrimFloat.leb (-180) value = true ->
  PrimFloat.leb value 180 = true ->
  let '(d, m, s) := Sample.sexagesimal value in splits_as value d m s.
Proof.
  intros Hlo Hhi.
  pose proof (sexagesimal_degrees_sign value Hlo Hhi) as Hsign.
  cbv zeta in Hsign. destruct Hsign as (Hneg & Hpos & _).
  destruct double_scaled_whole as (S180 & Sm180 & _).
  assert (Hf : double_finite value = true)
    by (apply (finite_between (-180) value 180); auto).
  rewrite leb_scaled in Hlo, Hhi by auto.
  rewrite Sm180 in Hlo. rewrite S180 in Hhi. apply Z.leb_le in Hlo, Hhi.
  destruct (double_scaled_abs value) as (Af & As & _). rewrite Hf in Af.
  assert (K : 0 < 2 ^ 1074) by reflexivity.
  assert (Ar : 0 <= double_scaled (PrimFloat.abs value) <= degrees 180)
    by (unfold degrees in *; lia).
  revert Hneg Hpos. unfold Sample.sexagesimal.
  set (a := PrimFloat.abs value) in *.
  destruct (whole_and_fraction a Af Ar) as (Hd0 & F1 & X1).
  set (d0 := double_to_int a) in *.
  set (y1 := PrimFloat.sub a (Z2double d0)) in *.
  assert (R1 : 0 <= d0 <= 180 /\ 0 <= double_scaled y1 < degrees 1 /\
               (d0 = 180 -> double_scaled y1 = 0)).
  { rewrite X1. unfold degrees in *.
    pose proof (Z.mul_div_le (double_scaled a) (2 ^ 1074) K).
    pose proof (Z.mul_succ_div_gt (double_scaled a) (2 ^ 1074) K).
    rewrite <- Hd0 in *. clearbody d0. lia. }
  destruct R1 as (Rd & Ry1 & Rtop).
  destruct (times_sixty y1 F1 Ry1) as (F2 & Rf & Zf).
  set (f := PrimFloat.mul y1 60) in *.
  assert (Rf' : 0 <= double_scaled f <= degrees 180)
    by (unfold degrees in *; lia).
  destruct (whole_and_fraction f F2 Rf') as (Hm0 & F3 & X2).
  set (m0 := double_to_int f) in *.
  set (y2 := PrimFloat.sub f (Z2double m0)) in *.
  assert (R2 : 0 <= m0 <= 60 /\ 0 <= double_scaled y2 < degrees 1 /\
               (m0 = 60 -> double_scaled y2 = 0) /\
               (double_scaled f = 0 -> m0 = 0 /\ double_scaled y2 = 0)).
  { rewrite X2. unfold degrees in *.
    pose proof (Z.mul_div_le (double_scaled f) (2 ^ 1074) K).
    pose proof (Z.mul_succ_div_gt (double_scaled f) (2 ^ 1074) K).
    rewrite <- Hm0 in *. clearbody m0. lia. }
  destruct R2 as (Rm & Ry2 & Rm60 & Rf0).
  destruct (times_sixty y2 F3 Ry2) as (F4 & Rg & Zg).
  set (g := PrimFloat.mul y2 60) in *.
  destruct (rint_bounds g F4 Rg) as (Rs & Zs).
  set (s0 := Sample.rint g) in *.
  clearbody s0 m0 d0.
  intros Hneg Hpos. unfold splits_as.
  destruct (Z.eqb_spec s0 60) as [Es | Es].
  - (* the seconds round up to a minute *)
    assert (Hm59 : m0 <= 59).
    { destruct (Z.eq_dec m0 60) as [E | E]; [|lia].
      specialize (Zs (Zg (Rm60 E))). lia. }
    destruct (Z.eqb_spec (m0 + 1) 60) as [Em | Em];
      cbn [fst snd] in Hneg, Hpos |- *.
    + assert (Hd179 : d0 <= 179).
      { destruct (Z.eq_dec d0 180) as [E | E]; [|lia].
        destruct (Rf0 (Zf (Rtop E))) as [Hm _]. lia. }
      destruct (PrimFloat.ltb value 0); repeat split; try lia; assumption.
    + destruct (PrimFloat.ltb value 0); repeat split; try lia; assumption.
  - destruct (Z.eqb_spec m0 60) as [Em | Em];
      cbn [fst snd] in Hneg, Hpos |- *.
    + assert (Hd179 : d0 <= 179).
      { destruct (Z.eq_dec d0 180) as [E | E]; [|lia].
        destruct (Rf0 (Zf (Rtop E))) as [Hm _]. lia. }
      destruct (PrimFloat.ltb value 0); repeat split; try lia; assumption.
    + destruct (PrimFloat.ltb value 0); repeat split; try lia; assumption.
Qed.

(** *** The longitude command, digit by digit *)

(** A property checked on every number below [n]. *)
Lemma checked_below (P : Z -> bool) (n : nat) :
  forallb P (map Z.of_nat (seq 0 n)) = true ->
  forall z, 0 <= z < Z.of_nat n -> P z = true.
Proof.
  intros H z Hz. rewrite forallb_forall in H. apply H.
  apply in_map_iff. exists (Z.to_nat z). split; [lia|].
  apply in_seq. lia.
Qed.

(** [%04d] of a negative number of up to three digits: the minus sign
    and the digits, padded with zeros. *)
Lemma format_degrees_negative (d : Z) :
  -999 <= d <= -1 ->
  format_num false true 4 true d = String "-" (three_digits (- d)).
Proof.
  intros H.
  pose proof (checked_below
    (fun k => String.eqb (format_num false true 4 true (- k - 1))
                (String "-" (three_digits (k + 1)))) 999
    ltac:(vm_compute; reflexivity) (- d - 1) ltac:(lia)) as E.
  cbv beta in E. apply String.eqb_eq in E.
  replace (- (- d - 1) - 1) with d in E by lia.
  replace (- d - 1 + 1) with (- d) in E by lia. exact E.
Qed.

Lemma format_degrees_positive (d : Z) :
  0 <= d <= 999 ->
  format_num false true 3 true d = three_digits d.
Proof.
  intros H.
  pose proof (checked_below
    (fun k => String.eqb (format_num false true 3 true k) (three_digits k))
    1000 ltac:(vm_compute; reflexivity) d ltac:(lia)) as E.
  apply String.eqb_eq in E. exact E.
Qed.

(** [%02d] and [%02u] below 100. *)
Lemma format_minutes (signed : bool) (m : Z) :
  0 <= m <= 99 ->
  format_num false true 2 signed m = two_digits m.
Proof.
  intros H.
  pose proof (checked_below
    (fun k => String.eqb (format_num false true 2 signed k)
                (two_digits k))
    100 ltac:(destruct signed; vm_compute; reflexivity) m ltac:(lia))
    as E.
  apply String.eqb_eq in E. exact E.
Qed.

Lemma longitude_command_negative (d m s : Z) :
  -999 <= d <= -1 -> 0 <= m <= 99 -> 0 <= s <= 99 ->
  snprintf 32 ":Sg%04d*%02u:%02u#" [AInt d; AInt (Z.abs m); AInt (Z.abs s)] =
  longitude_command true (- d) m s.
Proof.
  intros Hd Hm Hs.
  rewrite (Z.abs_eq m), (Z.abs_eq s) by lia.
  unfold snprintf, sprintf.
  set (ds := print_format _ _). vm_compute in ds. subst ds.
  cbn [print].
  rewrite (format_degrees_negative d Hd), (format_minutes false m Hm),
    (format_minutes false s Hs).
  reflexivity.
Qed.

Lemma longitude_command_positive (d m s : Z) :
  0 <= d <= 999 -> 0 <= m <= 99 -> 0 <= s <= 99 ->
  snprintf 32 ":Sg+%03d*%02d:%02d#" [AInt d; AInt m; AInt s] =
  longitude_command false d m s.
Proof.
  intros Hd Hm Hs.
  unfold snprintf, sprintf.
  set (ds := print_format _ _). vm_compute in ds. subst ds.
  cbn [print].
  rewrite (format_degrees_positive d Hd), (format_minutes true m Hm),
    (format_minutes true s Hs).
  reflexivity.
Qed.

(** What [setSiteLongitude] writes, given the components its longitude
    splits into. *)
Lemma setSiteLongitude_command {host : Host} (longitude : float)
  (st : Driver) (d m s : Z) :
  let shifted := normalise_longitude longitude in
  getSexComponents shifted = (d, m, s) ->
  splits_as shifted d m s ->
  let sent command :=
    written (trace (port (snd (setSiteLongitude longitude st)))) =
    written (trace (port st)) ++ [command] in
  fst (setSiteLongitude longitude st) = line_up (port st) /\
  (PrimFloat.leb shifted (-1) = true ->
   sent (snprintf 32 ":Sg%04d*%02u:%02u#"
           [AInt d; AInt (Z.abs m); AInt (Z.abs s)]) /\
   sent (longitude_command true (- d) m s)) /\
  (PrimFloat.leb 0 shifted = true ->
   sent (snprintf 32 ":Sg+%03d*%02d:%02d#" [AInt d; AInt m; AInt s]) /\
   sent (longitude_command false d m s)).
Proof.
  intros shifted Hc (Hd & Hm & Hs & Hneg & Hpos) sent.
  assert (Hrun :
    fst (setSiteLongitude longitude st) = line_up (port st) /\
    sent (if (d <? 0) || (m <? 0) || (s <? 0)
          then snprintf 32 ":Sg%04d*%02u:%02u#"
                 [AInt d; AInt (Z.abs m); AInt (Z.abs s)]
          else snprintf 32 ":Sg+%03d*%02d:%02d#"
                 [AInt d; AInt m; AInt s])).
  { subst sent. unfold setSiteLongitude. fold shifted. rewrite Hc.
    unfold bind.
    match goal with
    | |- context [sendQuery ?c _ _ _] => set (command := c)
    end.
    pose proof (sendQuery_result command "#" AVALON_TIMEOUT st) as Hr.
    pose proof (sendQuery_written command "#" AVALON_TIMEOUT st) as Hw.
    destruct (sendQuery command "#" AVALON_TIMEOUT st)
      as [[result response] st'].
    cbn [fst snd ret] in *. split; assumption. }
  destruct Hrun as [Hr Hw]. split; [exact Hr|]. split.
  - intros Hv. specialize (Hneg Hv).
    replace ((d <? 0) || (m <? 0) || (s <? 0)) with true in Hw
      by (symmetry; apply orb_true_iff; left; apply orb_true_iff; left;
          apply Z.ltb_lt; lia).
    split; [exact Hw|].
    rewrite <- (longitude_command_negative d m s) by lia. exact Hw.
  - intros Hv. specialize (Hpos Hv).
    replace ((d <? 0) || (m <? 0) || (s <? 0)) with false in Hw
      by (symmetry; rewrite !orb_false_iff; repeat split;
          apply Z.ltb_ge; lia).
    split; [exact Hw|].
    rewrite <- (longitude_command_positive d m s) by lia. exact Hw.
Qed.

(* ===================================================================== *)
(** ** Properties of the commands built on the query engine *)
(* ===================================================================== *)

Section Commands.
Context {host : Host}.

(** *** Pier side *)

(** C10.  When the reply to [:X39#] is [P] followed by a letter,
    [syncSideOfPier] succeeds and stores the opposite side: [W] gives
    east, [E] gives west, [X] gives unknown; any other letter leaves the
    stored side as it was.  The clients are told when the side changed. *)
Theorem syncSideOfPier_inverts_reply (st st1 : Driver) (c : ascii)
  (rest : string) :
  sendQuery ":X39#" "#" AVALON_TIMEOUT st =
    ((true, String "P" (String c rest)), st1) ->
  let old := currentPierSide (scope st) in
  let new :=
    if Ascii.eqb c "W" then PIER_EAST
    else if Ascii.eqb c "E" then PIER_WEST
    else if Ascii.eqb c "X" then PIER_UNKNOWN
    else old in
  fst (syncSideOfPier st) = true /\
  currentPierSide (scope (snd (syncSideOfPier st))) = new /\
  client (snd (syncSideOfPier st)) =
    client st ++
    (if TelescopePierSide_eqb new old then [] else [MsgPierSideSP new]).
Proof.
  intros H. cbv zeta.
  destruct (sendQuery_io_only ":X39#" "#" AVALON_TIMEOUT st)
    as (Hs & _ & _ & _ & _ & Hc).
  rewrite H in Hs, Hc. cbn [snd] in Hs, Hc.
  unfold syncSideOfPier, bind. rewrite H. cbn [negb].
  change (sscanf (String "P" (String c rest)) "P%c") with (1, [VChr c]).
  cbn [Z.eqb Pos.eqb].
  destruct c as [[] [] [] [] [] [] [] []];
    cbn [Ascii.eqb Bool.eqb andb]; unfold setPierSide, bind, gets, ret,
      modify_scope, modify, IDSet;
    cbn [fst snd scope client with_scope with_client currentPierSide
         set_currentPierSide];
    rewrite ?Hs, ?Hc;
    destruct (currentPierSide (scope st)) eqn:Hold; cbn;
    rewrite ?Hs, ?Hc, ?Hold, ?app_nil_r;
    repeat split; reflexivity.
Qed.

(** *** Tracking adjustment *)

(** C6.  An adjustment above 5.00 or below -5.00 is refused before
    anything is written: the call returns failure and the driver, serial
    line included, is unchanged.  Exactly 5.00 and exactly -5.00 pass the
    check; the value times 100 is printed with [%+04i], sign and three
    zero-padded digits, into [:X41+500#] and [:X41-500#], which is written
    to the mount, and the call succeeds when that write does. *)
Theorem setTrackingAdjustment_range_check :
  (forall (adjustRA : float) (st : Driver),
     PrimFloat.ltb 5 adjustRA = true \/ PrimFloat.ltb adjustRA (-5) = true ->
     setTrackingAdjustment adjustRA st = (false, st)) /\
  (forall st : Driver,
     fst (setTrackingAdjustment 5 st) = line_up (port st) /\
     written (trace (port (snd (setTrackingAdjustment 5 st)))) =
       written (trace (port st)) ++ [":X41+500#"%string]) /\
  (forall st : Driver,
     fst (setTrackingAdjustment (-5) st) = line_up (port st) /\
     written (trace (port (snd (setTrackingAdjustment (-5) st)))) =
       written (trace (port st)) ++ [":X41-500#"%string]).
Proof.
  split; [|split].
  - intros adjustRA st H. unfold setTrackingAdjustment.
    destruct (PrimFloat.ltb 5 adjustRA); [reflexivity|].
    destruct H as [H|H]; [discriminate H|]. rewrite H. reflexivity.
  - intros st.
    change (setTrackingAdjustment 5 st)
      with (bind (sendQuery ":X41+500#" "#" 0)
              (fun '(ok, _) => if negb ok then ret false else ret true) st).
    unfold bind.
    pose proof (sendQuery_result ":X41+500#" "#" 0 st) as Hr.
    pose proof (sendQuery_written ":X41+500#" "#" 0 st) as Hw.
    destruct (sendQuery ":X41+500#" "#" 0 st) as [[ok response] st'].
    cbn [fst snd] in Hr, Hw. rewrite <- Hr, <- Hw.
    destruct ok; split; reflexivity.
  - intros st.
    change (setTrackingAdjustment (-5) st)
      with (bind (sendQuery ":X41-500#" "#" 0)
              (fun '(ok, _) => if negb ok then ret false else ret true) st).
    unfold bind.
    pose proof (sendQuery_result ":X41-500#" "#" 0 st) as Hr.
    pose proof (sendQuery_written ":X41-500#" "#" 0 st) as Hw.
    destruct (sendQuery ":X41-500#" "#" 0 st) as [[ok response] st'].
    cbn [fst snd] in Hr, Hw. rewrite <- Hr, <- Hw.
    destruct ok; split; reflexivity.
Qed.

(** *** Coordinates *)


(** *** The poll cycle *)

Ltac preserves_step :=
  first
    [ apply preserves_ret; typeclasses eauto
    | apply preserves_gets; typeclasses eauto
    | apply preserves_bind; [typeclasses eauto | | intros ?]
    | match goal with
      | |- preserves _ (match ?x with _ => _ end) => destruct x
      | |- preserves _ (if ?b then _ else _) => destruct b
      end ].

Lemma getMotorStatus_io_only : preserves io_only getMotorStatus.
Proof.
  unfold getMotorStatus.
  apply preserves_bind;
    [typeclasses eauto | apply sendQuery_io_only | intros [ok response]].
  repeat preserves_step.
Qed.

Lemma getParkHomeStatus_io_only (status : string) :
  preserves io_only (getParkHomeStatus status).
Proof.
  unfold getParkHomeStatus.
  apply preserves_bind;
    [typeclasses eauto | apply sendQuery_io_only | intros [ok response]].
  repeat preserves_step.
Qed.

Lemma getTrackingAdjustment_io_only : preserves io_only getTrackingAdjustment.
Proof.
  unfold getTrackingAdjustment.
  apply preserves_bind;
    [typeclasses eauto | apply sendQuery_io_only | intros [ok response]].
  repeat preserves_step.
Qed.

Lemma getEqCoordinates_io_only : preserves io_only getEqCoordinates.
Proof.
  unfold getEqCoordinates.
  apply preserves_bind;
    [typeclasses eauto | apply sendQuery_io_only | intros [ok response]].
  repeat preserves_step.
Qed.

Lemma io_only_preserves_position {A : Type} (c : M A) :
  preserves io_only c -> preserves keeps_position c.
Proof. intros H st. apply io_only_keeps_position, H. Qed.

Lemma modify_keeps_position (f : Driver -> Driver) :
  (forall st, keeps_position st (f st)) ->
  preserves keeps_position (modify f).
Proof. apply preserves_modify. Qed.

(** Everything before the coordinates are fetched leaves them, and the
    pier side, alone. *)
Lemma evaluate_status_keeps_position : preserves keeps_position evaluate_status.
Proof.
  unfold evaluate_status, SetParked, Telescope_SetParked, modify_scope, IDSet.
  repeat first
    [ apply io_only_preserves_position;
      first [ apply getMotorStatus_io_only
            | apply getParkHomeStatus_io_only
            | apply getTrackingAdjustment_io_only ]
    | match goal with
      | |- preserves _ (modify _) =>
          apply modify_keeps_position; intros ?; unfold keeps_position; cbn;
          repeat split
      end
    | preserves_step ].
Qed.

Ltac break_in H :=
  repeat match type of H with
         | context [match ?x with _ => _ end] => destruct x eqn:?
         end.

(** A poll cycle that gets as far as the coordinates has just published
    the tracking adjustment. *)
Lemma evaluate_status_publishes (st st1 : Driver)
  (newTrackState : TelescopeStatus) :
  evaluate_status st = (Some newTrackState, st1) ->
  exists earlier,
    client st1 =
    earlier ++ [MsgTrackingAdjustmentNP (TrackingAdjustmentNP (scope st1))].
Proof.
  unfold evaluate_status, bind, gets, ret, modify_scope, IDSet, modify.
  intros H. break_in H; inversion H; subst; cbn; eexists; reflexivity.
Qed.

(** [evaluate_status] is its steps in a row: once the motor and park
    status are read, the park evaluation, the tracking adjustment and its
    publication. *)
Lemma evaluate_status_steps (st sa sb : Driver) (x y : Z) (code : string) :
  motor_status_read st x y sa ->
  getParkHomeStatus EmptyString sa = ((true, code), sb) ->
  evaluate_status st =
  (newTrackState <- evaluate_parking x y code ;;
   adjustment <- getTrackingAdjustment ;;
   publish_adjustment adjustment ;;
   ret (Some newTrackState)) sb.
Proof.
  intros Hm Hp.
  unfold evaluate_status.
  unfold bind at 1 2.
  destruct Hm as [Hm | (s0 & H0 & Hm)].
  - rewrite Hm. unfold ret at 1. cbv beta iota.
    unfold bind at 1. rewrite Hp. cbn [negb]. cbv beta iota.
    unfold evaluate_parking, publish_adjustment, bind, gets, ret.
    repeat match goal with
    | |- context [match ?c with pair _ _ => _ end] => destruct c
    end; reflexivity.
  - rewrite H0. cbv beta iota. rewrite Hm. cbv beta iota.
    unfold bind at 1. rewrite Hp. cbn [negb]. cbv beta iota.
    unfold evaluate_parking, publish_adjustment, bind, gets, ret.
    repeat match goal with
    | |- context [match ?c with pair _ _ => _ end] => destruct c
    end; reflexivity.
Qed.

(** What the park evaluation leaves behind, field by field. *)
Lemma evaluate_parking_effect (x y : Z) (code : string) (s : Driver) :
  let s' := snd (evaluate_parking x y code s) in
  (port s' = port s /\ motion s' = motion s /\ guide s' = guide s /\
   connected s' = connected s /\ simulation s' = simulation s /\
   focuserAux1 s' = focuserAux1 s) /\
  keeps_position s s' /\
  TrackState (scope s') =
    (if parks code then SCOPE_PARKED
     else if was_parked s then SCOPE_IDLE else TrackState (scope s)) /\
  IsParked (scope s') =
    (if xorb (parks code) (was_parked s) then parks code
     else IsParked (scope s)) /\
  MountGotoHomeSP (scope s') =
    (if completes_goto_home x y code s then IPS_OK
     else MountGotoHomeSP (scope s)) /\
  TrackingAdjustmentNP (scope s') = TrackingAdjustmentNP (scope s) /\
  client s' =
    client s ++
    (if xorb (parks code) (was_parked s) then [MsgParkSP (parks code)]
     else []) ++
    (if completes_goto_home x y code s then [MsgMountGotoHomeSP IPS_OK]
     else []).
Proof.
  unfold evaluate_parking, completes_goto_home, parks, was_parked,
    SetParked, Telescope_SetParked, keeps_position,
    bind, gets, ret, modify_scope, IDSet, modify.
  destruct (String.eqb code "2");
    destruct (TrackState (scope s)) eqn:Ets;
    cbn [TelescopeStatus_eqb negb xorb andb]; cbv beta iota; cbn [snd fst];
    try (destruct ((x =? 0) && (y =? 0)); cbn [andb]; cbv beta iota;
         [ cbn [scope MountGotoHomeSP set_TrackState set_IsParked with_scope
                with_client];
           destruct (IPState_eqb (MountGotoHomeSP (scope s)) IPS_BUSY)
         | destruct ((x =? 1) && (y =? 0)) ]);
    cbn; rewrite ?app_nil_r, <- ?app_assoc, ?Ets; repeat split; reflexivity.
Qed.

(** And what storing the adjustment leaves behind. *)
Lemma publish_adjustment_effect (adjustment : option float) (s : Driver) :
  let s' := snd (publish_adjustment adjustment s) in
  (port s' = port s /\ motion s' = motion s /\ guide s' = guide s /\
   connected s' = connected s /\ simulation s' = simulation s /\
   focuserAux1 s' = focuserAux1 s) /\
  keeps_position s s' /\
  TrackState (scope s') = TrackState (scope s) /\
  IsParked (scope s') = IsParked (scope s) /\
  MountGotoHomeSP (scope s') = MountGotoHomeSP (scope s) /\
  TrackingAdjustmentNP (scope s') =
    match adjustment with
    | Some raCorrection => mkNumber IPS_OK raCorrection
    | None => mkNumber IPS_ALERT (nv_value (TrackingAdjustmentNP (scope s)))
    end /\
  client s' =
    client s ++ [MsgTrackingAdjustmentNP (TrackingAdjustmentNP (scope s'))].
Proof.
  unfold publish_adjustment, keeps_position, bind, gets, ret, modify_scope,
    IDSet, modify.
  destruct adjustment; cbn; repeat split; reflexivity.
Qed.

Lemma motor_status_read_io_only (st sa : Driver) (x y : Z) :
  motor_status_read st x y sa -> io_only st sa.
Proof.
  intros [H | (s0 & H0 & H)].
  - pose proof (getMotorStatus_io_only st) as Hio. rewrite H in Hio. exact Hio.
  - pose proof (getMotorStatus_io_only st) as H1.
    pose proof (getMotorStatus_io_only s0) as H2.
    rewrite H0 in H1. rewrite H in H2. cbn [snd] in H1, H2.
    transitivity s0; assumption.
Qed.

(** C2, as amended.  When the poll cycle has read the motor and
    park status and the coordinates then cannot be fetched or decoded,
    [ReadScopeStatus] returns failure, and the coordinates ([currentRA],
    [currentDEC], the published pair) and the pier side are what they
    were before the cycle.  The rest of the status is not: a park code 2
    on an unparked mount has parked it, any other code on a parked mount
    has unparked it, each with its message to the clients (the track state
    computed from the motors, however, is not stored); a goto-home in
    progress is completed when both motors have stopped; and the
    tracking adjustment vector holds the value fetched in this cycle, or
    the old value marked as alert when fetching failed, and is the last
    message sent. *)
Theorem failed_coordinates_keep_position (st sa sb sd se : Driver)
  (x y : Z) (code : string) (adjustment : option float) :
  connected st = true ->
  simulation st = false ->
  motor_status_read st x y sa ->
  getParkHomeStatus EmptyString sa = ((true, code), sb) ->
  getTrackingAdjustment (snd (evaluate_parking x y code sb)) =
    (adjustment, sd) ->
  getEqCoordinates (snd (publish_adjustment adjustment sd)) = (None, se) ->
  ReadScopeStatus st = (false, se) /\
  keeps_position st se /\
  TrackState (scope se) =
    (if parks code then SCOPE_PARKED
     else if was_parked st then SCOPE_IDLE else TrackState (scope st)) /\
  IsParked (scope se) =
    (if xorb (parks code) (was_parked st) then parks code
     else IsParked (scope st)) /\
  MountGotoHomeSP (scope se) =
    (if completes_goto_home x y code st then IPS_OK
     else MountGotoHomeSP (scope st)) /\
  TrackingAdjustmentNP (scope se) =
    match adjustment with
    | Some raCorrection => mkNumber IPS_OK raCorrection
    | None => mkNumber IPS_ALERT (nv_value (TrackingAdjustmentNP (scope st)))
    end /\
  client se =
    client st ++
    (if xorb (parks code) (was_parked st) then [MsgParkSP (parks code)]
     else []) ++
    (if completes_goto_home x y code st then [MsgMountGotoHomeSP IPS_OK]
     else []) ++
    [MsgTrackingAdjustmentNP (TrackingAdjustmentNP (scope se))].
Proof.
  intros Hc Hs Hm Hp Ha Hq.
  pose proof (motor_status_read_io_only _ _ _ _ Hm) as Ia.
  pose proof (getParkHomeStatus_io_only EmptyString sa) as Ib.
  rewrite Hp in Ib. cbn [snd] in Ib.
  assert (Isb : io_only st sb) by (transitivity sa; assumption).
  clear Ia Ib.
  pose proof (evaluate_parking_effect x y code sb) as Ec.
  pose proof (getTrackingAdjustment_io_only
                (snd (evaluate_parking x y code sb))) as Id.
  rewrite Ha in Id. cbn [snd] in Id.
  pose proof (publish_adjustment_effect adjustment sd) as Ee.
  pose proof (getEqCoordinates_io_only
                (snd (publish_adjustment adjustment sd))) as Ie.
  rewrite Hq in Ie. cbn [snd] in Ie.
  split.
  - unfold ReadScopeStatus. unfold bind at 1, gets at 1.
    rewrite Hc. cbn [negb]. cbv beta iota.
    unfold bind at 1, gets at 1. rewrite Hs. cbv beta iota.
    unfold bind at 1.
    rewrite (evaluate_status_steps st sa sb x y code Hm Hp).
    unfold bind at 1.
    destruct (evaluate_parking x y code sb) as [newTrackState sc].
    cbn [snd] in Ha. unfold bind at 1. rewrite Ha.
    unfold bind at 1.
    destruct (publish_adjustment adjustment sd) as [[] sd'].
    cbn [snd] in Hq. unfold ret at 1. cbv beta iota.
    unfold bind at 1. rewrite Hq. reflexivity.
  - cbv zeta in Ec, Ee.
    set (sc := snd (evaluate_parking x y code sb)) in *.
    set (sd' := snd (publish_adjustment adjustment sd)) in *.
    clearbody sc sd'.
    unfold completes_goto_home, was_parked, keeps_position in *.
    destruct Isb as (Hsb & _ & _ & _ & _ & Hcb).
    destruct Id as (Hsd & _ & _ & _ & _ & Hcd).
    destruct Ie as (Hse & _ & _ & _ & _ & Hce).
    destruct Ec as (_ & (c1 & c2 & c3 & c4) & c5 & c6 & c7 & c8 & c9).
    destruct Ee as (_ & (e1 & e2 & e3 & e4) & e5 & e6 & e7 & e8 & e9).
    rewrite Hsb in c1, c2, c3, c4, c5, c6, c7, c8, c9. rewrite Hcb in c9.
    rewrite <- Hsd in c1, c2, c3, c4, c5, c6, c7, c8. rewrite <- Hcd in c9.
    rewrite c1 in e1. rewrite c2 in e2. rewrite c3 in e3. rewrite c4 in e4.
    rewrite c5 in e5. rewrite c6 in e6. rewrite c7 in e7.
    rewrite c8 in e8. rewrite c9 in e9.
    rewrite <- Hse in e1, e2, e3, e4, e5, e6, e7, e8, e9.
    rewrite <- Hce in e9. rewrite <- !app_assoc in e9.
    repeat split; assumption.
Qed.

(** *** Site longitude *)

(** C7, as amended.  For a longitude within 540 degrees either way,
    [setSiteLongitude] shifts it once and without rounding: 360 is
    subtracted when it exceeds 180, 360 is added when it is below -180,
    and a longitude that is neither is passed on as it is, -180 included;
    the result lies in the closed range from -180 to 180.  The command is
    then chosen from the sexagesimal components: when the shifted value
    is -1 degree or below, so that its degrees are negative, the form
    [:Sg%04d*%02u:%02u#] with absolute minutes and seconds is written,
    which reads [:Sg-DDD*MM:SS#]; when the shifted value is 0 or above,
    the form [:Sg+%03d*%02d:%02d#], which reads [:Sg+DDD*MM:SS#].  This
    holds for every host whose [getSexComponents] keeps to [splits_as] at
    the shifted value, and so for the sample host, whose splitter keeps
    to it everywhere.  The call succeeds when the write does. *)
Theorem setSiteLongitude_shifts_then_branches (longitude : float)
  (st : Driver) :
  PrimFloat.leb (-540) longitude = true ->
  PrimFloat.leb longitude 540 = true ->
  let shifted := normalise_longitude longitude in
  (double_finite shifted = true /\
   double_scaled shifted =
     double_scaled longitude + longitude_shift longitude /\
   PrimFloat.leb (-180) shifted = true /\
   PrimFloat.leb shifted 180 = true) /\
  (forall d m s : Z,
     getSexComponents shifted = (d, m, s) ->
     splits_as shifted d m s ->
     let sent command :=
       written (trace (port (snd (setSiteLongitude longitude st)))) =
       written (trace (port st)) ++ [command] in
     fst (setSiteLongitude longitude st) = line_up (port st) /\
     (PrimFloat.leb shifted (-1) = true ->
      sent (snprintf 32 ":Sg%04d*%02u:%02u#"
              [AInt d; AInt (Z.abs m); AInt (Z.abs s)]) /\
      sent (longitude_command true (- d) m s)) /\
     (PrimFloat.leb 0 shifted = true ->
      sent (snprintf 32 ":Sg+%03d*%02d:%02d#" [AInt d; AInt m; AInt s]) /\
      sent (longitude_command false d m s))) /\
  (forall d m s : Z,
     Sample.sexagesimal shifted = (d, m, s) ->
     let sent command :=
       written (trace (port (snd
         (@setSiteLongitude Sample.host longitude st)))) =
       written (trace (port st)) ++ [command] in
     (PrimFloat.leb shifted (-1) = true ->
      sent (longitude_command true (- d) m s)) /\
     (PrimFloat.leb 0 shifted = true ->
      sent (longitude_command false d m s))).
Proof.
  intros Hlo Hhi shifted.
  destruct (normalise_longitude_range longitude Hlo Hhi) as (Ha & Hb).
  split; [|split].
  - destruct (normalise_longitude_exact longitude Hlo Hhi) as (Hf & Hs & _).
    repeat split; assumption.
  - intros d m s Hc Hs. apply setSiteLongitude_command; assumption.
  - intros d m s Hc sent.
    pose proof (sexagesimal_splits shifted Ha Hb) as Hs. rewrite Hc in Hs.
    destruct (@setSiteLongitude_command Sample.host
                longitude st d m s Hc Hs) as (_ & Hneg & Hpos).
    split; intros Hv; [apply (Hneg Hv) | apply (Hpos Hv)].
Qed.

End Commands.

(* ===================================================================== *)
(** ** Properties of the rest of the command catalogue *)
(* ===================================================================== *)

(** Running [sscanf] on a string whose head is known: read the format,
    run the first directive, split on the ones that meet the unknown
    tail. *)
Ltac scan_format_now :=
  unfold sscanf;
  match goal with |- context [scan_format ?n ?f] =>
    let ds := eval vm_compute in (scan_format n f) in
    change (scan_format n f) with ds
  end;
  cbn [scan].

Ltac run_head :=
  match goal with |- context [run_directive ?dv ?s] =>
    let r := eval vm_compute in (run_directive dv s) in
    change (run_directive dv s) with r
  end;
  cbv beta iota.

Ltac run_rest :=
  repeat match goal with
         | |- context [match run_directive ?dv ?s with _ => _ end] =>
             destruct (run_directive dv s) as [[?|] ?| |]
         end.


Section CatalogProperties.
Context {host : Host} {almanac : Almanac}.

(** *** Queries on a quiet line *)

Lemma frame_of_hash (payload : string) : frame_of "#" payload = payload.
Proof.
  unfold frame_of. induction payload as [|c payload IH]; [reflexivity|].
  cbn [String.append drop_final_hash]. rewrite IH.
  destruct payload; reflexivity.
Qed.

Lemma not_a_telegram (c : ascii) (s : string) :
  c <> ":"%char -> is_telegram (String c s) = false.
Proof.
  intros Hc. apply Ascii.eqb_neq in Hc. rewrite Ascii.eqb_sym in Hc.
  unfold is_telegram, sscanf.
  set (ds := scan_format _ _). vm_compute in ds. subst ds.
  cbn [scan run_directive]. rewrite Hc. reflexivity.
Qed.

(** The mount answers the command with one section, in time. *)
Lemma sendQuery_replied (cmd : string) (e : ascii) (w : Z) (st : Driver)
  (d : Z) (reply : string) :
  buffered (inbox (port st)) ->
  answer (port st) = Some [(d, reply)] ->
  d <= w ->
  is_telegram (frame_of e reply) = false ->
  exists st',
    sendQuery cmd e w st = ((true, frame_of e reply), st') /\
    inbox (port st') = [] /\
    device (port st') = tl (device (port st)) /\
    io_only st st'.
Proof.
  intros Hb Ha Hd Hr.
  assert (E : exists st',
             sendQuery cmd e w st = ((true, frame_of e reply), st') /\
             inbox (port st') = [] /\
             device (port st') = tl (device (port st))).
  { rewrite sendQuery_unfold. cbv zeta.
    rewrite (drain_buffered _ Hb). cbn [snd].
    match goal with |- context [transmit cmd ?s] => set (st1 := s) end.
    assert (Ha1 : answer (port st1) = Some [(d, reply)]) by exact Ha.
    rewrite (transmit_ok _ _ _ Ha1). cbn [fst snd].
    match goal with |- context [read_reply _ e w false _ ?s] =>
      set (st2 := s) end.
    assert (Hq : inbox (port st2) = [] ++ (d, reply) :: []) by reflexivity.
    rewrite (read_reply_spec e w d reply [] [] st2 (pending st2) Hq);
      [| unfold pending; rewrite Hq; cbn; lia | constructor | constructor
       | assumption | assumption ].
    cbn [fst snd]. eexists. split; [reflexivity|].
    unfold mount_request_delay, modify, nanosleep.
    cbn [snd]. split; reflexivity. }
  destruct E as (st' & E & Hi & Hdv). exists st'.
  repeat split; try assumption.
  all: pose proof (sendQuery_io_only cmd e w st) as H;
    rewrite E in H; apply H.
Qed.

(** The mount takes the command and sends nothing. *)
Lemma sendQuery_unanswered (cmd : string) (e : ascii) (w : Z)
  (st : Driver) :
  buffered (inbox (port st)) ->
  answer (port st) = Some [] ->
  exists st',
    sendQuery cmd e w st = ((true, EmptyString), st') /\
    inbox (port st') = [] /\
    device (port st') = tl (device (port st)) /\
    io_only st st'.
Proof.
  intros Hb Ha.
  assert (E : exists st',
             sendQuery cmd e w st = ((true, EmptyString), st') /\
             inbox (port st') = [] /\
             device (port st') = tl (device (port st))).
  { rewrite sendQuery_unfold. cbv zeta.
    rewrite (drain_buffered _ Hb). cbn [snd].
    match goal with |- context [transmit cmd ?s] => set (st1 := s) end.
    assert (Ha1 : answer (port st1) = Some []) by exact Ha.
    rewrite (transmit_ok _ _ _ Ha1). cbn [fst snd].
    match goal with |- context [read_reply _ e w false _ ?s] =>
      set (st2 := s) end.
    assert (Hq : inbox (port st2) = []) by reflexivity.
    change (pending st2) with (S O).
    cbn [read_reply]. unfold bind.
    rewrite (receive_empty _ _ _ Hq). cbn [fst snd ret].
    eexists. split; [reflexivity|].
    unfold mount_request_delay, modify, nanosleep.
    cbn [snd]. split; reflexivity. }
  destruct E as (st' & E & Hi & Hdv). exists st'.
  repeat split; try assumption.
  all: pose proof (sendQuery_io_only cmd e w st) as H;
    rewrite E in H; apply H.
Qed.

(** The write fails. *)
Lemma sendQuery_failed (cmd : string) (e : ascii) (w : Z) (st : Driver) :
  buffered (inbox (port st)) ->
  answer (port st) = None ->
  exists st',
    sendQuery cmd e w st = ((false, EmptyString), st') /\
    inbox (port st') = [] /\
    device (port st') = tl (device (port st)) /\
    io_only st st'.
Proof.
  intros Hb Ha.
  assert (E : exists st',
             sendQuery cmd e w st = ((false, EmptyString), st') /\
             inbox (port st') = [] /\
             device (port st') = tl (device (port st))).
  { rewrite sendQuery_unfold. cbv zeta.
    rewrite (drain_buffered _ Hb). cbn [snd].
    match goal with |- context [transmit cmd ?s] => set (st1 := s) end.
    assert (Ha1 : answer (port st1) = None) by exact Ha.
    rewrite (transmit_error _ _ Ha1). cbn [fst snd].
    eexists. split; [reflexivity|].
    unfold mount_request_delay, modify, nanosleep.
    cbn [snd]. split; reflexivity. }
  destruct E as (st' & E & Hi & Hdv). exists st'.
  repeat split; try assumption.
  all: pose proof (sendQuery_io_only cmd e w st) as H;
    rewrite E in H; apply H.
Qed.

Lemma short_reply_not_a_telegram (reply : string) :
  (String.length reply < 3)%nat -> is_telegram reply = false.
Proof.
  intros Hl. unfold is_telegram, sscanf.
  set (ds := scan_format _ _). vm_compute in ds. subst ds.
  destruct reply as [|a [|b [|c r]]]; [| | | cbn in Hl; lia];
    cbn [scan run_directive];
    repeat match goal with
           | |- context [Ascii.eqb ?x ?y] => destruct (Ascii.eqb x y)
           end; reflexivity.
Qed.

(** X1.  [Handshake] fails when the mount answers [:GW#] with fewer than
    three characters, although [sendQuery] has reported success: the
    alignment status needs its three fields. *)
Theorem Handshake_rejects_short_reply (st : Driver) (d : Z)
  (reply : string) :
  buffered (inbox (port st)) ->
  answer (port st) = Some [(d, reply)] ->
  d <= AVALON_TIMEOUT ->
  (String.length reply < 3)%nat ->
  fst (Handshake st) = false.
Proof.
  intros Hb Ha Hd Hl.
  destruct (sendQuery_replied ":GW#" "#" AVALON_TIMEOUT st d reply Hb Ha Hd)
    as (st' & E & _).
  { rewrite frame_of_hash. apply short_reply_not_a_telegram, Hl. }
  rewrite frame_of_hash in E.
  unfold Handshake, getScopeAlignmentStatus, bind. rewrite E.
  cbn [negb]. unfold sscanf.
  set (ds := scan_format _ _). vm_compute in ds. subst ds.
  destruct reply as [|a [|b [|c r]]]; [| | | cbn in Hl; lia];
    reflexivity.
Qed.

(** X2.  A reply whose first two characters are followed by a digit is
    accepted whatever follows: the first character is the mount type,
    tracking is on exactly when the second is [T], the digit is the number
    of alignment points; [Handshake] then succeeds. *)
Theorem getScopeAlignmentStatus_decodes (st : Driver) (d n : Z)
  (mt tracking : ascii) (tail : string) :
  buffered (inbox (port st)) ->
  answer (port st) =
    Some [(d, String mt (String tracking (String (digit n) tail)))] ->
  d <= AVALON_TIMEOUT ->
  mt <> ":"%char ->
  0 <= n <= 9 ->
  fst (getScopeAlignmentStatus st) =
    Some (mt, Ascii.eqb tracking "T", n) /\
  fst (Handshake st) = true.
Proof.
  intros Hb Ha Hd Hmt Hn.
  destruct (sendQuery_replied ":GW#" "#" AVALON_TIMEOUT st d _ Hb Ha Hd)
    as (st' & E & _).
  { rewrite frame_of_hash. apply not_a_telegram, Hmt. }
  rewrite frame_of_hash in E.
  unfold Handshake, getScopeAlignmentStatus, bind. rewrite E.
  cbn [negb].
  digit_cases n Hn; vm_compute; split; reflexivity.
Qed.

(** X3.  [setST4Enabled] sets the flag [h] to enable the port and resets
    it to disable, and writes that one command; [getST4Status] reads the
    same flag back: a mount that reports the flag as it was set makes it
    return the value that was requested. *)
Theorem st4_port_round_trip (st : Driver) (enabled : bool) :
  written (trace (port (snd (setST4Enabled enabled st)))) =
    written (trace (port st)) ++ [flag_command enabled "h"] /\
  forall (st2 : Driver) (d : Z) (tail : string),
    buffered (inbox (port st2)) ->
    answer (port st2) =
      Some [(d, (flag_report enabled "h" ++ tail)%string)] ->
    d <= AVALON_TIMEOUT ->
    fst (getST4Status st2) = Some enabled.
Proof.
  split.
  - unfold setST4Enabled, bind.
    assert (E : (if enabled then ":TTSFh#" else ":TTRFh#") =
                flag_command enabled "h") by (destruct enabled; reflexivity).
    rewrite E.
    pose proof (sendQuery_written (flag_command enabled "h") "#"
                  AVALON_TIMEOUT st) as Hw.
    destruct (sendQuery _ _ _ st) as [[ok r] st1]. exact Hw.
  - intros st2 d tail Hb Ha Hd.
    destruct (sendQuery_replied ":TTGFh#" "#" AVALON_TIMEOUT st2 d _
                Hb Ha Hd) as (st' & E & _);
      [destruct enabled; reflexivity|].
    rewrite frame_of_hash in E.
    unfold getST4Status, bind. rewrite E. cbn [negb].
    destruct enabled; vm_compute; reflexivity.
Qed.

(** X4.  The keypad uses the flag [r] the other way round:
    [setKeyPadEnabled] resets it to enable and sets it to disable, and
    [getKeypadStatus] reports the keypad enabled when the flag is reported
    as 0; so here too the status read back is the one requested. *)
Theorem keypad_round_trip (st : Driver) (enabled : bool) :
  written (trace (port (snd (setKeyPadEnabled enabled st)))) =
    written (trace (port st)) ++ [flag_command (negb enabled) "r"] /\
  forall (st2 : Driver) (d : Z) (tail : string),
    buffered (inbox (port st2)) ->
    answer (port st2) =
      Some [(d, (flag_report (negb enabled) "r" ++ tail)%string)] ->
    d <= AVALON_TIMEOUT ->
    fst (getKeypadStatus st2) = Some enabled.
Proof.
  split.
  - unfold setKeyPadEnabled, bind.
    assert (E : (if enabled then ":TTRFr#" else ":TTSFr#") =
                flag_command (negb enabled) "r")
      by (destruct enabled; reflexivity).
    rewrite E.
    pose proof (sendQuery_written (flag_command (negb enabled) "r") "#"
                  AVALON_TIMEOUT st) as Hw.
    destruct (sendQuery _ _ _ st) as [[ok r] st1]. exact Hw.
  - intros st2 d tail Hb Ha Hd.
    destruct (sendQuery_replied ":TTGFr#" "#" AVALON_TIMEOUT st2 d _
                Hb Ha Hd) as (st' & E & _);
      [destruct enabled; reflexivity|].
    rewrite frame_of_hash in E.
    unfold getKeypadStatus, bind. rewrite E. cbn [negb].
    destruct enabled; vm_compute; reflexivity.
Qed.

(** X5.  When the mount takes the query and sends nothing,
    [getST4Status] and [getKeypadStatus] do not fail: the empty response
    passes the [!sscanf] test, and the ST4 port is reported disabled and
    the keypad enabled. *)
Theorem silent_mount_reads_as_flags (st : Driver) :
  buffered (inbox (port st)) ->
  answer (port st) = Some [] ->
  fst (getST4Status st) = Some false /\
  fst (getKeypadStatus st) = Some true.
Proof.
  intros Hb Ha.
  destruct (sendQuery_unanswered ":TTGFh#" "#" AVALON_TIMEOUT st Hb Ha)
    as (st1 & E1 & _).
  destruct (sendQuery_unanswered ":TTGFr#" "#" AVALON_TIMEOUT st Hb Ha)
    as (st2 & E2 & _).
  unfold getST4Status, getKeypadStatus, bind. rewrite E1, E2.
  split; reflexivity.
Qed.

(** X6.  [setSystemSlewSpeedMode] rejects an index outside 0..3 without
    touching the line.  For an index in range it writes [:TTMX] followed
    by a two-digit speed twice, and [getSystemSlewSpeedMode] maps a reply
    that starts with that speed back to the index, whatever follows the
    two digits. *)
Theorem system_slew_speed_round_trip (st : Driver) (index : Z) :
  (index < 0 \/ 3 < index ->
   setSystemSlewSpeedMode index st = (false, st)) /\
  (0 <= index <= 3 ->
   exists xx : string,
     written (trace (port (snd (setSystemSlewSpeedMode index st)))) =
       written (trace (port st)) ++ [(":TTMX" ++ xx ++ xx ++ "#")%string] /\
     forall (st2 : Driver) (d : Z) (tail : string),
       buffered (inbox (port st2)) ->
       answer (port st2) = Some [(d, (xx ++ tail)%string)] ->
       d <= AVALON_TIMEOUT ->
       fst (getSystemSlewSpeedMode st2) = Some index).
Proof.
  split.
  { intros H. unfold setSystemSlewSpeedMode.
    destruct index as [|p|p]; [lia | | reflexivity].
    do 2 (try destruct p as [p|p|]; try reflexivity; try lia). }
  intros Hi.
  assert (E : index = 0 \/ index = 1 \/ index = 2 \/ index = 3) by lia.
  destruct E as [E|[E|[E|E]]]; subst index;
    [exists "06"%string | exists "08"%string | exists "09"%string
    | exists "12"%string];
    (split;
     [ unfold setSystemSlewSpeedMode, bind;
       match goal with |- context [sendQuery ?c ?e ?w st] =>
         pose proof (sendQuery_written c e w st) as Hw;
         destruct (sendQuery c e w st) as [[ok r] st1] end;
       exact Hw
     | intros st2 d tail Hb Ha Hd;
       destruct (sendQuery_replied ":TTGMX#" "#" AVALON_TIMEOUT st2 d _
                   Hb Ha Hd) as (st' & E & _); [reflexivity|];
       rewrite frame_of_hash in E;
       unfold getSystemSlewSpeedMode, bind; rewrite E; cbn [negb];
       scan_format_now; run_head; run_rest;
       reflexivity ]).
Qed.

Lemma answer_of_device (st : Driver) (reaction : list (Z * string))
  (script : list TxOutcome) :
  device (port st) = TxOk reaction :: script ->
  answer (port st) = Some reaction.
Proof. intros H. unfold answer. rewrite H. reflexivity. Qed.

Lemma buffered_nil (st : Driver) :
  inbox (port st) = [] -> buffered (inbox (port st)).
Proof. intros ->. constructor. Qed.

Lemma run_two_digits (a b : Z) (rest : string) :
  0 <= a <= 9 -> 0 <= b <= 9 ->
  run_directive (DConv (Some 2%nat) CInt)
    (String (digit a) (String (digit b) rest)) =
  Got (Some (VInt (10 * a + b))) rest.
Proof.
  intros Ha Hb. digit_cases a Ha; digit_cases b Hb; vm_compute; reflexivity.
Qed.

Lemma run_literal (c : ascii) (rest : string) :
  run_directive (DLit c) (String c rest) = Got None rest.
Proof. cbn [run_directive]. rewrite Ascii.eqb_refl. reflexivity. Qed.

Lemma digit_not_colon (a : Z) : 0 <= a <= 9 -> digit a <> ":"%char.
Proof. intros Ha. digit_cases a Ha; discriminate. Qed.

(** X7.  A reply [rrbdd] gives the two-digit numbers [rr] and [dd] as the
    guiding speeds of the two axes; text after them is ignored. *)
Theorem getGuidingSpeeds_decodes (st : Driver) (d a b c e : Z)
  (tail : string) (raSpeed decSpeed : Z) :
  buffered (inbox (port st)) ->
  answer (port st) =
    Some [(d, String (digit a) (String (digit b) (String "b"
                (String (digit c) (String (digit e) tail)))))] ->
  d <= AVALON_TIMEOUT ->
  0 <= a <= 9 -> 0 <= b <= 9 -> 0 <= c <= 9 -> 0 <= e <= 9 ->
  fst (getGuidingSpeeds raSpeed decSpeed st) =
    (true, (10 * a + b, 10 * c + e)).
Proof.
  intros Hb Ha Hd Ha' Hb' Hc He.
  destruct (sendQuery_replied ":X22#" "#" AVALON_TIMEOUT st d _ Hb Ha Hd)
    as (st' & E & _).
  { rewrite frame_of_hash. apply not_a_telegram, digit_not_colon, Ha'. }
  rewrite frame_of_hash in E.
  unfold getGuidingSpeeds, bind. rewrite E. cbn [negb].
  scan_format_now. rewrite run_two_digits by assumption.
  cbv beta iota. rewrite run_literal.
  rewrite run_two_digits by assumption. reflexivity.
Qed.

(** X8.  When the mount takes the query and sends nothing,
    [getGuidingSpeeds] returns success and stores nothing: the caller's
    two variables keep the values they had. *)
Theorem getGuidingSpeeds_accepts_silence (st : Driver)
  (raSpeed decSpeed : Z) :
  buffered (inbox (port st)) ->
  answer (port st) = Some [] ->
  fst (getGuidingSpeeds raSpeed decSpeed st) = (true, (raSpeed, decSpeed)).
Proof.
  intros Hb Ha.
  destruct (sendQuery_unanswered ":X22#" "#" AVALON_TIMEOUT st Hb Ha)
    as (st1 & E1 & _).
  unfold getGuidingSpeeds, bind. rewrite E1. reflexivity.
Qed.

Lemma guiding_speed_field (a b : Z) :
  0 <= a <= 9 -> 0 <= b <= 9 ->
  sprintf ":X20%2d#" [AInt (10 * a + b)] =
    (":X20" ++ blank_padded a b ++ "#")%string /\
  sprintf ":X21%2d#" [AInt (10 * a + b)] =
    (":X21" ++ blank_padded a b ++ "#")%string.
Proof.
  intros Ha Hb.
  digit_cases a Ha; digit_cases b Hb; vm_compute; split; reflexivity.
Qed.

(** X9.  For speeds below 100 [setGuidingSpeeds] writes [:X20] and
    [:X21] each followed by a two-column field, a leading zero being a
    blank.  When the first write fails the second command is not written
    and the result is failure. *)
Theorem setGuidingSpeeds_commands (st : Driver) (a b c e : Z) :
  0 <= a <= 9 -> 0 <= b <= 9 -> 0 <= c <= 9 -> 0 <= e <= 9 ->
  let r := setGuidingSpeeds (10 * a + b) (10 * c + e) st in
  written (trace (port (snd r))) =
    written (trace (port st)) ++
    (":X20" ++ blank_padded a b ++ "#")%string ::
    (if line_up (port st)
     then [(":X21" ++ blank_padded c e ++ "#")%string] else []) /\
  (line_up (port st) = false -> fst r = false).
Proof.
  intros Ha Hb Hc He. cbv zeta. unfold setGuidingSpeeds, bind.
  destruct (guiding_speed_field a b Ha Hb) as [-> _].
  destruct (guiding_speed_field c e Hc He) as [_ ->].
  match goal with |- context [sendQuery ?c1 ?e1 ?w1 st] =>
    pose proof (sendQuery_written c1 e1 w1 st) as Hw;
    pose proof (sendQuery_result c1 e1 w1 st) as Hr;
    destruct (sendQuery c1 e1 w1 st) as [[ok r1] st1] end.
  cbn [fst snd] in Hw, Hr. rewrite <- Hr.
  destruct ok; cbn [negb].
  - unfold sleep_100ms, modify, nanosleep.
    match goal with |- context [sendQuery ?c2 ?e2 ?w2 ?s2] =>
      pose proof (sendQuery_written c2 e2 w2 s2) as Hw2;
      destruct (sendQuery c2 e2 w2 s2) as [[ok2 r2] st2] end.
    cbn [fst snd port with_port trace] in Hw2.
    rewrite written_app, Hw in Hw2. cbn [written] in Hw2.
    rewrite app_nil_r, <- app_assoc in Hw2.
    split; [|discriminate]. destruct ok2; exact Hw2.
  - split; [exact Hw | reflexivity].
Qed.

(** Two queries in a row, each answered with one section. *)
Lemma two_queries_replied (c1 c2 : string) (w : Z) (st : Driver)
  (d1 d2 : Z) (r1 r2 : string) (script : list TxOutcome) :
  buffered (inbox (port st)) ->
  device (port st) = TxOk [(d1, r1)] :: TxOk [(d2, r2)] :: script ->
  d1 <= w -> d2 <= w ->
  is_telegram r1 = false -> is_telegram r2 = false ->
  exists st1 st2,
    sendQuery c1 "#" w st = ((true, r1), st1) /\
    sendQuery c2 "#" w st1 = ((true, r2), st2) /\
    inbox (port st2) = [] /\ device (port st2) = script /\
    io_only st st2.
Proof.
  intros Hb Hdev H1 H2 Ht1 Ht2.
  destruct (sendQuery_replied c1 "#" w st d1 r1 Hb
              (answer_of_device _ _ _ Hdev) H1)
    as (st1 & E1 & Hi1 & Hd1 & Hio1);
    [rewrite frame_of_hash; exact Ht1|].
  rewrite Hdev in Hd1. cbn [tl] in Hd1.
  destruct (sendQuery_replied c2 "#" w st1 d2 r2 (buffered_nil _ Hi1)
              (answer_of_device _ _ _ Hd1) H2)
    as (st2 & E2 & Hi2 & Hd2 & Hio2);
    [rewrite frame_of_hash; exact Ht2|].
  rewrite Hd1 in Hd2. cbn [tl] in Hd2.
  rewrite frame_of_hash in E1, E2.
  exists st1, st2. repeat split; try assumption.
  all: destruct Hio1 as (? & ? & ? & ? & ? & ?);
    destruct Hio2 as (? & ? & ? & ? & ? & ?); congruence.
Qed.

Lemma GetMeridianFlipMode_table (st : Driver) (d1 d2 a b : Z)
  (t1 t2 : string) (script : list TxOutcome) :
  buffered (inbox (port st)) ->
  device (port st) =
    TxOk [(d1, "vs" ++ String (digit a) t1)%string] ::
    TxOk [(d2, "vd" ++ String (digit b) t2)%string] :: script ->
  d1 <= AVALON_TIMEOUT -> d2 <= AVALON_TIMEOUT ->
  0 <= a <= 9 -> 0 <= b <= 9 ->
  fst (GetMeridianFlipMode st) =
    Some (if a =? 1 then 1 else if b =? 0 then 0 else 2).
Proof.
  intros Hb Hdev H1 H2 Ha Hb'.
  destruct (two_queries_replied ":TTGFs#" ":TTGFd#" AVALON_TIMEOUT st
              d1 d2 _ _ script Hb Hdev H1 H2 eq_refl eq_refl)
    as (st1 & st2 & E1 & E2 & _).
  unfold GetMeridianFlipMode, bind. rewrite E1. cbn [negb].
  rewrite E2. cbn [negb].
  digit_cases a Ha; digit_cases b Hb'; vm_compute; reflexivity.
Qed.

(** X10.  [GetMeridianFlipMode] asks for the flags [s] and [d]: a set
    [s] gives mode 1 (disabled) whatever [d] is, otherwise a set [d] gives
    mode 2 (forced), and both reset give mode 0 (auto). *)
Theorem GetMeridianFlipMode_reads_flags (st : Driver) (d1 d2 : Z)
  (enable force : bool) (t1 t2 : string) (script : list TxOutcome) :
  buffered (inbox (port st)) ->
  device (port st) =
    TxOk [(d1, flag_report enable "s" ++ t1)%string] ::
    TxOk [(d2, flag_report force "d" ++ t2)%string] :: script ->
  d1 <= AVALON_TIMEOUT -> d2 <= AVALON_TIMEOUT ->
  fst (GetMeridianFlipMode st) =
    Some (if enable then 1 else if force then 2 else 0).
Proof.
  intros Hb Hdev H1 H2.
  rewrite (GetMeridianFlipMode_table st d1 d2
             (if enable then 1 else 0) (if force then 1 else 0)
             t1 t2 script Hb); try assumption.
  - destruct enable, force; reflexivity.
  - rewrite Hdev. destruct enable, force; reflexivity.
  - destruct enable; lia.
  - destruct force; lia.
Qed.

(** X11.  When the mount takes both queries and sends nothing,
    [GetMeridianFlipMode] returns success with mode 0. *)
Theorem GetMeridianFlipMode_accepts_silence (st : Driver) :
  buffered (inbox (port st)) ->
  (device (port st) = [] \/
   exists script, device (port st) = TxOk [] :: TxOk [] :: script) ->
  fst (GetMeridianFlipMode st) = Some 0.
Proof.
  intros Hb Hdev.
  assert (Ha : answer (port st) = Some []).
  { unfold answer. destruct Hdev as [->|(script & ->)]; reflexivity. }
  destruct (sendQuery_unanswered ":TTGFs#" "#" AVALON_TIMEOUT st Hb Ha)
    as (st1 & E1 & Hi1 & Hd1 & _).
  assert (Ha1 : answer (port st1) = Some []).
  { unfold answer. rewrite Hd1.
    destruct Hdev as [->|(script & ->)]; reflexivity. }
  destruct (sendQuery_unanswered ":TTGFd#" "#" AVALON_TIMEOUT st1
              (buffered_nil _ Hi1) Ha1) as (st2 & E2 & _).
  unfold GetMeridianFlipMode, bind. rewrite E1. cbn [negb].
  rewrite E2. reflexivity.
Qed.

(** X12.  Outside simulation, a successful [SetMeridianFlipMode] has
    written two commands, one for the flag [s] and one for the flag [d];
    a mount that reports the two flags as they were set makes
    [GetMeridianFlipMode] return the index that was set.  Only the upper
    bound of the index is checked: a negative index is written, and read
    back, as mode 0. *)
Theorem meridian_flip_round_trip (st : Driver) (index : Z) :
  simulation st = false ->
  fst (fst (SetMeridianFlipMode index st)) = true ->
  exists enable force : bool,
    written (trace (port (snd (SetMeridianFlipMode index st)))) =
      written (trace (port st)) ++
      [flag_command enable "s"; flag_command force "d"] /\
    forall (st2 : Driver) (d1 d2 : Z) (t1 t2 : string)
           (script : list TxOutcome),
      buffered (inbox (port st2)) ->
      device (port st2) =
        TxOk [(d1, flag_report enable "s" ++ t1)%string] ::
        TxOk [(d2, flag_report force "d" ++ t2)%string] :: script ->
      d1 <= AVALON_TIMEOUT -> d2 <= AVALON_TIMEOUT ->
      fst (GetMeridianFlipMode st2) = Some (Z.max 0 index).
Proof.
  intros Hsim. unfold SetMeridianFlipMode, bind, gets. rewrite Hsim.
  destruct (Z.ltb_spec 2 index) as [Hi|Hi]; [discriminate|].
  assert (Hen : (if index =? 1 then ":TTSFs#" else ":TTRFs#") =
                flag_command (index =? 1) "s")
    by (destruct (index =? 1); reflexivity).
  assert (Hfo : (if index =? 2 then ":TTSFd#" else ":TTRFd#") =
                flag_command (index =? 2) "d")
    by (destruct (index =? 2); reflexivity).
  rewrite Hen, Hfo.
  match goal with |- context [sendQuery ?c1 ?e1 ?w1 st] =>
    pose proof (sendQuery_written c1 e1 w1 st) as Hw;
    destruct (sendQuery c1 e1 w1 st) as [[ok r1] st1] end.
  cbn [fst snd] in Hw.
  destruct ok; cbn [negb]; [|discriminate].
  match goal with |- context [sendQuery ?c2 ?e2 ?w2 st1] =>
    pose proof (sendQuery_written c2 e2 w2 st1) as Hw2;
    destruct (sendQuery c2 e2 w2 st1) as [[ok2 r2] st2] end.
  cbn [fst snd] in Hw2.
  destruct ok2; cbn [negb]; [|discriminate].
  intros _. exists (index =? 1), (index =? 2). split.
  - cbn [fst snd ret]. rewrite Hw2, Hw, <- app_assoc. reflexivity.
  - intros st' d1 d2 t1 t2 script Hb Hdev H1 H2.
    rewrite (GetMeridianFlipMode_table st' d1 d2
               (if index =? 1 then 1 else 0) (if index =? 2 then 1 else 0)
               t1 t2 script Hb); try assumption.
    + f_equal.
      destruct (Z.eqb_spec index 1); [subst; reflexivity|].
      destruct (Z.eqb_spec index 2); [subst; reflexivity|].
      cbn. lia.
    + rewrite Hdev.
      destruct (index =? 1), (index =? 2); reflexivity.
    + destruct (index =? 1); lia.
    + destruct (index =? 2); lia.
Qed.

(** X13.  [checkLX200EquatorialFormat] returns [false] on every path,
    also when it has recognised the format. *)
Theorem checkLX200EquatorialFormat_never_succeeds (st : Driver) :
  fst (fst (checkLX200EquatorialFormat st)) = false.
Proof.
  unfold checkLX200EquatorialFormat, bind, ret.
  repeat match goal with
         | |- context [sendQuery ?c ?e ?w ?s] =>
             destruct (sendQuery c e w s) as [[[] ?] ?];
             cbn [negb]; cbv beta iota
         | |- context [if low_precision ?r then _ else _] =>
             destruct (low_precision r); cbv beta iota
         | |- context [if ?a && ?b then _ else _] =>
             destruct (a && b); cbv beta iota
         end; reflexivity.
Qed.

(** X14.  After a low precision reply [checkLX200EquatorialFormat]
    toggles the precision once and asks again; the format is then judged
    on the second reply alone, and is the short one exactly when that reply
    is low precision too. *)
Theorem checkLX200EquatorialFormat_toggles_once (st : Driver)
  (d1 d2 : Z) (r1 r2 : string) (script : list TxOutcome) :
  buffered (inbox (port st)) ->
  device (port st) =
    TxOk [(d1, r1)] :: TxOk [] :: TxOk [(d2, r2)] :: script ->
  d1 <= AVALON_TIMEOUT -> d2 <= AVALON_TIMEOUT ->
  is_telegram r1 = false -> is_telegram r2 = false ->
  low_precision r1 = true ->
  let r := checkLX200EquatorialFormat st in
  written (trace (port (snd r))) =
    written (trace (port st)) ++ [":GR#"; ":U#"; ":GR#"] /\
  (snd (fst r) = LX200_SHORT_FORMAT <-> low_precision r2 = true).
Proof.
  intros Hb Hdev H1 H2 Ht1 Ht2 Hlow. cbv zeta.
  destruct (sendQuery_replied ":GR#" "#" AVALON_TIMEOUT st d1 r1 Hb
              (answer_of_device _ _ _ Hdev) H1)
    as (st1 & E1 & Hi1 & Hd1 & _);
    [rewrite frame_of_hash; exact Ht1|].
  rewrite Hdev in Hd1. cbn [tl] in Hd1. rewrite frame_of_hash in E1.
  destruct (sendQuery_unanswered ":U#" "#" 0 st1 (buffered_nil _ Hi1)
              (answer_of_device _ _ _ Hd1))
    as (st2 & E2 & Hi2 & Hd2 & _).
  rewrite Hd1 in Hd2. cbn [tl] in Hd2.
  destruct (sendQuery_replied ":GR#" "#" AVALON_TIMEOUT st2 d2 r2
              (buffered_nil _ Hi2) (answer_of_device _ _ _ Hd2) H2)
    as (st3 & E3 & _);
    [rewrite frame_of_hash; exact Ht2|].
  rewrite frame_of_hash in E3.
  pose proof (sendQuery_written ":GR#" "#" AVALON_TIMEOUT st) as W1.
  pose proof (sendQuery_written ":U#" "#" 0 st1) as W2.
  pose proof (sendQuery_written ":GR#" "#" AVALON_TIMEOUT st2) as W3.
  rewrite E1 in W1. rewrite E2 in W2. rewrite E3 in W3.
  cbn [snd] in W1, W2, W3.
  unfold checkLX200EquatorialFormat, bind.
  rewrite E1. cbn [negb]. rewrite Hlow.
  rewrite E2. cbn [negb]. rewrite E3. cbn [negb ret].
  assert (Hw : written (trace (port st3)) =
               written (trace (port st)) ++ [":GR#"; ":U#"; ":GR#"]).
  { rewrite W3, W2, W1, <- !app_assoc. reflexivity. }
  destruct (low_precision r2); [|destruct (_ && _)]; cbn [fst snd];
    (split; [exact Hw|split; intros; (reflexivity || discriminate)]).
Qed.

Lemma substring_all (s : string) : substring 0 (String.length s) s = s.
Proof. induction s as [|c s IH]; cbn; [|rewrite IH]; reflexivity. Qed.

(** X15.  [getFirmwareInfo] joins manufacturer, version and date with
    [" - "], the date without its first character. *)
Theorem getFirmwareInfo_drops_first_date_character (st : Driver)
  (firmwareInfo : string) (d1 d2 d3 : Z) (manufacturer version : string)
  (c : ascii) (date : string) (script : list TxOutcome) :
  buffered (inbox (port st)) ->
  device (port st) =
    TxOk [(d1, manufacturer)] :: TxOk [(d2, version)] ::
    TxOk [(d3, String c date)] :: script ->
  d1 <= AVALON_TIMEOUT -> d2 <= AVALON_TIMEOUT -> d3 <= AVALON_TIMEOUT ->
  is_telegram manufacturer = false -> is_telegram version = false ->
  is_telegram (String c date) = false ->
  fst (getFirmwareInfo firmwareInfo st) =
    Returns (true, (manufacturer ++ " - " ++ version ++ " - " ++ date)%string).
Proof.
  intros Hb Hdev H1 H2 H3 Ht1 Ht2 Ht3.
  destruct (two_queries_replied ":GVP#" ":GVN#" AVALON_TIMEOUT st
              d1 d2 _ _ _ Hb Hdev H1 H2 Ht1 Ht2)
    as (st1 & st2 & E1 & E2 & Hi2 & Hd2 & _).
  destruct (sendQuery_replied ":GVD#" "#" AVALON_TIMEOUT st2 d3 _
              (buffered_nil _ Hi2) (answer_of_device _ _ _ Hd2) H3)
    as (st3 & E3 & _);
    [rewrite frame_of_hash; exact Ht3|].
  rewrite frame_of_hash in E3.
  unfold getFirmwareInfo, bind. rewrite E1. cbn [negb].
  rewrite E2. cbn [negb]. rewrite E3. cbn [negb].
  cbn [String.length Nat.ltb Nat.leb substring Nat.sub].
  rewrite Nat.sub_0_r, substring_all. reflexivity.
Qed.

(** X16.  When manufacturer and version arrive and the date query gets
    no reply, [getFirmwareInfo] does not return: appending the date from
    position 1 of an empty string throws [std::out_of_range]. *)
Theorem getFirmwareInfo_throws_without_date (st : Driver)
  (firmwareInfo : string) (d1 d2 : Z) (manufacturer version : string)
  (script : list TxOutcome) :
  buffered (inbox (port st)) ->
  device (port st) =
    TxOk [(d1, manufacturer)] :: TxOk [(d2, version)] :: script ->
  d1 <= AVALON_TIMEOUT -> d2 <= AVALON_TIMEOUT ->
  is_telegram manufacturer = false -> is_telegram version = false ->
  match script with
  | [] | TxOk [] :: _ => True
  | _ => False
  end ->
  fst (getFirmwareInfo firmwareInfo st) = Throws_out_of_range.
Proof.
  intros Hb Hdev H1 H2 Ht1 Ht2 Hs.
  destruct (two_queries_replied ":GVP#" ":GVN#" AVALON_TIMEOUT st
              d1 d2 _ _ _ Hb Hdev H1 H2 Ht1 Ht2)
    as (st1 & st2 & E1 & E2 & Hi2 & Hd2 & _).
  assert (Ha : answer (port st2) = Some []).
  { unfold answer. rewrite Hd2.
    destruct script as [|[|[|]] ?]; try contradiction; reflexivity. }
  destruct (sendQuery_unanswered ":GVD#" "#" AVALON_TIMEOUT st2
              (buffered_nil _ Hi2) Ha) as (st3 & E3 & _).
  unfold getFirmwareInfo, bind. rewrite E1. cbn [negb].
  rewrite E2. cbn [negb]. rewrite E3. reflexivity.
Qed.

(** X17.  [slewToHome] returns [true] whatever happens and publishes the
    goto-home vector once; when the command cannot even be written the
    vector is in alert and the track state is as before. *)
Theorem slewToHome_always_returns_true (st : Driver) :
  let r := slewToHome st in
  fst r = true /\
  client (snd r) =
    client st ++ [MsgMountGotoHomeSP (MountGotoHomeSP (scope (snd r)))] /\
  (line_up (port st) = false ->
   MountGotoHomeSP (scope (snd r)) = IPS_ALERT /\
   TrackState (scope (snd r)) = TrackState (scope st)).
Proof.
  cbv zeta. unfold slewToHome, setMountGotoHome, bind.
  pose proof (sendQuery_io_only ":X361#" "#" AVALON_TIMEOUT st) as Hio.
  pose proof (sendQuery_result ":X361#" "#" AVALON_TIMEOUT st) as Hr.
  destruct (sendQuery ":X361#" "#" AVALON_TIMEOUT st) as [[ok resp] st1].
  cbn [fst snd] in Hio, Hr. destruct Hio as (Hs & _ & _ & _ & _ & Hc).
  rewrite <- Hr.
  destruct ok; [destruct (String.eqb resp "pA")|];
    cbn; rewrite ?Hs, ?Hc; repeat split; intros; discriminate.
Qed.

(** X18.  The goto-home vector becomes busy, and the track state
    slewing, exactly when the mount answers [pA]; any other reply puts the
    vector in alert and leaves the track state alone. *)
Theorem slewToHome_starts_on_pA (st : Driver) (d : Z) (reply : string) :
  buffered (inbox (port st)) ->
  answer (port st) = Some [(d, reply)] ->
  d <= AVALON_TIMEOUT ->
  is_telegram reply = false ->
  scope (snd (slewToHome st)) =
    if String.eqb reply "pA"
    then set_TrackState SCOPE_SLEWING
           (set_MountGotoHomeSP IPS_BUSY (scope st))
    else set_MountGotoHomeSP IPS_ALERT (scope st).
Proof.
  intros Hb Ha Hd Ht.
  destruct (sendQuery_replied ":X361#" "#" AVALON_TIMEOUT st d reply
              Hb Ha Hd) as (st1 & E & _ & _ & Hio);
    [rewrite frame_of_hash; exact Ht|].
  rewrite frame_of_hash in E. destruct Hio as (Hs & _).
  unfold slewToHome, setMountGotoHome, bind. rewrite E. cbn [negb].
  destruct (String.eqb reply "pA"); cbn; rewrite Hs; reflexivity.
Qed.

(** X19.  [Park] succeeds, and sets the track state to parking, exactly
    when the mount answers [pB]; otherwise the scope state is as before. *)
Theorem Park_requires_pB (st : Driver) (d : Z) (reply : string) :
  buffered (inbox (port st)) ->
  answer (port st) = Some [(d, reply)] ->
  d <= AVALON_TIMEOUT ->
  is_telegram reply = false ->
  fst (Park st) = String.eqb reply "pB" /\
  scope (snd (Park st)) =
    if String.eqb reply "pB"
    then set_TrackState SCOPE_PARKING (scope st) else scope st.
Proof.
  intros Hb Ha Hd Ht.
  destruct (sendQuery_replied ":X362#" "#" AVALON_TIMEOUT st d reply
              Hb Ha Hd) as (st1 & E & _ & _ & Hio);
    [rewrite frame_of_hash; exact Ht|].
  rewrite frame_of_hash in E. destruct Hio as (Hs & _).
  unfold Park, bind. rewrite E. cbn [andb].
  destruct (String.eqb reply "pB"); cbn; rewrite Hs; split; reflexivity.
Qed.

(** X20.  Handing the same frame to [ParseMotionState] twice gives the
    same result and the same state as handing it over once. *)
Theorem ParseMotionState_idempotent (frame : string) (st : Driver) :
  ParseMotionState frame (snd (ParseMotionState frame st)) =
  ParseMotionState frame st.
Proof.
  unfold ParseMotionState.
  destruct (sscanf frame _) as [n values]. destruct st as [p m s g c si f cl].
  destruct m as [mo tr sl].
  repeat match goal with
         | |- context [match ?x with _ => _ end] =>
             is_var x; destruct x
         end; reflexivity.
Qed.

(** X21.  When the write fails [sendQuery] returns failure with an empty
    response; it has emptied the line first, and after the failed write it
    only waits the request delay, without reading. *)
Theorem sendQuery_reads_nothing_after_failed_write (cmd : string)
  (e : ascii) (w : Z) (st : Driver) :
  buffered (inbox (port st)) ->
  line_up (port st) = false ->
  fst (sendQuery cmd e w st) = (false, EmptyString) /\
  trace (port (snd (sendQuery cmd e w st))) =
    trace (port st) ++ reads "#" 0 (map snd (inbox (port st))) ++
    [IORead "#" 0 None; IOWrite cmd false; IOSleep].
Proof.
  intros Hb Hl.
  assert (Ha : answer (port st) = None).
  { unfold line_up in Hl. destruct (answer (port st)); [discriminate|].
    reflexivity. }
  rewrite sendQuery_unfold. cbv zeta.
  rewrite (drain_buffered _ Hb). cbn [snd].
  match goal with |- context [transmit cmd ?s] => set (st1 := s) end.
  assert (Ha1 : answer (port st1) = None) by exact Ha.
  rewrite (transmit_error _ _ Ha1). cbn [fst snd].
  split; [reflexivity|].
  unfold mount_request_delay, modify, nanosleep. subst st1.
  cbn [snd port with_port trace]. rewrite <- !app_assoc. reflexivity.
Qed.

Lemma getMotorStatus_state (st : Driver) :
  snd (getMotorStatus st) = snd (sendQuery ":X34#" "#" AVALON_TIMEOUT st).
Proof.
  unfold getMotorStatus, bind.
  destruct (sendQuery ":X34#" "#" AVALON_TIMEOUT st) as [[ok r] st1].
  destruct ok; cbn [negb]; [|reflexivity].
  destruct (sscanf r _) as [n values].
  destruct (n <? 2); [reflexivity|]. break_match; reflexivity.
Qed.

(** X22.  The motor status is asked for a second time when the first
    attempt fails, and only once: after two failures [ReadScopeStatus]
    returns failure, having written [:X34#] twice and nothing else, with
    scope, guide and client state as before. *)
Theorem ReadScopeStatus_retries_motor_status_once (st st1 st2 : Driver) :
  connected st = true ->
  simulation st = false ->
  getMotorStatus st = (None, st1) ->
  getMotorStatus st1 = (None, st2) ->
  ReadScopeStatus st = (false, st2) /\
  written (trace (port st2)) =
    written (trace (port st)) ++ [":X34#"; ":X34#"] /\
  io_only st st2.
Proof.
  intros Hc Hs H1 H2.
  pose proof (getMotorStatus_state st) as S1.
  pose proof (getMotorStatus_state st1) as S2.
  pose proof (getMotorStatus_io_only st) as I1.
  pose proof (getMotorStatus_io_only st1) as I2.
  rewrite H1 in S1, I1. rewrite H2 in S2, I2. cbn [snd] in S1, S2, I1, I2.
  split; [|split].
  - unfold ReadScopeStatus, evaluate_status, bind, gets, ret.
    cbv beta iota. rewrite Hc. cbn [negb]. cbv beta iota. rewrite Hs.
    cbv beta iota. rewrite H1. cbv beta iota. rewrite H2. reflexivity.
  - rewrite S2, sendQuery_written, S1, sendQuery_written, <- app_assoc.
    reflexivity.
  - transitivity st1; assumption.
Qed.

(** X23.  With park status ["2"] the cycle's new track state is parked
    whatever the motors report.  The clients are told so only when the
    scope was not parked already. *)
Theorem park_code_two_parks_once (st st1 st2 : Driver) (x y : Z) :
  getMotorStatus st = (Some (x, y), st1) ->
  getParkHomeStatus EmptyString st1 = ((true, "2"), st2) ->
  let r := evaluate_status st in
  fst r = Some SCOPE_PARKED /\
  TrackState (scope (snd r)) = SCOPE_PARKED /\
  exists adjustment,
    client (snd r) =
      client st ++
      (if TelescopeStatus_eqb (TrackState (scope st)) SCOPE_PARKED
       then [] else [MsgParkSP true]) ++
      [MsgTrackingAdjustmentNP adjustment].
Proof.
  intros H1 H2. cbv zeta.
  pose proof (getMotorStatus_io_only st) as I1.
  pose proof (getParkHomeStatus_io_only EmptyString st1) as I2.
  rewrite H1 in I1. rewrite H2 in I2. cbn [snd] in I1, I2.
  destruct I1 as (Hs1 & _ & _ & _ & _ & Hc1).
  destruct I2 as (Hs2 & _ & _ & _ & _ & Hc2).
  unfold evaluate_status, bind, gets, ret.
  cbv beta iota. rewrite H1. cbv beta iota. rewrite H2. cbn [negb].
  cbv beta iota. cbn [String.eqb Ascii.eqb Bool.eqb].
  cbv beta iota. rewrite Hs2, Hs1.
  destruct (TelescopeStatus_eqb (TrackState (scope st)) SCOPE_PARKED) eqn:Hp;
    unfold SetParked, Telescope_SetParked, modify_scope, IDSet, modify, bind;
    cbv beta iota;
    match goal with |- context [getTrackingAdjustment ?s] =>
      pose proof (getTrackingAdjustment_io_only s) as I3;
      destruct (getTrackingAdjustment s) as [[adj|] st3] end;
    cbn [snd] in I3; destruct I3 as (Hs3 & _ & _ & _ & _ & Hc3);
    cbn in Hs3, Hc3; cbn; rewrite Hs3, Hc3, ?Hs2, ?Hs1, ?Hc2, ?Hc1;
    cbn; (split; [reflexivity|split]);
    try (eexists; rewrite <- ?app_assoc; reflexivity).
  all: destruct (TrackState (scope st)); try discriminate Hp; reflexivity.
Qed.

Ltac poll_prefix H1 H2 :=
  let I1 := fresh "I" in
  let I2 := fresh "I" in
  match type of H1 with getMotorStatus ?st = (_, ?st1) =>
    pose proof (getMotorStatus_io_only st) as I1;
    pose proof (getParkHomeStatus_io_only EmptyString st1) as I2;
    rewrite H1 in I1; rewrite H2 in I2; cbn [snd] in I1, I2;
    destruct I1 as (?Hs1 & _ & _ & _ & _ & ?Hc1);
    destruct I2 as (?Hs2 & _ & _ & _ & _ & ?Hc2);
    unfold evaluate_status, bind, gets, ret;
    cbv beta iota; rewrite H1; cbv beta iota; rewrite H2; cbn [negb];
    cbv beta iota
  end.

Ltac poll_adjustment :=
  let I3 := fresh "I" in
  match goal with |- context [getTrackingAdjustment ?s] =>
    pose proof (getTrackingAdjustment_io_only s) as I3;
    destruct (getTrackingAdjustment s) as [[?adj|] ?st3] end;
  cbn [snd] in I3; destruct I3 as (?Hs3 & _ & _ & _ & _ & ?Hc3).

(** X24.  While the goto-home vector is busy, a cycle that finds both
    motors stopped and the mount not parked sets the vector to OK and
    publishes it; the cycle's new track state is idle, and the stored
    track state is not changed at this point. *)
Theorem stopped_motors_complete_goto_home (st st1 st2 : Driver)
  (code : string) :
  getMotorStatus st = (Some (0, 0), st1) ->
  getParkHomeStatus EmptyString st1 = ((true, code), st2) ->
  code <> "2"%string ->
  TrackState (scope st) <> SCOPE_PARKED ->
  MountGotoHomeSP (scope st) = IPS_BUSY ->
  let r := evaluate_status st in
  fst r = Some SCOPE_IDLE /\
  MountGotoHomeSP (scope (snd r)) = IPS_OK /\
  TrackState (scope (snd r)) = TrackState (scope st) /\
  exists adjustment,
    client (snd r) =
      client st ++
      [MsgMountGotoHomeSP IPS_OK; MsgTrackingAdjustmentNP adjustment].
Proof.
  intros H1 H2 Hcode Hnp Hbusy. cbv zeta.
  poll_prefix H1 H2.
  apply String.eqb_neq in Hcode. rewrite Hcode. cbv beta iota.
  rewrite Hs2, Hs1.
  destruct (TelescopeStatus_eqb (TrackState (scope st)) SCOPE_PARKED) eqn:Hp;
    [destruct (TrackState (scope st)); try discriminate Hp;
     contradiction Hnp; reflexivity|].
  cbn [Z.eqb andb]. cbv beta iota. rewrite Hs2, Hs1, Hbusy.
  cbn [IPState_eqb]. unfold modify_scope, IDSet, modify, bind.
  cbv beta iota.
  poll_adjustment; cbn in Hs3, Hc3; cbn; rewrite Hs3, Hc3, Hs2, Hs1, Hc2, Hc1;
    cbn; repeat split; eexists; rewrite <- ?app_assoc; reflexivity.
Qed.

(** X25.  When the scope was parked, the mount no longer reports park
    status ["2"] and the second motor value is not zero, the cycle tells
    the clients that the scope is unparked, but the new track state it
    hands on is the one read before: parked. *)
Theorem unparked_mount_is_judged_by_old_state (st st1 st2 : Driver)
  (x y : Z) (code : string) :
  getMotorStatus st = (Some (x, y), st1) ->
  getParkHomeStatus EmptyString st1 = ((true, code), st2) ->
  code <> "2"%string ->
  TrackState (scope st) = SCOPE_PARKED ->
  y <> 0 ->
  let r := evaluate_status st in
  fst r = Some SCOPE_PARKED /\
  IsParked (scope (snd r)) = false /\
  TrackState (scope (snd r)) = SCOPE_IDLE /\
  exists adjustment,
    client (snd r) =
      client st ++ [MsgParkSP false; MsgTrackingAdjustmentNP adjustment].
Proof.
  intros H1 H2 Hcode Hp Hy. cbv zeta.
  poll_prefix H1 H2.
  apply String.eqb_neq in Hcode. rewrite Hcode. cbv beta iota.
  rewrite Hs2, Hs1, Hp. cbn [TelescopeStatus_eqb].
  apply Z.eqb_neq in Hy. rewrite Hy, !andb_false_r.
  unfold SetParked, Telescope_SetParked, modify_scope, IDSet, modify, bind.
  cbv beta iota.
  poll_adjustment; cbn in Hs3, Hc3; cbn; rewrite Hs3, Hc3, ?Hs2, ?Hs1, Hc2, Hc1;
    cbn; repeat split; eexists; rewrite <- ?app_assoc; reflexivity.
Qed.

(** X26.  When the coordinates have been decoded and the pier side query
    cannot be written, [ReadScopeStatus] returns failure with the new
    coordinates and the new track state already stored and published. *)
Theorem failed_pier_side_keeps_new_position (st st1 st2 : Driver)
  (newTrackState : TelescopeStatus) (r d : float) :
  connected st = true ->
  simulation st = false ->
  evaluate_status st = (Some newTrackState, st1) ->
  getEqCoordinates st1 = (Some (r, d), st2) ->
  line_up (port st2) = false ->
  let st' := snd (ReadScopeStatus st) in
  fst (ReadScopeStatus st) = false /\
  currentRA (scope st') = r /\ currentDEC (scope st') = d /\
  EqN (scope st') = (r, d) /\
  TrackState (scope st') = newTrackState /\
  client st' = client st2 ++ [MsgEqNP r d].
Proof.
  intros Hc Hs He Hq Hl. cbv zeta.
  unfold ReadScopeStatus, bind, gets, ret.
  cbv beta iota. rewrite Hc. cbn [negb]. cbv beta iota. rewrite Hs.
  cbv beta iota. rewrite He. cbv beta iota. rewrite Hq. cbv beta iota.
  unfold NewRaDec, bind, modify_scope, IDSet, modify. cbv beta iota.
  unfold syncSideOfPier, bind.
  match goal with |- context [sendQuery ?c ?e ?w ?s] =>
    pose proof (sendQuery_result c e w s) as Hr;
    pose proof (sendQuery_io_only c e w s) as Hio;
    destruct (sendQuery c e w s) as [[ok resp] st3] end.
  cbn [fst snd] in Hr, Hio. cbn [port with_scope with_client] in Hr.
  rewrite Hl in Hr. subst ok. cbn [negb ret fst snd].
  destruct Hio as (Hs3 & _ & _ & _ & _ & Hc3).
  rewrite Hs3, Hc3. cbn. repeat split.
Qed.

(** X27.  In simulation [updateLocation] succeeds without touching the
    driver.  Otherwise the longitude is sent first, and when that write
    fails nothing else is sent: latitude and sidereal time are not
    attempted. *)
Theorem updateLocation_stops_at_first_failure (st : Driver)
  (latitude longitude elevation : float) :
  (simulation st = true ->
   updateLocation latitude longitude elevation st = (true, st)) /\
  (simulation st = false ->
   line_up (port st) = false ->
   updateLocation latitude longitude elevation st =
     (false, snd (setSiteLongitude longitude st)) /\
   exists command,
     written (trace (port (snd (setSiteLongitude longitude st)))) =
       written (trace (port st)) ++ [command]).
Proof.
  split.
  - intros Hs. unfold updateLocation, bind, gets. rewrite Hs. reflexivity.
  - intros Hs Hl.
    assert (F : fst (setSiteLongitude longitude st) = line_up (port st) /\
                exists command,
                  written (trace (port (snd (setSiteLongitude longitude st)))) =
                    written (trace (port st)) ++ [command]).
    { unfold setSiteLongitude.
      destruct (getSexComponents (normalise_longitude longitude))
        as [[dd mm] ss].
      unfold bind.
      match goal with |- context [sendQuery ?c ?e ?w st] =>
        pose proof (sendQuery_result c e w st) as Hr;
        pose proof (sendQuery_written c e w st) as Hw;
        destruct (sendQuery c e w st) as [[ok r] st1] end.
      split; [exact Hr | eexists; exact Hw]. }
    destruct F as [Hf Hc]. split; [|exact Hc].
    unfold updateLocation, bind, gets. cbv beta iota.
    repeat (rewrite Hs; cbn [negb]; cbv beta iota).
    destruct (setSiteLongitude longitude st) as [ok st1].
    cbn [fst snd] in Hf |- *. rewrite Hl in Hf. subst ok. reflexivity.
Qed.

End CatalogProperties.

#[export] Instance keeps_timers_preorder : PreOrder keeps_timers.
Proof. unfold keeps_timers. preorder_by_rewriting. Qed.

(** *** Guide timers *)

Lemma io_only_keeps_timers (st st' : Driver) :
  io_only st st' -> keeps_timers st st'.
Proof.
  intros (_ & Hg & _). unfold keeps_timers. rewrite Hg. repeat split.
Qed.

Lemma ensures_bind {A B : Type} (P Q R : Driver -> Prop) (c : M A)
  (k : A -> M B) :
  ensures P c Q -> (forall a, ensures Q (k a) R) -> ensures P (bind c k) R.
Proof.
  intros Hc Hk st HP. unfold bind. specialize (Hc st HP).
  destruct (c st) as [a st1]. apply (Hk a), Hc.
Qed.

Lemma ensures_ret {A : Type} (P Q : Driver -> Prop) (a : A) :
  (forall st, P st -> Q st) -> ensures P (ret a) Q.
Proof. intros H st HP. apply H, HP. Qed.

Lemma ensures_keeps {A : Type} (P : Driver -> Prop) (c : M A) :
  (forall st st', keeps_timers st st' -> P st -> P st') ->
  preserves keeps_timers c -> ensures P c P.
Proof. intros HP Hc st H. exact (HP _ _ (Hc st) H). Qed.

Lemma one_timer_per_axis_keeps (st st' : Driver) :
  keeps_timers st st' ->
  one_timer_per_axis (guide st) -> one_timer_per_axis (guide st').
Proof.
  intros (Ht & Hn & Hns & Hwe). unfold one_timer_per_axis, timer_owner.
  rewrite Ht, Hn, Hns, Hwe. trivial.
Qed.

Lemma axis_idle_keeps (callback : TimerCallback) (st st' : Driver) :
  keeps_timers st st' ->
  one_timer_per_axis (guide st) /\ axis_idle callback (guide st) ->
  one_timer_per_axis (guide st') /\ axis_idle callback (guide st').
Proof.
  intros Hk [H1 H2]. split; [exact (one_timer_per_axis_keeps _ _ Hk H1)|].
  destruct Hk as (Ht & _). unfold axis_idle. rewrite Ht. exact H2.
Qed.

(** Removing timers does not make two identifiers equal. *)
Lemma remaining_timers_distinct (id : Z)
  (pending : list (Z * Z * TimerCallback)) :
  NoDup (map timer_id pending) ->
  NoDup
    (map timer_id (filter (fun t => negb (fst (fst t) =? id)) pending)).
Proof.
  induction pending as [|t pending IH]; cbn [map filter]; intros H;
    [constructor|].
  apply NoDup_cons_iff in H. destruct H as [Hnew Hrest].
  destruct (negb (fst (fst t) =? id)); [|exact (IH Hrest)].
  cbn [map]. apply NoDup_cons; [|exact (IH Hrest)].
  rewrite in_map_iff. intros (t' & Hid & Hin).
  apply Hnew. rewrite in_map_iff. exists t'.
  split; [exact Hid | exact (proj1 (proj1 (filter_In _ _ _) Hin))].
Qed.

(** Removing the timer an axis holds leaves that axis idle. *)
Lemma cancel_timer_NS_idle :
  ensures (fun st => one_timer_per_axis (guide st)) cancel_timer_NS
    (fun st => one_timer_per_axis (guide st) /\
               axis_idle guideTimeoutHelperNS (guide st)).
Proof.
  intros st (Hn & Hd & Hf).
  unfold cancel_timer_NS, bind, gets, IERmTimer, modify_guide, modify.
  cbv beta iota. destruct (Z.eqb_spec (GuideNSTID (guide st)) 0) as [E|E].
  - cbn [snd ret]. split; [repeat split; assumption|].
    unfold axis_idle. eapply Forall_impl; [|exact Hf].
    intros [[id ms] cb] [Hr Ho]. unfold timer_owner, timer_id in *.
    cbn in *. destruct cb; [|discriminate]. lia.
  - cbn. unfold one_timer_per_axis, axis_idle. cbn.
    split; [split; [exact Hn|split]|].
    + apply remaining_timers_distinct, Hd.
    + apply Forall_forall. intros t Ht. apply filter_In in Ht.
      destruct Ht as [Hin Hp]. rewrite Forall_forall in Hf.
      destruct (Hf t Hin) as [Hr Ho]. split; [exact Hr|].
      destruct t as [[id ms] cb]. unfold timer_owner, timer_id in *.
      cbn in *. destruct cb; [|exact Ho].
      apply negb_true_iff, Z.eqb_neq in Hp. contradiction.
    + apply Forall_forall. intros t Ht. apply filter_In in Ht.
      destruct Ht as [Hin Hp]. rewrite Forall_forall in Hf.
      destruct (Hf t Hin) as [Hr Ho].
      destruct t as [[id ms] cb]. unfold timer_owner, timer_id in *.
      cbn in *. destruct cb; [|discriminate].
      apply negb_true_iff, Z.eqb_neq in Hp. contradiction.
Qed.

Lemma cancel_timer_WE_idle :
  ensures (fun st => one_timer_per_axis (guide st)) cancel_timer_WE
    (fun st => one_timer_per_axis (guide st) /\
               axis_idle guideTimeoutHelperWE (guide st)).
Proof.
  intros st (Hn & Hd & Hf).
  unfold cancel_timer_WE, bind, gets, IERmTimer, modify_guide, modify.
  cbv beta iota. destruct (Z.eqb_spec (GuideWETID (guide st)) 0) as [E|E].
  - cbn [snd ret]. split; [repeat split; assumption|].
    unfold axis_idle. eapply Forall_impl; [|exact Hf].
    intros [[id ms] cb] [Hr Ho]. unfold timer_owner, timer_id in *.
    cbn in *. destruct cb; [discriminate|]. lia.
  - cbn. unfold one_timer_per_axis, axis_idle. cbn.
    split; [split; [exact Hn|split]|].
    + apply remaining_timers_distinct, Hd.
    + apply Forall_forall. intros t Ht. apply filter_In in Ht.
      destruct Ht as [Hin Hp]. rewrite Forall_forall in Hf.
      destruct (Hf t Hin) as [Hr Ho]. split; [exact Hr|].
      destruct t as [[id ms] cb]. unfold timer_owner, timer_id in *.
      cbn in *. destruct cb; [exact Ho|].
      apply negb_true_iff, Z.eqb_neq in Hp. contradiction.
    + apply Forall_forall. intros t Ht. apply filter_In in Ht.
      destruct Ht as [Hin Hp]. rewrite Forall_forall in Hf.
      destruct (Hf t Hin) as [Hr Ho].
      destruct t as [[id ms] cb]. unfold timer_owner, timer_id in *.
      cbn in *. destruct cb; [discriminate|].
      apply negb_true_iff, Z.eqb_neq in Hp. contradiction.
Qed.

(** Starting a timer on an idle axis and keeping its identifier. *)
Lemma start_timer_NS (ms : Z) (result : IPState) :
  ensures
    (fun st => one_timer_per_axis (guide st) /\
               axis_idle guideTimeoutHelperNS (guide st))
    (id <- IEAddTimer ms guideTimeoutHelperNS ;;
     modify_guide (set_GuideNSTID id) ;; ret result)
    (fun st => one_timer_per_axis (guide st)).
Proof.
  intros st ((Hn & Hd & Hf) & Hi). unfold axis_idle in Hi.
  unfold IEAddTimer, bind, gets, modify_guide, modify, ret. cbn.
  unfold one_timer_per_axis. cbn. split; [lia|split].
  - rewrite map_app. cbn.
    apply NoDup_app; [exact Hd | repeat constructor; intros [] |].
    intros x Hx [<-|[]]. apply in_map_iff in Hx.
    destruct Hx as (t & Et & Hin). rewrite Forall_forall in Hf.
    destruct (Hf t Hin) as [Hr _]. lia.
  - apply Forall_app. split.
    + apply Forall_forall. intros t Hin. rewrite Forall_forall in Hf, Hi.
      destruct (Hf t Hin) as [Hr Ho]. specialize (Hi t Hin).
      destruct t as [[id m] cb]. unfold timer_owner, timer_id in *.
      cbn in *. destruct cb; [contradiction Hi; reflexivity|].
      split; [lia|exact Ho].
    + repeat constructor; cbn; lia.
Qed.

Lemma start_timer_WE (ms : Z) (result : IPState) :
  ensures
    (fun st => one_timer_per_axis (guide st) /\
               axis_idle guideTimeoutHelperWE (guide st))
    (id <- IEAddTimer ms guideTimeoutHelperWE ;;
     modify_guide (set_GuideWETID id) ;; ret result)
    (fun st => one_timer_per_axis (guide st)).
Proof.
  intros st ((Hn & Hd & Hf) & Hi). unfold axis_idle in Hi.
  unfold IEAddTimer, bind, gets, modify_guide, modify, ret. cbn.
  unfold one_timer_per_axis. cbn. split; [lia|split].
  - rewrite map_app. cbn.
    apply NoDup_app; [exact Hd | repeat constructor; intros [] |].
    intros x Hx [<-|[]]. apply in_map_iff in Hx.
    destruct Hx as (t & Et & Hin). rewrite Forall_forall in Hf.
    destruct (Hf t Hin) as [Hr _]. lia.
  - apply Forall_app. split.
    + apply Forall_forall. intros t Hin. rewrite Forall_forall in Hf, Hi.
      destruct (Hf t Hin) as [Hr Ho]. specialize (Hi t Hin).
      destruct t as [[id m] cb]. unfold timer_owner, timer_id in *.
      cbn in *. destruct cb; [|contradiction Hi; reflexivity].
      split; [lia|exact Ho].
    + repeat constructor; cbn; lia.
Qed.

Lemma sendQuery_keeps_timers (cmd : string) (e : ascii) (w : Z) :
  preserves keeps_timers (sendQuery cmd e w).
Proof. intros st. apply io_only_keeps_timers, sendQuery_io_only. Qed.

Ltac keeps_timers_step :=
  first
    [ apply preserves_ret; typeclasses eauto
    | apply preserves_gets; typeclasses eauto
    | apply sendQuery_keeps_timers
    | match goal with
      | |- preserves _ (modify _) =>
          apply preserves_modify; intros ?; unfold keeps_timers; cbn;
          repeat split
      | |- preserves _ (bind _ _) =>
          apply preserves_bind; [typeclasses eauto | | intros ?]
      | |- preserves _ (match ?x with _ => _ end) => destruct x
      | |- preserves _ (if ?b then _ else _) => destruct b
      end ].

Ltac keeps_timers_all :=
  unfold stop_moving_NS, stop_moving_WE, MoveNS, MoveWE, MovementBusy,
    SendPulseCmd, setSlewMode, slew_mode_alert, slew_to_guiding,
    modify_guide, modify_scope, IDSet;
  repeat keeps_timers_step.

Ltac timers_unchanged :=
  apply ensures_keeps;
  [ first [ apply one_timer_per_axis_keeps | apply axis_idle_keeps ]
  | keeps_timers_all ].

Ltac guide_timers cancel start :=
  eapply ensures_bind; [timers_unchanged | intros ?];
  eapply ensures_bind; [timers_unchanged | intros ?];
  match goal with |- ensures _ (if ?b then _ else _) _ => destruct b end;
    [apply ensures_ret; trivial|];
  eapply ensures_bind; [timers_unchanged | intros _];
  eapply ensures_bind; [apply cancel | intros _];
  eapply ensures_bind; [timers_unchanged | intros [|]]; cbn [negb];
    [| apply ensures_ret; intros ? [? _]; assumption];
  eapply ensures_bind; [timers_unchanged | intros _];
  eapply ensures_bind; [timers_unchanged | intros _];
  apply start.

(** X28.  The four guide functions keep the timers in order: identifiers
    positive and distinct, and at most one pending timer per axis, the one
    whose identifier the driver holds for that axis. *)
Theorem guide_keeps_one_timer_per_axis (ms : Z) (st : Driver) :
  one_timer_per_axis (guide st) ->
  one_timer_per_axis (guide (snd (GuideNorth ms st))) /\
  one_timer_per_axis (guide (snd (GuideSouth ms st))) /\
  one_timer_per_axis (guide (snd (GuideEast ms st))) /\
  one_timer_per_axis (guide (snd (GuideWest ms st))).
Proof.
  intros H.
  assert (N : ensures (fun st => one_timer_per_axis (guide st))
                (GuideNorth ms) (fun st => one_timer_per_axis (guide st))).
  { unfold GuideNorth. guide_timers cancel_timer_NS_idle start_timer_NS. }
  assert (S : ensures (fun st => one_timer_per_axis (guide st))
                (GuideSouth ms) (fun st => one_timer_per_axis (guide st))).
  { unfold GuideSouth. guide_timers cancel_timer_NS_idle start_timer_NS. }
  assert (E : ensures (fun st => one_timer_per_axis (guide st))
                (GuideEast ms) (fun st => one_timer_per_axis (guide st))).
  { unfold GuideEast. guide_timers cancel_timer_WE_idle start_timer_WE. }
  assert (W : ensures (fun st => one_timer_per_axis (guide st))
                (GuideWest ms) (fun st => one_timer_per_axis (guide st))).
  { unfold GuideWest. guide_timers cancel_timer_WE_idle start_timer_WE. }
  exact (conj (N st H) (conj (S st H) (conj (E st H) (W st H)))).
Qed.

Lemma not_busy (s : IPState) : s <> IPS_BUSY -> IPState_eqb s IPS_BUSY = false.
Proof. destruct s; intros H; try reflexivity. contradiction H; reflexivity. Qed.

Lemma cancel_timer_elsewhere (st : Driver) :
  (port (snd (cancel_timer_NS st)) = port st /\
   scope (snd (cancel_timer_NS st)) = scope st) /\
  (port (snd (cancel_timer_WE st)) = port st /\
   scope (snd (cancel_timer_WE st)) = scope st).
Proof.
  unfold cancel_timer_NS, cancel_timer_WE, IERmTimer, modify_guide, modify,
    bind, gets, ret.
  cbv beta iota.
  destruct (GuideNSTID (guide st) =? 0), (GuideWETID (guide st) =? 0);
    repeat split.
Qed.

Lemma SendPulseCmd_ignored (direction : TDirection) (ms : Z) (st : Driver) :
  TrackState (scope st) = SCOPE_SLEWING \/
  TrackState (scope st) = SCOPE_PARKING ->
  SendPulseCmd direction ms st = (1, st).
Proof.
  intros Ht. unfold SendPulseCmd, bind, gets, ret. cbv beta iota.
  destruct Ht as [-> | ->]; reflexivity.
Qed.

Ltac pulse_ignored Hp Hns Hwe Ht :=
  let Hport := fresh "Hport" in
  let Hscope := fresh "Hscope" in
  let st1 := fresh "st" in
  unfold MovementBusy, bind, gets, ret; cbv beta iota;
  rewrite Hp, Hns, Hwe; cbn [orb andb];
  unfold stop_moving_NS, stop_moving_WE, bind, gets, ret; cbv beta iota;
  rewrite ?Hns, ?Hwe; cbv beta iota;
  match goal with
  | |- context [cancel_timer_NS ?s] =>
      destruct (cancel_timer_elsewhere s) as [[Hport Hscope] _];
      destruct (cancel_timer_NS s) as [[] st1]
  | |- context [cancel_timer_WE ?s] =>
      destruct (cancel_timer_elsewhere s) as [_ [Hport Hscope]];
      destruct (cancel_timer_WE s) as [[] st1]
  end;
  cbn [snd] in Hport, Hscope; cbv beta iota;
  rewrite SendPulseCmd_ignored by (rewrite Hscope; exact Ht);
  cbv beta iota; cbn [negb];
  unfold slew_to_guiding, IEAddTimer, modify_guide, IDSet, modify, bind,
    gets, ret;
  cbv beta iota; cbn [fst snd port with_guide with_client];
  split; [reflexivity | exact Hport].

(** X29.  With pulse guiding and no manual motion, a guide request made
    while the scope is slewing or parking is answered [IPS_BUSY] although
    the pulse is dropped: nothing is read from or written to the line. *)
Theorem pulse_guide_while_slewing_sends_nothing (ms : Z) (st : Driver) :
  usePulseCommand (guide st) = true ->
  sw_s (MovementNSSP (guide st)) <> IPS_BUSY ->
  sw_s (MovementWESP (guide st)) <> IPS_BUSY ->
  TrackState (scope st) = SCOPE_SLEWING \/
  TrackState (scope st) = SCOPE_PARKING ->
  (fst (GuideNorth ms st) = IPS_BUSY /\
   port (snd (GuideNorth ms st)) = port st) /\
  (fst (GuideSouth ms st) = IPS_BUSY /\
   port (snd (GuideSouth ms st)) = port st) /\
  (fst (GuideEast ms st) = IPS_BUSY /\
   port (snd (GuideEast ms st)) = port st) /\
  (fst (GuideWest ms st) = IPS_BUSY /\
   port (snd (GuideWest ms st)) = port st).
Proof.
  intros Hp Hns Hwe Ht.
  apply not_busy in Hns, Hwe.
  split; [|split; [|split]].
  - unfold GuideNorth. pulse_ignored Hp Hns Hwe Ht.
  - unfold GuideSouth. pulse_ignored Hp Hns Hwe Ht.
  - unfold GuideEast. pulse_ignored Hp Hns Hwe Ht.
  - unfold GuideWest. pulse_ignored Hp Hns Hwe Ht.
Qed.

Lemma cancel_timer_NS_ids (st : Driver) :
  GuideNSTID (guide (snd (cancel_timer_NS st))) = 0 /\
  GuideWETID (guide (snd (cancel_timer_NS st))) = GuideWETID (guide st).
Proof.
  unfold cancel_timer_NS, IERmTimer, modify_guide, modify, bind, gets, ret.
  cbv beta iota.
  destruct (Z.eqb_spec (GuideNSTID (guide st)) 0) as [E|E]; cbn;
    split; trivial.
Qed.

Lemma Abort_guide_branch (st : Driver) (result : bool * GuideNP * bool) :
  GuideWETID (guide st) <> 0 ->
  let r :=
    (cancel_timer_NS ;;
     id <- gets (fun st => GuideWETID (guide st)) ;;
     (if id =? 0 then ret tt
      else (IERmTimer id ;; modify_guide (set_GuideNSTID 0))) ;;
     ret result) st in
  fst r = result /\
  GuideNSTID (guide (snd r)) = 0 /\
  GuideWETID (guide (snd r)) = GuideWETID (guide st) /\
  Forall (fun t => timer_id t <> GuideWETID (guide st))
    (timers (guide (snd r))).
Proof.
  intros Hwe. cbv zeta.
  assert (E : exists st',
             (cancel_timer_NS ;;
              id <- gets (fun st => GuideWETID (guide st)) ;;
              (if id =? 0 then ret tt
               else (IERmTimer id ;; modify_guide (set_GuideNSTID 0))) ;;
              ret result) st = (result, st') /\
             GuideNSTID (guide st') = 0 /\
             GuideWETID (guide st') = GuideWETID (guide st) /\
             Forall (fun t => timer_id t <> GuideWETID (guide st))
               (timers (guide st'))).
  { unfold bind at 1.
    destruct (cancel_timer_NS_ids st) as [Hns Hid].
    destruct (cancel_timer_NS st) as [[] st1]. cbn [snd] in Hns, Hid.
    unfold bind, gets. cbv beta iota. rewrite Hid.
    apply Z.eqb_neq in Hwe. rewrite Hwe.
    unfold IERmTimer, modify_guide, modify, ret. cbv beta iota.
    eexists. split; [reflexivity|]. cbn.
    repeat split; try assumption.
    apply Forall_forall. intros t Hin.
    apply filter_In in Hin. destruct Hin as [_ Hn].
    apply negb_true_iff, Z.eqb_neq in Hn. exact Hn. }
  destruct E as (st' & -> & H1 & H2 & H3). cbn [fst snd]. tauto.
Qed.

(** X30.  When [Abort] ends a guide with a west/east timer pending, it
    removes that timer and resets the guide vectors, but the identifier it
    clears is the north/south one: [GuideWETID] still names the removed
    timer. *)
Theorem Abort_keeps_west_east_timer_id (st : Driver) (np : GuideNP) :
  simulation st = true \/ line_up (port st) = true ->
  GuideNSNP_s np = IPS_BUSY \/ GuideWENP_s np = IPS_BUSY ->
  GuideWETID (guide st) <> 0 ->
  let r := Abort np st in
  fst r =
    (true,
     mkGuideNP IPS_IDLE (0%float, 0%float) IPS_IDLE (0%float, 0%float),
     true) /\
  GuideNSTID (guide (snd r)) = 0 /\
  GuideWETID (guide (snd r)) = GuideWETID (guide st) /\
  Forall (fun t => timer_id t <> GuideWETID (guide st))
    (timers (guide (snd r))).
Proof.
  intros Hline Hbusy Hwe. cbv zeta.
  assert (Hb : IPState_eqb (GuideNSNP_s np) IPS_BUSY
               || IPState_eqb (GuideWENP_s np) IPS_BUSY = true).
  { destruct Hbusy as [-> | ->]; cbn; [reflexivity | apply orb_true_r]. }
  assert (E : exists st1,
             guide st1 = guide st /\
             Abort np st =
             (cancel_timer_NS ;;
              id <- gets (fun st => GuideWETID (guide st)) ;;
              (if id =? 0 then ret tt
               else (IERmTimer id ;; modify_guide (set_GuideNSTID 0))) ;;
              ret (true,
                   mkGuideNP IPS_IDLE (0%float, 0%float)
                     IPS_IDLE (0%float, 0%float),
                   true)) st1).
  { unfold Abort; unfold bind at 1 2, gets at 1. cbv beta iota.
    destruct (simulation st) eqn:Hsim.
    - exists st. unfold ret at 1. cbv beta iota. cbn [negb]. rewrite Hb.
      split; reflexivity.
    - destruct Hline as [Hl|Hl]; [discriminate|].
      unfold bind at 1.
      pose proof (sendQuery_result ":Q#" "#" 0 st) as Hr.
      pose proof (sendQuery_io_only ":Q#" "#" 0 st) as Hio.
      destruct (sendQuery ":Q#" "#" 0 st) as [[ok resp] st1].
      cbn [fst snd] in Hr, Hio. rewrite Hl in Hr. subst ok.
      destruct Hio as (_ & Hg & _). exists st1.
      unfold ret at 1. cbv beta iota. cbn [negb]. rewrite Hb.
      split; [exact Hg | reflexivity]. }
  destruct E as (st1 & Hg & ->). rewrite <- Hg in Hwe |- *.
  apply (Abort_guide_branch st1 _ Hwe).
Qed.

(** *** Concrete runs, on the sample host *)

#[local] Existing Instance Sample.host.

Lemma syncSideOfPier_inverts_reply_witness :
  let st := Sample.mount [] [TxOk [(1, "PW"%string)]] in
  currentPierSide (scope st) = PIER_UNKNOWN /\
  fst (syncSideOfPier st) = true /\
  currentPierSide (scope (snd (syncSideOfPier st))) = PIER_EAST /\
  client (snd (syncSideOfPier st)) = [MsgPierSideSP PIER_EAST].
Proof.
  cbv zeta. split; [reflexivity|].
  exact (syncSideOfPier_inverts_reply (host := Sample.host)
           (Sample.mount [] [TxOk [(1, "PW"%string)]])
           (snd (sendQuery ":X39#" "#" 2
                   (Sample.mount [] [TxOk [(1, "PW"%string)]])))
           "W" EmptyString eq_refl).
Defined.

Lemma setTrackingAdjustment_range_check_witness :
  PrimFloat.ltb 5 5.01 = true /\
  setTrackingAdjustment 5.01 (Sample.mount [] []) =
    (false, Sample.mount [] []) /\
  PrimFloat.ltb (-5.01) (-5) = true /\
  setTrackingAdjustment (-5.01) (Sample.mount [] []) =
    (false, Sample.mount [] []).
Proof.
  destruct setTrackingAdjustment_range_check as (Hreject & _ & _).
  refine (conj eq_refl (conj _ (conj eq_refl _))).
  - exact (Hreject 5.01%float (Sample.mount [] []) (or_introl eq_refl)).
  - exact (Hreject (-5.01)%float (Sample.mount [] []) (or_intror eq_refl)).
Defined.



Lemma failed_coordinates_keep_position_witness :
  let line :=
    Sample.mount []
      [TxOk []; TxOk [(1, "m00")]; TxOk [(1, "p1")]; TxOk [(1, "nonsense")];
       TxOk [(1, "RD")]]%string in
  let st :=
    with_scope
      (set_TrackState SCOPE_PARKED
         (set_IsParked true (set_MountGotoHomeSP IPS_BUSY (scope line))))
      line in
  let se := snd (ReadScopeStatus st) in
  ReadScopeStatus st = (false, se) /\
  keeps_position st se /\
  TrackState (scope se) = SCOPE_IDLE /\
  IsParked (scope se) = false /\
  MountGotoHomeSP (scope se) = IPS_OK /\
  TrackingAdjustmentNP (scope se) = mkNumber IPS_ALERT 0 /\
  client se =
    [MsgParkSP false; MsgMountGotoHomeSP IPS_OK;
     MsgTrackingAdjustmentNP (mkNumber IPS_ALERT 0)].
Proof.
  intros line st se.
  pose (s0 := snd (getMotorStatus st)).
  pose (sa := snd (getMotorStatus s0)).
  pose (sb := snd (getParkHomeStatus EmptyString sa)).
  pose (sd := snd (getTrackingAdjustment (snd (evaluate_parking 0 0 "1" sb)))).
  assert (Hm : motor_status_read st 0 0 sa).
  { right. exists s0. split; vm_compute; reflexivity. }
  assert (Hp : getParkHomeStatus EmptyString sa = ((true, "1"%string), sb))
    by (vm_compute; reflexivity).
  assert (Ha : getTrackingAdjustment (snd (evaluate_parking 0 0 "1" sb)) =
               (None, sd)) by (vm_compute; reflexivity).
  assert (Hq : getEqCoordinates (snd (publish_adjustment None sd)) =
               (None, se)) by (vm_compute; reflexivity).
  exact (failed_coordinates_keep_position st sa sb sd se 0 0 "1" None
           eq_refl eq_refl Hm Hp Ha Hq).
Defined.

(** C2 as stated fails: the coordinates reply is unusable and the cycle
    fails, yet the park code read earlier in the same cycle has parked
    the mount and moved the track state, and the tracking adjustment has
    replaced the published one; both have been sent to the clients. *)
Lemma failed_cycle_publishes_park_and_adjustment :
  let st :=
    Sample.mount []
      [TxOk [(1, "m10")]; TxOk [(1, "p2")]; TxOk [(1, "or+012")];
       TxOk [(1, "garbage")]]%string in
  let st' := snd (ReadScopeStatus st) in
  fst (ReadScopeStatus st) = false /\
  written (trace (port st')) = [":X34#"; ":X38#"; ":X42#"; ":X590#"]%string /\
  (IsParked (scope st) = false /\ IsParked (scope st') = true) /\
  (TrackState (scope st) = SCOPE_TRACKING /\
   TrackState (scope st') = SCOPE_PARKED) /\
  (TrackingAdjustmentNP (scope st) = mkNumber IPS_IDLE 0 /\
   TrackingAdjustmentNP (scope st') = mkNumber IPS_OK (PrimFloat.div 12 100)) /\
  client st = [] /\
  client st' =
    [MsgParkSP true;
     MsgTrackingAdjustmentNP (mkNumber IPS_OK (PrimFloat.div 12 100))].
Proof. vm_compute. repeat split. Qed.

Lemma setSiteLongitude_shifts_then_branches_witness :
  let st := Sample.mount [] [] in
  (double_scaled (normalise_longitude 286.5) =
     double_scaled 286.5 + degrees (-360) /\
   normalise_longitude 286.5 = (-73.5)%float /\
   written (trace (port (snd (setSiteLongitude 286.5 st)))) =
     [":Sg-073*30:00#"]) /\
  (normalise_longitude 12.2575 = 12.2575%float /\
   written (trace (port (snd (setSiteLongitude 12.2575 st)))) =
     [":Sg+012*15:27#"]).
Proof.
  intros st. split.
  - destruct (setSiteLongitude_shifts_then_branches 286.5 st
                eq_refl eq_refl) as ((_ & Hs & _) & Hcmd & _).
    assert (Hc : splits_as (normalise_longitude 286.5) (-73) 30 0).
    { unfold splits_as. repeat split; try lia; vm_compute; congruence. }
    destruct (Hcmd (-73) 30 0 ltac:(vm_compute; reflexivity) Hc)
      as (_ & Hneg & _).
    destruct (Hneg ltac:(vm_compute; reflexivity)) as (_ & Hw).
    split; [exact Hs|]. split; [vm_compute; reflexivity | exact Hw].
  - destruct (setSiteLongitude_shifts_then_branches 12.2575 st
                eq_refl eq_refl) as (_ & _ & Hsample).
    destruct (Hsample 12 15 27 ltac:(vm_compute; reflexivity))
      as (_ & Hpos).
    split; [vm_compute; reflexivity|].
    exact (Hpos ltac:(vm_compute; reflexivity)).
Defined.

(** C7 as stated fails: a longitude of -180 is neither above 180 nor
    below -180, so it is not brought into (-180,180]; it is encoded as
    it stands. *)
Lemma longitude_minus_180_is_kept :
  normalise_longitude (-180) = (-180)%float /\
  PrimFloat.ltb (-180) (normalise_longitude (-180)) = false /\
  written (trace (port (snd (setSiteLongitude (-180) (Sample.mount [] []))))) =
    [":Sg-180*00:00#"%string].
Proof. vm_compute. repeat split. Qed.

(** Between -1 and 0 the sample host's splitter, like the host library's,
    returns 0 degrees and the minutes and seconds of the absolute value:
    none of the three is negative, and the form with the plus sign is
    written. *)
Lemma longitude_minus_half_is_sent_positive :
  Sample.sexagesimal (-0.5) = (0, 30, 0) /\
  written (trace (port (snd (setSiteLongitude (-0.5) (Sample.mount [] []))))) =
    [":Sg+000*30:00#"].
Proof. vm_compute. split; reflexivity. Qed.

(** The longitude is shifted once only: beyond 540 degrees the result
    stays outside the range. *)
Lemma longitude_600_is_shifted_once :
  normalise_longitude 600 = 240%float /\
  PrimFloat.leb (normalise_longitude 600) 180 = false.
Proof. vm_compute. split; reflexivity. Qed.

(** *** The catalogue on sample lines *)

Lemma Handshake_rejects_short_reply_witness :
  fst (Handshake (Sample.mount [] [TxOk [(1, "PT")]])) = false.
Proof.
  apply (Handshake_rejects_short_reply
           (Sample.mount [] [TxOk [(1, "PT")]]) 1 "PT");
    [constructor | reflexivity | cbn; lia | cbn; lia].
Defined.

Lemma getScopeAlignmentStatus_decodes_witness :
  let st := Sample.mount [] [TxOk [(1, "GT2")]] in
  fst (getScopeAlignmentStatus st) = Some ("G"%char, true, 2) /\
  fst (Handshake st) = true.
Proof.
  apply (getScopeAlignmentStatus_decodes
           (Sample.mount [] [TxOk [(1, "GT2")]]) 1 2 "G" "T" "");
    [constructor | reflexivity | cbn; lia | discriminate | lia].
Defined.

Lemma st4_port_round_trip_witness :
  written (trace (port (snd (setST4Enabled true (Sample.mount [] []))))) =
    [":TTSFh#"] /\
  fst (getST4Status (Sample.mount [] [TxOk [(1, "vh1")]])) = Some true.
Proof.
  split.
  - exact (proj1 (st4_port_round_trip (Sample.mount [] []) true)).
  - apply (proj2 (st4_port_round_trip (Sample.mount [] []) true)
             (Sample.mount [] [TxOk [(1, "vh1")]]) 1 "");
      [constructor | reflexivity | cbn; lia].
Defined.

Lemma keypad_round_trip_witness :
  written (trace (port (snd (setKeyPadEnabled true (Sample.mount [] []))))) =
    [":TTRFr#"] /\
  fst (getKeypadStatus (Sample.mount [] [TxOk [(1, "vr0")]])) = Some true.
Proof.
  split.
  - exact (proj1 (keypad_round_trip (Sample.mount [] []) true)).
  - apply (proj2 (keypad_round_trip (Sample.mount [] []) true)
             (Sample.mount [] [TxOk [(1, "vr0")]]) 1 "");
      [constructor | reflexivity | cbn; lia].
Defined.

Lemma silent_mount_reads_as_flags_witness :
  fst (getST4Status (Sample.mount [] [])) = Some false /\
  fst (getKeypadStatus (Sample.mount [] [])) = Some true.
Proof.
  apply (silent_mount_reads_as_flags (Sample.mount [] []));
    [constructor | reflexivity].
Defined.

Lemma system_slew_speed_round_trip_witness :
  let st := Sample.mount [] [] in
  setSystemSlewSpeedMode 7 st = (false, st) /\
  exists xx : string,
    written (trace (port (snd (setSystemSlewSpeedMode 2 st)))) =
      written (trace (port st)) ++ [(":TTMX" ++ xx ++ xx ++ "#")%string].
Proof.
  cbv zeta. split.
  - apply (proj1 (system_slew_speed_round_trip (Sample.mount [] []) 7)).
    right. lia.
  - destruct (proj2 (system_slew_speed_round_trip (Sample.mount [] []) 2))
      as (xx & Hw & _); [lia|].
    exists xx. exact Hw.
Defined.

Lemma getGuidingSpeeds_decodes_witness :
  fst (getGuidingSpeeds 0 0 (Sample.mount [] [TxOk [(1, "50b30")]])) =
    (true, (10 * 5 + 0, 10 * 3 + 0)).
Proof.
  apply (getGuidingSpeeds_decodes
           (Sample.mount [] [TxOk [(1, "50b30")]]) 1 5 0 3 0 "" 0 0);
    [constructor | reflexivity | cbn; lia | lia | lia | lia | lia].
Defined.

Lemma getGuidingSpeeds_accepts_silence_witness :
  fst (getGuidingSpeeds 7 8 (Sample.mount [] [])) = (true, (7, 8)).
Proof.
  apply (getGuidingSpeeds_accepts_silence (Sample.mount [] []) 7 8);
    [constructor | reflexivity].
Defined.

Lemma setGuidingSpeeds_commands_witness :
  let st := Sample.mount [] [] in
  written (trace (port (snd (setGuidingSpeeds (10 * 0 + 5) (10 * 3 + 0) st)))) =
    written (trace (port st)) ++
    (":X20" ++ blank_padded 0 5 ++ "#")%string ::
    (if line_up (port st)
     then [(":X21" ++ blank_padded 3 0 ++ "#")%string] else []).
Proof.
  cbv zeta.
  apply (proj1 (setGuidingSpeeds_commands (Sample.mount [] []) 0 5 3 0
                  ltac:(lia) ltac:(lia) ltac:(lia) ltac:(lia))).
Defined.

Lemma GetMeridianFlipMode_reads_flags_witness :
  fst (GetMeridianFlipMode
         (Sample.mount [] [TxOk [(1, "vs1")]; TxOk [(1, "vd1")]])) =
    Some 1.
Proof.
  apply (GetMeridianFlipMode_reads_flags
           (Sample.mount [] [TxOk [(1, "vs1")]; TxOk [(1, "vd1")]])
           1 1 true true "" "" []);
    [constructor | reflexivity | cbn; lia | cbn; lia].
Defined.

Lemma GetMeridianFlipMode_accepts_silence_witness :
  fst (GetMeridianFlipMode (Sample.mount [] [])) = Some 0.
Proof.
  apply (GetMeridianFlipMode_accepts_silence (Sample.mount [] []));
    [constructor | left; reflexivity].
Defined.

Lemma meridian_flip_round_trip_witness :
  let st := Sample.mount [] [] in
  exists enable force : bool,
    written (trace (port (snd (SetMeridianFlipMode 2 st)))) =
      written (trace (port st)) ++
      [flag_command enable "s"; flag_command force "d"].
Proof.
  cbv zeta.
  assert (H : fst (fst (SetMeridianFlipMode 2 (Sample.mount [] []))) = true)
    by (vm_compute; reflexivity).
  destruct (meridian_flip_round_trip (Sample.mount [] []) 2 eq_refl H)
    as (enable & force & Hw & _).
  exists enable, force. exact Hw.
Defined.

Lemma checkLX200EquatorialFormat_toggles_once_witness :
  let st :=
    Sample.mount []
      [TxOk [(1, "12:34.5")]; TxOk []; TxOk [(1, "12:34:56")]] in
  written (trace (port (snd (checkLX200EquatorialFormat st)))) =
    written (trace (port st)) ++ [":GR#"; ":U#"; ":GR#"].
Proof.
  cbv zeta.
  apply (proj1 (checkLX200EquatorialFormat_toggles_once
                  (Sample.mount []
                     [TxOk [(1, "12:34.5")]; TxOk [];
                      TxOk [(1, "12:34:56")]])
                  1 1 "12:34.5" "12:34:56" []
                  ltac:(constructor) eq_refl ltac:(cbn; lia) ltac:(cbn; lia)
                  eq_refl eq_refl eq_refl)).
Defined.

Lemma getFirmwareInfo_drops_first_date_character_witness :
  fst (getFirmwareInfo ""
         (Sample.mount []
            [TxOk [(1, "Avalon")]; TxOk [(1, "56.6")];
             TxOk [(1, "dmar 21 2021")]])) =
    Returns (true, ("Avalon" ++ " - " ++ "56.6" ++ " - " ++ "mar 21 2021")%string).
Proof.
  apply (getFirmwareInfo_drops_first_date_character
           (Sample.mount []
              [TxOk [(1, "Avalon")]; TxOk [(1, "56.6")];
               TxOk [(1, "dmar 21 2021")]])
           "" 1 1 1 "Avalon" "56.6" "d" "mar 21 2021" []);
    [constructor | reflexivity | cbn; lia | cbn; lia | cbn; lia
    | reflexivity | reflexivity | reflexivity].
Defined.

Lemma getFirmwareInfo_throws_without_date_witness :
  fst (getFirmwareInfo ""
         (Sample.mount [] [TxOk [(1, "Avalon")]; TxOk [(1, "56.6")]])) =
    Throws_out_of_range.
Proof.
  apply (getFirmwareInfo_throws_without_date
           (Sample.mount [] [TxOk [(1, "Avalon")]; TxOk [(1, "56.6")]])
           "" 1 1 "Avalon" "56.6" []);
    [constructor | reflexivity | cbn; lia | cbn; lia
    | reflexivity | reflexivity | exact I].
Defined.

Lemma slewToHome_always_returns_true_witness :
  let st := Sample.mount [] [TxError] in
  MountGotoHomeSP (scope (snd (slewToHome st))) = IPS_ALERT /\
  TrackState (scope (snd (slewToHome st))) = TrackState (scope st).
Proof.
  cbv zeta.
  exact (proj2 (proj2 (slewToHome_always_returns_true
                         (Sample.mount [] [TxError]))) eq_refl).
Defined.

Lemma slewToHome_starts_on_pA_witness :
  let st := Sample.mount [] [TxOk [(1, "pA")]] in
  scope (snd (slewToHome st)) =
    if String.eqb "pA" "pA"
    then set_TrackState SCOPE_SLEWING
           (set_MountGotoHomeSP IPS_BUSY (scope st))
    else set_MountGotoHomeSP IPS_ALERT (scope st).
Proof.
  cbv zeta.
  apply (slewToHome_starts_on_pA (Sample.mount [] [TxOk [(1, "pA")]]) 1 "pA");
    [constructor | reflexivity | cbn; lia | reflexivity].
Defined.

Lemma Park_requires_pB_witness :
  fst (Park (Sample.mount [] [TxOk [(1, "pB")]])) = String.eqb "pB" "pB" /\
  fst (Park (Sample.mount [] [TxOk [(1, "p0")]])) = String.eqb "p0" "pB".
Proof.
  split.
  - apply (proj1 (Park_requires_pB (Sample.mount [] [TxOk [(1, "pB")]])
                    1 "pB" ltac:(constructor) eq_refl ltac:(cbn; lia)
                    eq_refl)).
  - apply (proj1 (Park_requires_pB (Sample.mount [] [TxOk [(1, "p0")]])
                    1 "p0" ltac:(constructor) eq_refl ltac:(cbn; lia)
                    eq_refl)).
Defined.

Lemma sendQuery_reads_nothing_after_failed_write_witness :
  let st := Sample.mount [(0, "pA")] [TxError] in
  trace (port (snd (sendQuery ":X34#" "#" 2 st))) =
    trace (port st) ++ reads "#" 0 (map snd (inbox (port st))) ++
    [IORead "#" 0 None; IOWrite ":X34#" false; IOSleep].
Proof.
  cbv zeta.
  apply (proj2 (sendQuery_reads_nothing_after_failed_write ":X34#" "#" 2
                  (Sample.mount [(0, "pA")] [TxError])
                  ltac:(repeat constructor; cbn; lia) eq_refl)).
Defined.

Lemma ReadScopeStatus_retries_motor_status_once_witness :
  let st := Sample.mount [] [TxError; TxOk []] in
  let st1 := snd (getMotorStatus st) in
  let st2 := snd (getMotorStatus st1) in
  ReadScopeStatus st = (false, st2) /\
  written (trace (port st2)) =
    written (trace (port st)) ++ [":X34#"; ":X34#"].
Proof.
  intros st st1 st2.
  assert (H1 : getMotorStatus st = (None, st1)) by (vm_compute; reflexivity).
  assert (H2 : getMotorStatus st1 = (None, st2)) by (vm_compute; reflexivity).
  destruct (ReadScopeStatus_retries_motor_status_once st st1 st2
              eq_refl eq_refl H1 H2) as (Hr & Hw & _).
  exact (conj Hr Hw).
Defined.

Lemma park_code_two_parks_once_witness :
  let st := Sample.mount [] [TxOk [(1, "m11")]; TxOk [(1, "p2")]] in
  fst (evaluate_status st) = Some SCOPE_PARKED /\
  TrackState (scope (snd (evaluate_status st))) = SCOPE_PARKED.
Proof.
  intros st.
  set (st1 := snd (getMotorStatus st)).
  set (st2 := snd (getParkHomeStatus EmptyString st1)).
  assert (H1 : getMotorStatus st = (Some (1, 1), st1))
    by (vm_compute; reflexivity).
  assert (H2 : getParkHomeStatus EmptyString st1 = ((true, "2"), st2))
    by (vm_compute; reflexivity).
  destruct (park_code_two_parks_once st st1 st2 1 1 H1 H2) as (Hr & Ht & _).
  exact (conj Hr Ht).
Defined.

Lemma stopped_motors_complete_goto_home_witness :
  let m := Sample.mount [] [TxOk [(1, "m00")]; TxOk [(1, "p0")]] in
  let st := with_scope (set_MountGotoHomeSP IPS_BUSY (scope m)) m in
  fst (evaluate_status st) = Some SCOPE_IDLE /\
  MountGotoHomeSP (scope (snd (evaluate_status st))) = IPS_OK.
Proof.
  intros m st.
  set (st1 := snd (getMotorStatus st)).
  set (st2 := snd (getParkHomeStatus EmptyString st1)).
  assert (H1 : getMotorStatus st = (Some (0, 0), st1))
    by (vm_compute; reflexivity).
  assert (H2 : getParkHomeStatus EmptyString st1 = ((true, "0"), st2))
    by (vm_compute; reflexivity).
  destruct (stopped_motors_complete_goto_home st st1 st2 "0" H1 H2
              ltac:(discriminate) ltac:(discriminate) eq_refl)
    as (Hr & Hh & _).
  exact (conj Hr Hh).
Defined.

Lemma unparked_mount_is_judged_by_old_state_witness :
  let m := Sample.mount [] [TxOk [(1, "m11")]; TxOk [(1, "p0")]] in
  let st := with_scope (set_TrackState SCOPE_PARKED (scope m)) m in
  fst (evaluate_status st) = Some SCOPE_PARKED /\
  IsParked (scope (snd (evaluate_status st))) = false.
Proof.
  intros m st.
  set (st1 := snd (getMotorStatus st)).
  set (st2 := snd (getParkHomeStatus EmptyString st1)).
  assert (H1 : getMotorStatus st = (Some (1, 1), st1))
    by (vm_compute; reflexivity).
  assert (H2 : getParkHomeStatus EmptyString st1 = ((true, "0"), st2))
    by (vm_compute; reflexivity).
  destruct (unparked_mount_is_judged_by_old_state st st1 st2 1 1 "0" H1 H2
              ltac:(discriminate) eq_refl ltac:(discriminate))
    as (Hr & Hp & _).
  exact (conj Hr Hp).
Defined.

Lemma failed_pier_side_keeps_new_position_witness :
  let st :=
    Sample.mount []
      [TxOk [(1, "m10")]; TxOk [(1, "p0")]; TxOk [(1, "or+012")];
       TxOk [(1, "RD00123450-0050000")]; TxError] in
  fst (ReadScopeStatus st) = false /\
  currentRA (scope (snd (ReadScopeStatus st))) =
    PrimFloat.div 123450 1000000.
Proof.
  intros st.
  set (st1 := snd (evaluate_status st)).
  set (st2 := snd (getEqCoordinates st1)).
  assert (He : evaluate_status st = (Some SCOPE_TRACKING, st1))
    by (vm_compute; reflexivity).
  assert (Hq : getEqCoordinates st1 =
               (Some (PrimFloat.div 123450 1000000, (-0.5)%float), st2))
    by (vm_compute; reflexivity).
  assert (Hl : line_up (port st2) = false) by (vm_compute; reflexivity).
  destruct (failed_pier_side_keeps_new_position st st1 st2 SCOPE_TRACKING
              _ _ eq_refl eq_refl He Hq Hl) as (Hr & Hra & _).
  exact (conj Hr Hra).
Defined.

Lemma updateLocation_stops_at_first_failure_witness :
  let st := Sample.mount [] [TxError] in
  updateLocation (almanac := sample_almanac) 48.5 11.5 500 st =
    (false, snd (setSiteLongitude 11.5 st)).
Proof.
  cbv zeta.
  exact (proj1 (proj2 (updateLocation_stops_at_first_failure
                         (almanac := sample_almanac)
                         (Sample.mount [] [TxError]) 48.5 11.5 500)
                  eq_refl eq_refl)).
Defined.

Lemma guide_keeps_one_timer_per_axis_witness :
  let st := snd (GuideNorth 250 (Sample.mount [] [])) in
  one_timer_per_axis (guide st) /\
  one_timer_per_axis (guide (snd (GuideNorth 100 st))).
Proof.
  intros st.
  assert (H0 : one_timer_per_axis (guide (Sample.mount [] []))).
  { unfold one_timer_per_axis. cbn. repeat split; [constructor|constructor]. }
  pose proof (proj1 (guide_keeps_one_timer_per_axis 250
                       (Sample.mount [] []) H0)) as H1.
  exact (conj H1 (proj1 (guide_keeps_one_timer_per_axis 100 st H1))).
Defined.

Lemma pulse_guide_while_slewing_sends_nothing_witness :
  let m := Sample.mount [] [] in
  let st := with_scope (set_TrackState SCOPE_SLEWING (scope m)) m in
  fst (GuideNorth 250 st) = IPS_BUSY /\
  port (snd (GuideNorth 250 st)) = port st.
Proof.
  intros m st.
  exact (proj1 (pulse_guide_while_slewing_sends_nothing 250 st eq_refl
                  ltac:(discriminate) ltac:(discriminate)
                  (or_introl eq_refl))).
Defined.

Lemma Abort_keeps_west_east_timer_id_witness :
  let m := Sample.mount [] [] in
  let st :=
    with_guide
      (set_GuideWETID 1
         (set_timers [(1, 500, guideTimeoutHelperWE)] 2 (guide m))) m in
  let np := mkGuideNP IPS_IDLE (0%float, 0%float)
              IPS_BUSY (0%float, 500%float) in
  GuideNSTID (guide (snd (Abort np st))) = 0 /\
  GuideWETID (guide (snd (Abort np st))) = 1.
Proof.
  intros m st np.
  destruct (Abort_keeps_west_east_timer_id st np
              (or_intror eq_refl) (or_intror eq_refl) ltac:(discriminate))
    as (_ & Hns & Hwe & _).
  exact (conj Hns Hwe).
Defined.
